(** * GMF Investments: the data-processing pipeline of [scripts/data_processing.py]

    The script keeps one pandas table per ticker in a dictionary and runs a
    sequence of stages over it.  This development embeds the stages that the
    specification talks about and proves (or refutes) its statements.

    Modelling choices, all of them visible in the definitions below:

    - a 64-bit float is an exact rational, or one of the three special values
      [+inf], [-inf], [NaN]; every finite result is stored as a reduced
      fraction.  The operations do not round and do not overflow, so a value
      proved here is the value the script stores up to rounding.  Statements
      are kept to what survives rounding: where one turns on a rounding error
      (the upper end of the scaled range, a return that sits on the
      threshold), it carries a tolerance or leaves the bound out, and the
      computation is repeated in double precision, on Rocq's primitive
      floats, in the module [Double];
    - the results of a standard deviation are irrational in general; they are
      kept exactly, as a rational multiple of a square root ([sfloat]), and
      compared with rationals by squaring;
    - a table has a list of row labels and an ordered list of named, typed
      columns; a missing value is [NaN];
    - tables and dictionaries are objects in a store, referred to by address,
      because the script mutates them in place and shares them;
    - [print] and the plotting calls append events to an output trace;
    - strings are byte strings: a method name is taken to be ASCII, and
      [lower] folds the ASCII letters;
    - the library calls (pandas, scikit-learn, scipy, statsmodels) follow the
      documented behaviour of the library versions the script runs on
      (pandas 1.x/2.x, where [fillna] still takes [method]). *)

From Stdlib Require Import Floats.
From Stdlib Require Import QArith Qabs Qminmax ZArith List Reals Qreals Psatz.
From Stdlib Require Import Ascii String.
From stdpp Require Import base list strings pretty.

Local Open Scope string_scope.
Local Open Scope list_scope.

(** ** Floating-point values *)

Inductive float64 : Type :=
  | Fin (q : Q)
  | PInf
  | NInf
  | NaN.

(** A finite result, stored reduced. *)
Definition fin (q : Q) : float64 := Fin (Qred q).

Definition isnan (x : float64) : bool :=
  match x with NaN => true | _ => false end.

Definition fadd (x y : float64) : float64 :=
  match x, y with
  | NaN, _ | _, NaN => NaN
  | Fin a, Fin b => fin (a + b)
  | PInf, NInf | NInf, PInf => NaN
  | PInf, _ | _, PInf => PInf
  | NInf, _ | _, NInf => NInf
  end.

Definition fsub (x y : float64) : float64 :=
  match x, y with
  | NaN, _ | _, NaN => NaN
  | Fin a, Fin b => fin (a - b)
  | PInf, PInf | NInf, NInf => NaN
  | PInf, _ | _, NInf => PInf
  | NInf, _ | _, PInf => NInf
  end.

Definition fmul (x y : float64) : float64 :=
  match x, y with
  | NaN, _ | _, NaN => NaN
  | Fin a, Fin b => fin (a * b)
  | Fin a, PInf | PInf, Fin a =>
      match (a ?= 0)%Q with Eq => NaN | Gt => PInf | Lt => NInf end
  | Fin a, NInf | NInf, Fin a =>
      match (a ?= 0)%Q with Eq => NaN | Gt => NInf | Lt => PInf end
  | PInf, PInf | NInf, NInf => PInf
  | PInf, NInf | NInf, PInf => NInf
  end.

(** Division follows IEEE 754 on a zero divisor: [x / 0] is an infinity of
    the sign of [x], and [0 / 0] is [NaN]. *)
Definition fdiv (x y : float64) : float64 :=
  match x, y with
  | NaN, _ | _, NaN => NaN
  | Fin a, Fin b =>
      match (b ?= 0)%Q with
      | Eq => match (a ?= 0)%Q with Eq => NaN | Gt => PInf | Lt => NInf end
      | _ => fin (a / b)
      end
  | Fin _, _ => fin 0
  | PInf, Fin b => match (b ?= 0)%Q with Lt => NInf | _ => PInf end
  | NInf, Fin b => match (b ?= 0)%Q with Lt => PInf | _ => NInf end
  | _, _ => NaN
  end.

(** [x > y]; every comparison with [NaN] is false. *)
Definition fgt (x y : float64) : bool :=
  match x, y with
  | NaN, _ | _, NaN => false
  | Fin a, Fin b => match (a ?= b)%Q with Gt => true | _ => false end
  | PInf, PInf => false
  | PInf, _ => true
  | _, NInf => match x with NInf => false | _ => true end
  | _, _ => false
  end.

Definition flt (x y : float64) : bool := fgt y x.

(** ** Values that involve a square root

    [SVal a r] stands for the real number [a * sqrt r], with [0 <= r]. *)

Inductive sfloat : Type :=
  | SVal (a r : Q)
  | SInf (neg : bool)
  | SNaN.

Definition sisnan (s : sfloat) : bool :=
  match s with SNaN => true | _ => false end.

(** [q / s] for a rational [q]. *)
Definition sdiv (q : Q) (s : sfloat) : sfloat :=
  match s with
  | SVal a r =>
      match (a * r ?= 0)%Q with
      | Eq => match (q ?= 0)%Q with Eq => SNaN | Gt => SInf false | Lt => SInf true end
      | _ => SVal (Qred (q / (a * r))) r
      end
  | SInf _ => SVal 0 1
  | SNaN => SNaN
  end.

Definition sabs (s : sfloat) : sfloat :=
  match s with
  | SVal a r => SVal (Qabs a) r
  | SInf _ => SInf false
  | SNaN => SNaN
  end.

(** [s > t] for a rational [t], decided by comparing squares. *)
Definition sgt (s : sfloat) (t : Q) : bool :=
  match s with
  | SVal a r =>
      match (a ?= 0)%Q with
      | Lt => match (t ?= 0)%Q with
              | Lt => match (a * a * r ?= t * t)%Q with Lt => true | _ => false end
              | _ => false
              end
      | _ => match (t ?= 0)%Q with
             | Lt => true
             | _ => match (a * a * r ?= t * t)%Q with Gt => true | _ => false end
             end
      end
  | SInf neg => negb neg
  | SNaN => false
  end.


(** ** Sums, means and spreads of rationals *)

Definition Qsum (l : list Q) : Q := fold_right Qplus 0%Q l.

Definition Qlen (l : list Q) : Q := inject_Z (Z.of_nat (length l)).

Definition Qmean (l : list Q) : Q := (Qsum l / Qlen l)%Q.

(** Sum of the squared deviations from [m]. *)
Definition Qssd (m : Q) (l : list Q) : Q :=
  Qsum (map (fun x => (x - m) * (x - m))%Q l).

(** Variance with [ddof] delta degrees of freedom. *)
Definition Qvar (ddof : nat) (l : list Q) : Q :=
  (Qssd (Qmean l) l / inject_Z (Z.of_nat (length l - ddof)))%Q.

Definition Qlist_min (x : Q) (l : list Q) : Q := fold_right Qmin x l.
Definition Qlist_max (x : Q) (l : list Q) : Q := fold_right Qmax x l.

(** The finite entries of a list of floats, in order. *)
Definition finites (l : list float64) : list Q :=
  omap (fun x => match x with Fin q => Some q | _ => None end) l.

(** All the entries, when every one is finite. *)
Definition all_finite (l : list float64) : option (list Q) :=
  mapM (fun x => match x with Fin q => Some q | _ => None end) l.

(** ** Exceptions and results *)

Inductive exn : Type :=
  | KeyError (key : string)
  | ValueError (msg : string)
  | TypeError (msg : string)
  | ZeroDivisionError (msg : string).

Inductive res (A : Type) : Type :=
  | Ok (a : A)
  | Raise (e : exn).

Arguments Ok {A} a.
Arguments Raise {A} e.

Definition rbind {A B} (r : res A) (k : A -> res B) : res B :=
  match r with
  | Ok a => k a
  | Raise e => Raise e
  end.

Declare Scope res_scope.
Delimit Scope res_scope with res.
Notation "'let?' x := r 'in' k" := (rbind r (fun x => k))
  (at level 10, x name, r at level 100, k at level 200,
   format "'[v' 'let?'  x  :=  r  'in' '/' k ']'") : res_scope.
Local Open Scope res_scope.

Fixpoint rmap {A B} (f : A -> res B) (l : list A) : res (list B) :=
  match l with
  | [] => Ok []
  | x :: r => let? y := f x in let? ys := rmap f r in Ok (y :: ys)
  end.

(** ** Columns and tables *)

(** A row label: a position from a [RangeIndex], or a date. *)
Inductive label : Type :=
  | Pos (i : nat)
  | Day (d : Z).

(** A column has one element type, as a pandas Series has one dtype. *)
Inductive column : Type :=
  | DateCol (l : list Z)
  | NumCol (l : list float64)
  | StatCol (l : list sfloat).

Definition col_length (c : column) : nat :=
  match c with
  | DateCol l => length l
  | NumCol l => length l
  | StatCol l => length l
  end.

Definition dtype (c : column) : string :=
  match c with
  | DateCol _ => "datetime64[ns]"
  | NumCol _ | StatCol _ => "float64"
  end.

Record DataFrame : Type := mkDataFrame {
  index : list label;
  columns : list (string * column)
}.

Definition nrows (df : DataFrame) : nat := length (index df).

Definition RangeIndex (n : nat) : list label := map Pos (seq 0 n).

Fixpoint assoc {A} (k : string) (l : list (string * A)) : option A :=
  match l with
  | [] => None
  | (k', v) :: r => if decide (k = k') then Some v else assoc k r
  end.

(** A new key goes to the end; a known key keeps its place. *)
Fixpoint assoc_set {A} (k : string) (v : A) (l : list (string * A))
  : list (string * A) :=
  match l with
  | [] => [(k, v)]
  | (k', v') :: r =>
      if decide (k = k') then (k, v) :: r else (k', v') :: assoc_set k v r
  end.

Fixpoint assoc_del {A} (k : string) (l : list (string * A))
  : list (string * A) :=
  match l with
  | [] => []
  | (k', v') :: r =>
      if decide (k = k') then assoc_del k r else (k', v') :: assoc_del k r
  end.

(** [df[c]] *)
Definition df_getitem (df : DataFrame) (c : string) : res column :=
  match assoc c (columns df) with
  | Some col => Ok col
  | None => Raise (KeyError c)
  end.

(** [df[c] = col] *)
Definition df_setitem (df : DataFrame) (c : string) (col : column)
  : res DataFrame :=
  if decide (col_length col = nrows df)
  then Ok {| index := index df; columns := assoc_set c col (columns df) |}
  else Raise (ValueError "Length of values does not match length of index").

(** [df[[c1, ..., cn]]] *)
Definition df_select (df : DataFrame) (cs : list string) : res DataFrame :=
  let? cols := rmap (fun c => let? col := df_getitem df c in Ok (c, col)) cs in
  Ok {| index := index df; columns := cols |}.

(** The numbers of a float column. *)
Definition floats (c : column) : res (list float64) :=
  match c with
  | NumCol l => Ok l
  | DateCol _ => Raise (TypeError "datetime column in float arithmetic")
  | StatCol _ => Raise (TypeError "irrational column in float arithmetic")
  end.

(** Rows kept by a boolean mask. *)
Fixpoint keep {A} (mask : list bool) (l : list A) : list A :=
  match mask, l with
  | b :: m, x :: r => if b then x :: keep m r else keep m r
  | _, _ => []
  end.

Definition col_keep (mask : list bool) (c : column) : column :=
  match c with
  | DateCol l => DateCol (keep mask l)
  | NumCol l => NumCol (keep mask l)
  | StatCol l => StatCol (keep mask l)
  end.

(** [df[mask]]: the rows keep their labels. *)
Definition df_mask (df : DataFrame) (mask : list bool) : DataFrame :=
  {| index := keep mask (index df);
     columns := map (fun kc => (kc.1, col_keep mask kc.2)) (columns df) |}.

(** *** Missing values *)

Definition col_isna (c : column) : list bool :=
  match c with
  | DateCol l => map (fun _ => false) l
  | NumCol l => map isnan l
  | StatCol l => map sisnan l
  end.

(** [df.isnull().sum()] *)
Definition isnull_sum (df : DataFrame) : list (string * nat) :=
  map (fun kc => (kc.1, length (filter (fun b => b = true) (col_isna kc.2))))
      (columns df).

(** Row [i] has a missing value in some column. *)
Definition row_has_na (df : DataFrame) (i : nat) : bool :=
  existsb (fun kc => default false (col_isna kc.2 !! i)) (columns df).

(** [df.dropna()]: a new table without the rows that have a missing value
    in any column; [ignore_index] is off, so labels are kept. *)
Definition dropna (df : DataFrame) : DataFrame :=
  df_mask df (map (fun i => negb (row_has_na df i)) (seq 0 (nrows df))).

(** Forward and backward fill of one series. *)
Fixpoint fill_from {A} (missing : A -> bool) (last : A) (l : list A) : list A :=
  match l with
  | [] => []
  | x :: r =>
      let y := if missing x then last else x in
      y :: fill_from missing y r
  end.

Definition ffill (l : list float64) : list float64 := fill_from isnan NaN l.
Definition bfill (l : list float64) : list float64 := rev (ffill (rev l)).

Definition col_ffill (c : column) : column :=
  match c with
  | DateCol l => DateCol l
  | NumCol l => NumCol (ffill l)
  | StatCol l => StatCol (fill_from sisnan SNaN l)
  end.

Definition col_bfill (c : column) : column :=
  match c with
  | DateCol l => DateCol l
  | NumCol l => NumCol (bfill l)
  | StatCol l => StatCol (rev (fill_from sisnan SNaN (rev l)))
  end.

Definition df_map_columns (f : column -> column) (df : DataFrame) : DataFrame :=
  {| index := index df;
     columns := map (fun kc => (kc.1, f kc.2)) (columns df) |}.

(** [str.lower] on the ASCII letters; other bytes are left as they are. *)
Definition lower_ascii (a : ascii) : ascii :=
  let n := nat_of_ascii a in
  if (65 <=? n)%nat && (n <=? 90)%nat then ascii_of_nat (n + 32) else a.

Fixpoint lower (s : string) : string :=
  match s with
  | EmptyString => EmptyString
  | String a r => String (lower_ascii a) (lower r)
  end.

(** [df.fillna(method=m)]: pandas lower-cases the name and accepts only the
    pad and backfill families; any other name is a [ValueError]. *)
Definition fillna (df : DataFrame) (method : string) : res DataFrame :=
  let m := lower method in
  if decide (m = "ffill" \/ m = "pad") then Ok (df_map_columns col_ffill df)
  else if decide (m = "bfill" \/ m = "backfill")
       then Ok (df_map_columns col_bfill df)
  else Raise (ValueError
    ("Invalid fill method. Expecting pad (ffill) or backfill (bfill). Got " ++ m)).

(** *** Series arithmetic *)

(** [s.shift(1)] *)
Definition shift1 (l : list float64) : list float64 :=
  take (length l) (NaN :: l).

(** [s.pct_change()]: with the default [fill_method='pad'] the series is
    forward-filled first; the change is [data / data.shift(1) - 1]. *)
Definition pct_change (l : list float64) : list float64 :=
  let data := ffill l in
  zip_with (fun x p => fsub (fdiv x p) (Fin 1)) data (shift1 data).

(** [s * k] *)
Definition scale_by (k : Q) (l : list float64) : list float64 :=
  map (fun x => fmul x (Fin k)) l.

Definition fabs (x : float64) : float64 :=
  match x with
  | Fin q => Fin (Qabs q)
  | PInf | NInf => PInf
  | NaN => NaN
  end.

Definition sopp (s : sfloat) : sfloat :=
  match s with
  | SVal a r => SVal (- a) r
  | SInf neg => SInf (negb neg)
  | SNaN => SNaN
  end.

(** [abs(s)] *)
Definition series_abs (c : column) : res column :=
  match c with
  | NumCol l => Ok (NumCol (map fabs l))
  | StatCol l => Ok (StatCol (map sabs l))
  | DateCol _ => Raise (TypeError "bad operand type for abs()")
  end.

(** [s > t] and [s < t], element by element. *)
Definition series_gt (c : column) (t : Q) : res (list bool) :=
  match c with
  | NumCol l => Ok (map (fun x => fgt x (Fin t)) l)
  | StatCol l => Ok (map (fun s => sgt s t) l)
  | DateCol _ => Raise (TypeError "invalid comparison of dates with a number")
  end.

Definition series_lt (c : column) (t : Q) : res (list bool) :=
  match c with
  | NumCol l => Ok (map (fun x => flt x (Fin t)) l)
  | StatCol l => Ok (map (fun s => sgt (sopp s) (- t)) l)
  | DateCol _ => Raise (TypeError "invalid comparison of dates with a number")
  end.

(** *** Rolling windows

    [s.rolling(window=w)] has [min_periods = w]: the statistic at row [i] is
    taken over rows [i-w+1 .. i] and is [NaN] unless all [w] of them exist
    and are finite. *)

Definition window_at (w : nat) (l : list float64) (i : nat) : option (list Q) :=
  if (w =? 0)%nat || (i + 1 <? w)%nat then None
  else all_finite (take w (drop (i + 1 - w) l)).

Definition rolling {A} (w : Z) (l : list float64) (nan : A)
    (stat : list Q -> A) : res (list A) :=
  if (w <? 0)%Z
  then Raise (ValueError "window must be an integer 0 or greater")
  else Ok (map (fun i => match window_at (Z.to_nat w) l i with
                         | Some qs => stat qs
                         | None => nan
                         end)
               (seq 0 (length l))).

(** [.rolling(window=w).mean()] *)
Definition rolling_mean (w : Z) (l : list float64) : res (list float64) :=
  rolling w l NaN (fun qs => fin (Qmean qs)).

(** [.rolling(window=w).std()]: the sample standard deviation ([ddof=1]),
    undefined on a single observation. *)
Definition rolling_std (w : Z) (l : list float64) : res (list sfloat) :=
  rolling w l SNaN
    (fun qs => if (length qs <=? 1)%nat then SNaN
               else SVal 1 (Qred (Qvar 1 qs))).

(** *** [scipy.stats.zscore]

    [(a - a.mean()) / a.std()] with the population standard deviation
    ([ddof=0]) and [nan_policy='propagate']: one mean and one deviation for
    the whole array; a non-finite entry makes every score [NaN]. *)

Definition np_mean (a : list Q) : Q := Qmean a.

Definition np_std (a : list Q) : sfloat := SVal 1 (Qred (Qvar 0 a)).

Definition zscore (a : list float64) : list sfloat :=
  match all_finite a with
  | Some qs =>
      let mn := np_mean qs in
      let std := np_std qs in
      map (fun x => sdiv (x - mn) std) qs
  | None => map (fun _ => SNaN) a
  end.

(** *** [sklearn.preprocessing.MinMaxScaler]

    The fitted attributes of a scaler with [feature_range = (0, 1)], one
    entry per feature. *)

Record MinMaxScaler : Type := mkScaler {
  data_min_ : list float64;
  data_max_ : list float64;
  scale_ : list float64;
  min_ : list float64
}.

Definition nanmin (l : list float64) : float64 :=
  match finites l with
  | [] => NaN
  | x :: r => Fin (Qlist_min x r)
  end.

Definition nanmax (l : list float64) : float64 :=
  match finites l with
  | [] => NaN
  | x :: r => Fin (Qlist_max x r)
  end.

(** [np.finfo(np.float64).eps] and [np.finfo(np.float64).max] *)
Definition DBL_EPSILON : Q := 1 / 2 ^ 52.

(** A feature whose range is below ten machine epsilons, a constant feature
    in particular, is scaled by one
    ([scale[scale < 10 * np.finfo(scale.dtype).eps] = 1.0]). *)
Definition handle_zeros_in_scale (r : float64) : float64 :=
  match r with
  | Fin q => match (q ?= 10 * DBL_EPSILON)%Q with
             | Lt => Fin 1
             | _ => r
             end
  | _ => r
  end.

(** Input validation of [fit]: at least one sample, [NaN] allowed,
    infinities refused.  The messages are cut to their first words; the rest
    of the text (the shape, the estimator, the dtype) varies with the
    version of the library. *)
Definition n_samples (X : list (list float64)) : nat :=
  match X with
  | [] => 0
  | col :: _ => length col
  end.

Definition check_array (X : list (list float64)) : res unit :=
  if (n_samples X =? 0)%nat
  then Raise (ValueError "Found array with 0 sample(s)")
  else if existsb (existsb (fun x => match x with PInf | NInf => true | _ => false end)) X
  then Raise (ValueError "Input contains infinity")
  else Ok tt.

Definition fit (X : list (list float64)) : res MinMaxScaler :=
  let? _ := check_array X in
  let mins := map nanmin X in
  let maxs := map nanmax X in
  let ranges := zip_with fsub maxs mins in
  let scales := map (fun r => fdiv (Fin 1) (handle_zeros_in_scale r)) ranges in
  Ok {| data_min_ := mins;
        data_max_ := maxs;
        scale_ := scales;
        min_ := zip_with (fun mn s => fsub (Fin 0) (fmul mn s)) mins scales |}.

(** [X *= scale_; X += min_] *)
Definition transform (s : MinMaxScaler) (X : list (list float64))
  : list (list float64) :=
  zip_with (fun col sm => map (fun x => fadd (fmul x sm.1) sm.2) col)
           X (zip (scale_ s) (min_ s)).

(** [fit] forgets any earlier fit, so one scaler object reused for several
    tables behaves as a fresh one each time. *)
Definition fit_transform (X : list (list float64)) : res (list (list float64)) :=
  let? s := fit X in Ok (transform s X).

(** *** The same arithmetic in double precision

    The operations above are exact.  The script computes on IEEE 754
    binary64 numbers, where every operation rounds its result; values then
    agree with the exact ones up to rounding, but a bound or an equality that
    holds exactly can fail by one unit in the last place.  Where a statement
    turns on that, the computation is repeated here on Rocq's primitive
    [float], whose operations are the machine's. *)

Module Double.

(** [np.finfo(np.float64).eps] *)
Definition eps : float := 0x1p-52%float.

Definition fmin (a b : float) : float := if (b <? a)%float then b else a.
Definition fmax (a b : float) : float := if (a <? b)%float then b else a.

(** The entries that are not [NaN]. *)
Definition present (l : list float) : list float :=
  List.filter (fun x => negb (PrimFloat.is_nan x)) l.

Definition nanmin (l : list float) : float :=
  match present l with
  | [] => nan
  | x :: r => fold_right fmin x r
  end.

Definition nanmax (l : list float) : float :=
  match present l with
  | [] => nan
  | x :: r => fold_right fmax x r
  end.

Definition handle_zeros_in_scale (scale : float) : float :=
  if (scale <? 10 * eps)%float then 1%float else scale.

(** [MinMaxScaler().fit_transform] on one feature:
    [data_range = data_max - data_min],
    [scale_ = (1 - 0) / _handle_zeros_in_scale(data_range)],
    [min_ = 0 - data_min * scale_], then [X *= scale_; X += min_]. *)
Definition minmax_column (l : list float) : list float :=
  let data_min := nanmin l in
  let data_max := nanmax l in
  let data_range := (data_max - data_min)%float in
  let scale_ := ((1 - 0) / handle_zeros_in_scale data_range)%float in
  let min_ := (0 - data_min * scale_)%float in
  map (fun x => (x * scale_ + min_)%float) l.

(** [(c / p - 1) * 100]: the entry of [pct_change() * 100] for a close [c]
    after a close [p]. *)
Definition percent_return (p c : float) : float :=
  ((c / p - 1) * 100)%float.

(** [r > t or r < -t]: the test of [analyze_unusual_returns]. *)
Definition unusual (t r : float) : bool :=
  (t <? r)%float || (r <? - t)%float.

End Double.

(** *** Sorting and re-indexing *)

Fixpoint insert_key (k : Z) (i : nat) (l : list (Z * nat)) : list (Z * nat) :=
  match l with
  | [] => [(k, i)]
  | (k', i') :: r =>
      if (k <=? k')%Z then (k, i) :: l else (k', i') :: insert_key k i r
  end.

(** The row order that sorts [keys] ascending, ties in their first order. *)
Definition argsort (keys : list Z) : list nat :=
  map snd (fold_right (fun ki acc => insert_key ki.1 ki.2 acc) []
                      (zip keys (seq 0 (length keys)))).

Definition reorder {A} (order : list nat) (l : list A) : list A :=
  omap (fun i => l !! i) order.

Definition col_reorder (order : list nat) (c : column) : column :=
  match c with
  | DateCol l => DateCol (reorder order l)
  | NumCol l => NumCol (reorder order l)
  | StatCol l => StatCol (reorder order l)
  end.

(** [df.sort_values(c)]: a new table; the rows take their labels with them.
    Only date keys are modelled. *)
Definition sort_values (df : DataFrame) (c : string) : res DataFrame :=
  let? col := df_getitem df c in
  match col with
  | DateCol keys =>
      let order := argsort keys in
      Ok {| index := reorder order (index df);
            columns := map (fun kc => (kc.1, col_reorder order kc.2)) (columns df) |}
  | _ => Raise (TypeError "sort key is not a date column")
  end.

(** [df.set_index(c)]: the column becomes the row labels and leaves the
    columns.  Only date labels are modelled. *)
Definition set_index (df : DataFrame) (c : string) : res DataFrame :=
  let? col := df_getitem df c in
  match col with
  | DateCol l => Ok {| index := map Day l; columns := assoc_del c (columns df) |}
  | _ => Raise (TypeError "index labels are not dates")
  end.

(** *** [statsmodels.tsa.seasonal.seasonal_decompose]

    The routine is external: its result is kept as the series it was given
    and the period; the three components are named, not computed.  It
    refuses missing values, then a series shorter than two periods; a period
    of zero ends in a division by zero ([nobs // period]) and a negative
    one in a [ValueError] of numpy, whose text depends on the parity of the
    period and is not reproduced. *)

Record DecomposeResult : Type := mkDecompose {
  observed_index : list label;
  observed : list Q;
  period_ : Z
}.

Inductive component : Type := Trend | Seasonal | Resid.

Definition seasonal_decompose (idx : list label) (x : column) (period : Z)
  : res DecomposeResult :=
  let? l := floats x in
  match all_finite l with
  | None => Raise (ValueError "This function does not handle missing values")
  | Some qs =>
      if (Z.of_nat (length qs) <? 2 * period)%Z
      then Raise (ValueError "x must have 2 complete cycles")
      else if (period =? 0)%Z
      then Raise (ZeroDivisionError "integer division or modulo by zero")
      else if (period <? 0)%Z
      then Raise (ValueError "negative period")
      else Ok {| observed_index := idx; observed := qs; period_ := period |}
  end.

(** ** The store, the output trace and the monad of the script *)

Inductive event : Type :=
  | Print (s : string)
  | PrintDescribe (df : DataFrame)
  | PrintDtypes (l : list (string * string))
  | PrintCounts (l : list (string * nat))
  | PrintFrame (df : DataFrame)
  | PltFigure
  | PltPlot (x y : column) (lbl : string)
  | PltComponent (c : component) (d : DecomposeResult) (lbl : string)
  | PltTitle (s : string)
  | PltXlabel (s : string)
  | PltYlabel (s : string)
  | PltLegend
  | PltGrid
  | PltShow.

Abbreviation addr := nat (only parsing).

(** A Python [dict] keeps its keys in insertion order. *)
Abbreviation dict := (list (string * addr)) (only parsing).

Record store : Type := mkStore {
  frames : list DataFrame;
  dicts : list dict;
  out : list event
}.

Definition M (A : Type) : Type := store -> res A * store.

Definition ret {A} (a : A) : M A := fun st => (Ok a, st).

Definition bind {A B} (m : M A) (k : A -> M B) : M B :=
  fun st =>
    match m st with
    | (Ok a, st') => k a st'
    | (Raise e, st') => (Raise e, st')
    end.

Declare Scope m_scope.
Delimit Scope m_scope with M.
Notation "'let*' x := m 'in' k" := (bind m (fun x => k))
  (at level 10, x name, m at level 100, k at level 200,
   format "'[v' 'let*'  x  :=  m  'in' '/' k ']'") : m_scope.
Notation "m >> k" := (bind m (fun _ => k))
  (at level 90, right associativity) : m_scope.
Local Open Scope m_scope.

(** A pure library call that may raise. *)
Definition lift {A} (r : res A) : M A := fun st => (r, st).

Definition emit (e : event) : M unit :=
  fun st => (Ok tt, {| frames := frames st; dicts := dicts st;
                       out := out st ++ [e] |}).

(** An address that holds no object cannot arise in Python; the model
    reports it as a [KeyError]. *)
Definition get_frame (a : addr) : M DataFrame :=
  fun st =>
    match frames st !! a with
    | Some df => (Ok df, st)
    | None => (Raise (KeyError "no such object"), st)
    end.

Definition put_frame (a : addr) (df : DataFrame) : M unit :=
  fun st => (Ok tt, {| frames := <[a := df]> (frames st); dicts := dicts st;
                       out := out st |}).

Definition new_frame (df : DataFrame) : M addr :=
  fun st => (Ok (length (frames st)),
             {| frames := frames st ++ [df]; dicts := dicts st; out := out st |}).

Definition new_dict : M addr :=
  fun st => (Ok (length (dicts st)),
             {| frames := frames st; dicts := dicts st ++ [[]]; out := out st |}).

Definition get_dict (d : addr) : M dict :=
  fun st =>
    match dicts st !! d with
    | Some items => (Ok items, st)
    | None => (Raise (KeyError "no such object"), st)
    end.

(** [d[k]] *)
Definition dict_get (d : addr) (k : string) : M addr :=
  let* items := get_dict d in
  match assoc k items with
  | Some a => ret a
  | None => lift (Raise (KeyError k))
  end.

(** [d[k] = a] *)
Definition dict_set (d : addr) (k : string) (a : addr) : M unit :=
  let* items := get_dict d in
  fun st => (Ok tt, {| frames := frames st;
                       dicts := <[d := assoc_set k a items]> (dicts st);
                       out := out st |}).

(** [data[c]] and [data[c] = col] on the table at an address. *)
Definition getitem (data : addr) (c : string) : M column :=
  let* df := get_frame data in lift (df_getitem df c).

Definition setitem (data : addr) (c : string) (col : column) : M unit :=
  let* df := get_frame data in
  let* df' := lift (df_setitem df c col) in
  put_frame data df'.

Fixpoint for_each {A} (l : list A) (body : A -> M unit) : M unit :=
  match l with
  | [] => ret tt
  | x :: r => body x >> for_each r body
  end.

(** [for ticker, data in d.items(): body].  No body below adds or removes
    a key, and each one rebinds at most the key it is visiting, so the items
    are those at loop entry. *)
Definition for_items (d : addr) (body : string -> addr -> M unit) : M unit :=
  let* items := get_dict d in
  for_each items (fun kv => body kv.1 kv.2).

(** ** The stages of the script *)

(** The combined table of the download: a date index and, for each field
    and each ticker, one series over that index. *)
Record Historical : Type := mkHistorical {
  h_dates : list Z;
  h_fields : list (string * list (string * list float64))
}.

(** [historical_data[field][ticker]] *)
Definition hist_get (h : Historical) (field ticker : string)
  : res (list float64) :=
  match assoc field (h_fields h) with
  | None => Raise (KeyError field)
  | Some per_ticker =>
      match assoc ticker per_ticker with
      | None => Raise (KeyError ticker)
      | Some s => Ok s
      end
  end.

(** [series.reset_index()]: the date index, named ["Date"], becomes the
    first column, the series keeps its name, rows are numbered from 0. *)
Definition reset_index (dates : list Z) (name : string) (s : list float64)
  : res DataFrame :=
  if decide (name = "Date")
  then Raise (ValueError "cannot insert Date, already exists")
  else Ok {| index := RangeIndex (length dates);
             columns := [("Date", DateCol dates); (name, NumCol s)] |}.

(** [df.columns = names] *)
Definition df_set_columns (df : DataFrame) (names : list string)
  : res DataFrame :=
  if decide (length names = length (columns df))
  then Ok {| index := index df;
             columns := zip_with (fun n kc => (n, kc.2)) names (columns df) |}
  else Raise (ValueError "Length mismatch").

Definition separate_data (historical_data : Historical) (tickers : list string)
  : M addr :=
  let* data_frames := new_dict in
  for_each tickers (fun ticker =>
    let* close := lift (hist_get historical_data "Close" ticker) in
    let* df := lift (reset_index (h_dates historical_data) ticker close) in
    let* data := new_frame df in
    (let* df := get_frame data in
     let* df' := lift (df_set_columns df ["Date"; "Close"]) in
     put_frame data df') >>
    (let* v := lift (hist_get historical_data "Open" ticker) in
     setitem data "Open" (NumCol v)) >>
    (let* v := lift (hist_get historical_data "High" ticker) in
     setitem data "High" (NumCol v)) >>
    (let* v := lift (hist_get historical_data "Low" ticker) in
     setitem data "Low" (NumCol v)) >>
    (let* v := lift (hist_get historical_data "Volume" ticker) in
     setitem data "Volume" (NumCol v)) >>
    dict_set data_frames ticker data) >>
  ret data_frames.

Definition check_basic_statistics (data_frames : addr) : M unit :=
  for_items data_frames (fun ticker data =>
    emit (Print ("Basic Statistics for " ++ ticker ++ ":")) >>
    let* df := get_frame data in
    emit (PrintDescribe df)).

Definition ensure_data_types (data_frames : addr) : M unit :=
  for_items data_frames (fun ticker data =>
    emit (Print ("Data Types for " ++ ticker ++ ":")) >>
    let* df := get_frame data in
    emit (PrintDtypes (map (fun kc => (kc.1, dtype kc.2)) (columns df)))).

Definition check_missing_values (data_frames : addr) : M unit :=
  for_items data_frames (fun ticker data =>
    emit (Print ("Missing Values for " ++ ticker ++ ":")) >>
    let* df := get_frame data in
    emit (PrintCounts (isnull_sum df))).

Definition handle_missing_values (data_frames : addr) (method : string)
  : M addr :=
  for_items data_frames (fun ticker data =>
    if decide (method = "drop") then
      let* df := get_frame data in
      let* cleaned := new_frame (dropna df) in
      dict_set data_frames ticker cleaned
    else
      let* df := get_frame data in
      let* df' := lift (fillna df method) in
      let* filled := new_frame df' in
      dict_set data_frames ticker filled) >>
  ret data_frames.

Definition feature_columns : list string :=
  ["Close"; "Open"; "High"; "Low"; "Volume"].

Definition normalize_data (data_frames : addr) : M addr :=
  for_items data_frames (fun ticker data =>
    let* df := get_frame data in
    let* sub := lift (df_select df feature_columns) in
    let* X := lift (rmap (fun kc => floats kc.2) (columns sub)) in
    let* Y := lift (fit_transform X) in
    let* target := dict_get data_frames ticker in
    for_each (zip feature_columns Y)
             (fun cy => setitem target cy.1 (NumCol cy.2))) >>
  ret data_frames.

(** [data[c] = f(data['Close'])] for a float-valued [f] that may raise. *)
Definition derive (data : addr) (c : string)
    (f : list float64 -> res column) : M unit :=
  let* close := getitem data "Close" in
  let* l := lift (floats close) in
  let* col := lift (f l) in
  setitem data c col.

(** [plt.plot(data[x], data[y], label=lbl)] *)
Definition plot (data : addr) (x y lbl : string) : M unit :=
  let* xs := getitem data x in
  let* ys := getitem data y in
  emit (PltPlot xs ys lbl).

Definition calculate_daily_returns (data_frames : addr) : M unit :=
  for_items data_frames (fun ticker data =>
    derive data "Daily Return"
           (fun l => Ok (NumCol (scale_by 100 (pct_change l)))) >>
    emit PltFigure >>
    plot data "Date" "Daily Return" "Daily Return" >>
    emit (PltTitle (ticker ++ " Daily Percentage Change (Returns)")) >>
    emit (PltXlabel "Date") >>
    emit (PltYlabel "Daily Return (%)") >>
    emit PltLegend >>
    emit PltGrid >>
    emit PltShow).

Definition analyze_volatility (data_frames : addr) (window : Z) : M unit :=
  for_items data_frames (fun ticker data =>
    derive data "Rolling Mean"
           (fun l => let? m := rolling_mean window l in Ok (NumCol m)) >>
    derive data "Rolling Std"
           (fun l => let? s := rolling_std window l in Ok (StatCol s)) >>
    emit PltFigure >>
    plot data "Date" "Close" "Close Price" >>
    plot data "Date" "Rolling Mean" (pretty window ++ "-Day Rolling Mean") >>
    plot data "Date" "Rolling Std" (pretty window ++ "-Day Rolling Std") >>
    emit (PltTitle (ticker ++ " Volatility Analysis (Rolling Mean & Std)")) >>
    emit (PltXlabel "Date") >>
    emit (PltYlabel "Price") >>
    emit PltLegend >>
    emit PltGrid >>
    emit PltShow).

(** [window=30] *)
Definition analyze_volatility_default (data_frames : addr) : M unit :=
  analyze_volatility data_frames 30.

(** A loop that also carries local variables. *)
Fixpoint fold_each {A S} (l : list A) (acc : S) (body : A -> S -> M S) : M S :=
  match l with
  | [] => ret acc
  | x :: r => let* acc' := body x acc in fold_each r acc' body
  end.

(** The three local dictionaries of the decomposition. *)
Record components : Type := mkComponents {
  trends : list (string * DecomposeResult);
  seasonals : list (string * DecomposeResult);
  residuals : list (string * DecomposeResult)
}.

Definition plot_components (c : component) (name : string)
    (results : list (string * DecomposeResult)) : M unit :=
  emit PltFigure >>
  for_each results (fun kv =>
    emit (PltComponent c kv.2 (kv.1 ++ " " ++ name))) >>
  emit (PltTitle (name ++ " Components for TSLA, BND, and SPY")) >>
  emit (PltXlabel "Date") >>
  emit (PltYlabel name) >>
  emit PltLegend >>
  emit PltShow.

Definition decompose_time_series_all_in_one (data_frames : addr) (period : Z)
  : M unit :=
  let* items := get_dict data_frames in
  let* comps :=
    fold_each items {| trends := []; seasonals := []; residuals := [] |}
      (fun kv comps =>
         let ticker := kv.1 in
         (* data = data.sort_values('Date'): the name now denotes a new table *)
         let* df := get_frame kv.2 in
         let* sorted := lift (sort_values df "Date") in
         let* data := new_frame sorted in
         (* data.set_index('Date', inplace=True) *)
         (let* df := get_frame data in
          let* df' := lift (set_index df "Date") in
          put_frame data df') >>
         let* df := get_frame data in
         let* close := lift (df_getitem df "Close") in
         let* decomposition := lift (seasonal_decompose (index df) close period) in
         ret {| trends := assoc_set ticker decomposition (trends comps);
                seasonals := assoc_set ticker decomposition (seasonals comps);
                residuals := assoc_set ticker decomposition (residuals comps) |}) in
  plot_components Trend "Trend" (trends comps) >>
  plot_components Seasonal "Seasonal" (seasonals comps) >>
  plot_components Resid "Residual" (residuals comps).

(** [period=252] *)
Definition decompose_time_series_all_in_one_default (data_frames : addr)
  : M unit :=
  decompose_time_series_all_in_one data_frames 252.

Definition visualize_All_in_one (data_frames : addr) : M unit :=
  emit PltFigure >>
  for_items data_frames (fun ticker data =>
    plot data "Date" "Close" ticker) >>
  emit (PltTitle "Closing Price Over Time") >>
  emit (PltXlabel "Date") >>
  emit (PltYlabel "Closing Price") >>
  emit PltLegend >>
  emit PltShow >>
  emit PltFigure >>
  for_items data_frames (fun ticker data =>
    derive data "Daily Return" (fun l => Ok (NumCol (pct_change l))) >>
    plot data "Date" "Daily Return" ticker) >>
  emit (PltTitle "Daily Percentage Change") >>
  emit (PltXlabel "Date") >>
  emit (PltYlabel "Daily Return") >>
  emit PltLegend >>
  emit PltShow >>
  emit PltFigure >>
  for_items data_frames (fun ticker data =>
    derive data "Rolling Mean"
           (fun l => let? m := rolling_mean 20 l in Ok (NumCol m)) >>
    plot data "Date" "Rolling Mean" (ticker ++ " Rolling Mean")) >>
  emit (PltTitle "Volatility Analysis (Rolling Mean)") >>
  emit (PltXlabel "Date") >>
  emit (PltYlabel "Rolling Mean") >>
  emit PltLegend >>
  emit PltShow >>
  emit PltFigure >>
  for_items data_frames (fun ticker data =>
    derive data "Rolling Std"
           (fun l => let? s := rolling_std 20 l in Ok (StatCol s)) >>
    plot data "Date" "Rolling Std" (ticker ++ " Rolling Std")) >>
  emit (PltTitle "Volatility Analysis (Rolling Standard Deviation)") >>
  emit (PltXlabel "Date") >>
  emit (PltYlabel "Rolling Std") >>
  emit PltLegend >>
  emit PltShow.

Definition detect_outliers (data_frames : addr) (threshold : Q) : M unit :=
  for_items data_frames (fun ticker data =>
    derive data "Z-Score" (fun l => Ok (StatCol (zscore l))) >>
    let* z := getitem data "Z-Score" in
    let* absz := lift (series_abs z) in
    let* mask := lift (series_gt absz threshold) in
    let* df := get_frame data in
    let outliers := df_mask df mask in
    emit (Print ("Outliers for " ++ ticker ++ ":")) >>
    let* shown := lift (df_select outliers ["Date"; "Close"; "Z-Score"]) in
    emit (PrintFrame shown)).


Definition analyze_unusual_returns (data_frames : addr) (threshold : Q)
  : M unit :=
  for_items data_frames (fun ticker data =>
    (let* df := get_frame data in
     if decide (assoc "Daily Return" (columns df) = None)
     then derive data "Daily Return"
                 (fun l => Ok (NumCol (scale_by 100 (pct_change l))))
     else ret tt) >>
    let* r := getitem data "Daily Return" in
    let* above := lift (series_gt r threshold) in
    let* r := getitem data "Daily Return" in
    let* below := lift (series_lt r (- threshold)) in
    let* df := get_frame data in
    let unusual_returns := df_mask df (zip_with orb above below) in
    emit (Print ("Unusual Returns for " ++ ticker ++ ":")) >>
    let* shown := lift (df_select unusual_returns ["Date"; "Close"; "Daily Return"]) in
    emit (PrintFrame shown)).

(** [threshold=2] *)
Definition analyze_unusual_returns_default (data_frames : addr) : M unit :=
  analyze_unusual_returns data_frames 2.

(** [method='ffill'] *)
Definition handle_missing_values_default (data_frames : addr) : M addr :=
  handle_missing_values data_frames "ffill".

(** [df.head()]: the first five rows. *)
Definition col_take (n : nat) (c : column) : column :=
  match c with
  | DateCol l => DateCol (take n l)
  | NumCol l => NumCol (take n l)
  | StatCol l => StatCol (take n l)
  end.

Definition head (df : DataFrame) : DataFrame :=
  {| index := take 5 (index df);
     columns := map (fun kc => (kc.1, col_take 5 kc.2)) (columns df) |}.

Definition display_cleaned_data (data_frames : addr) : M unit :=
  for_items data_frames (fun ticker data =>
    emit (Print ("Cleaned and Scaled Data for " ++ ticker ++ ":")) >>
    let* df := get_frame data in
    emit (PrintFrame (head df))).

Definition plot_closing_prices (data_frames : addr) : M unit :=
  for_items data_frames (fun ticker data =>
    emit PltFigure >>
    plot data "Date" "Close" "Close Price" >>
    emit (PltTitle (ticker ++ " Closing Price Over Time")) >>
    emit (PltXlabel "Date") >>
    emit (PltYlabel "Close Price") >>
    emit PltLegend >>
    emit PltGrid >>
    emit PltShow).

(** ** Vocabulary of the statements *)

(** The store after the table at [a] became [df] and [ev] was printed. *)
Definition touch (st : store) (a : addr) (df : DataFrame) (ev : list event)
  : store :=
  {| frames := <[a := df]> (frames st); dicts := dicts st;
     out := out st ++ ev |}.

(** A loop body that rewrites the table it visits, and nothing else: on a
    table [df] on which [f] is defined it leaves [f k df] and its events. *)
Definition acts_inplace (items : dict) (D : list dict)
    (f : string -> DataFrame -> option (DataFrame * list event))
    (body : string -> addr -> M unit) : Prop :=
  forall k a st df df' ev,
    (k, a) ∈ items -> dicts st = D ->
    frames st !! a = Some df -> f k df = Some (df', ev) ->
    body k a st = (Ok tt, touch st a df' ev).

(** What a loop of such bodies prints, given the tables at loop entry. *)
Definition trace (f : string -> DataFrame -> option (DataFrame * list event))
    (fs : list DataFrame) (items : dict) : list event :=
  flat_map (fun kv => match fs !! kv.2 with
                      | Some df => match f kv.1 df with
                                   | Some r => r.2
                                   | None => []
                                   end
                      | None => []
                      end) items.

(** Every column is as long as the index. *)
Definition wf_frame (df : DataFrame) : Prop :=
  Forall (fun kc => col_length kc.2 = nrows df) (columns df).

(** Column [c] of [df] is the float series [l]. *)
Definition has_floats (df : DataFrame) (c : string) (l : list float64) : Prop :=
  assoc c (columns df) = Some (NumCol l) /\ length l = nrows df.

(** A computation keeps [R] when [R] relates the store before to the store
    after, whether it returns or raises. *)
Definition keeps (R : store -> store -> Prop) {A} (m : M A) : Prop :=
  forall st, R st (m st).2.

(** Tables and dictionaries are what they were. *)
Definition unchanged (st st' : store) : Prop :=
  frames st' = frames st /\ dicts st' = dicts st.

(** Dictionaries are what they were, and so is every table that existed;
    new tables may have been created. *)
Definition grows (st st' : store) : Prop :=
  dicts st' = dicts st /\ frames st `prefix_of` frames st'.

(** [m] runs on any store with dictionaries [D] and table [df] at [a]: it
    returns [x], leaves [df'] at [a], prints [ev], and touches nothing else. *)
Definition step {A} (D : list dict) (a : addr) (m : M A)
    (df : DataFrame) (x : A) (df' : DataFrame) (ev : list event) : Prop :=
  forall st, dicts st = D -> frames st !! a = Some df ->
             m st = (Ok x, touch st a df' ev).

(** [df] with column [c] set to [col]. *)
Definition with_column (df : DataFrame) (c : string) (col : column) : DataFrame :=
  {| index := index df; columns := assoc_set c col (columns df) |}.

(** What one round of [calculate_daily_returns] does to a table. *)
Definition daily_returns_effect (k : string) (df : DataFrame)
  : option (DataFrame * list event) :=
  match assoc "Close" (columns df), assoc "Date" (columns df) with
  | Some (NumCol l), Some dates =>
      if decide (length l = nrows df) then
        let r := NumCol (scale_by 100 (pct_change l)) in
        Some (with_column df "Daily Return" r,
              [PltFigure; PltPlot dates r "Daily Return";
               PltTitle (k ++ " Daily Percentage Change (Returns)");
               PltXlabel "Date"; PltYlabel "Daily Return (%)";
               PltLegend; PltGrid; PltShow])
      else None
  | _, _ => None
  end.





(** What one round of [analyze_volatility] does to a table. *)
Definition volatility_effect (window : Z) (k : string) (df : DataFrame)
  : option (DataFrame * list event) :=
  match assoc "Close" (columns df), assoc "Date" (columns df) with
  | Some (NumCol l), Some dates =>
      if decide (length l = nrows df) then
        match rolling_mean window l, rolling_std window l with
        | Ok m, Ok s =>
            Some (with_column (with_column df "Rolling Mean" (NumCol m))
                              "Rolling Std" (StatCol s),
                  [PltFigure;
                   PltPlot dates (NumCol l) "Close Price";
                   PltPlot dates (NumCol m) (pretty window ++ "-Day Rolling Mean");
                   PltPlot dates (StatCol s) (pretty window ++ "-Day Rolling Std");
                   PltTitle (k ++ " Volatility Analysis (Rolling Mean & Std)");
                   PltXlabel "Date"; PltYlabel "Price";
                   PltLegend; PltGrid; PltShow])
        | _, _ => None
        end
      else None
  | _, _ => None
  end.

(** The [w] prices that end at row [i]. *)
Definition trailing (w : nat) (l : list float64) (i : nat) : list float64 :=
  take w (drop (i + 1 - w) l).

(** The rows that [detect_outliers] reports, given the scores. *)
Definition outlier_rows (threshold : Q) (z : list sfloat) : list bool :=
  map (fun s => sgt s threshold) (map sabs z).

(** What one round of [detect_outliers] does to a table. *)
Definition outliers_effect (threshold : Q) (k : string) (df : DataFrame)
  : option (DataFrame * list event) :=
  match assoc "Close" (columns df) with
  | Some (NumCol l) =>
      if decide (length l = nrows df) then
        let z := zscore l in
        let df' := with_column df "Z-Score" (StatCol z) in
        match df_select (df_mask df' (outlier_rows threshold z))
                        ["Date"; "Close"; "Z-Score"] with
        | Ok shown => Some (df', [Print ("Outliers for " ++ k ++ ":");
                                  PrintFrame shown])
        | Raise _ => None
        end
      else None
  | _ => None
  end.


(** The least and the greatest present value of a series. *)
Definition col_min (l : list float64) : Q :=
  match finites l with
  | [] => 0%Q
  | x :: r => Qlist_min x r
  end.

Definition col_max (l : list float64) : Q :=
  match finites l with
  | [] => 0%Q
  | x :: r => Qlist_max x r
  end.

(** What [fit_transform] does to one feature. *)
Definition minmax_column (l : list float64) : list float64 :=
  let s := fdiv (Fin 1) (handle_zeros_in_scale (fsub (nanmax l) (nanmin l))) in
  let m := fsub (Fin 0) (fmul (nanmin l) s) in
  map (fun x => fadd (fmul x s) m) l.

(** Present or missing, not infinite. *)
Definition not_inf (x : float64) : Prop := x <> PInf /\ x <> NInf.

(** The float series of column [c], when it is one of the right length. *)
Definition feature (df : DataFrame) (c : string) : option (list float64) :=
  match assoc c (columns df) with
  | Some (NumCol l) => if decide (length l = nrows df) then Some l else None
  | _ => None
  end.

(** What one round of [normalize_data] does to a table. *)
Definition normalize_effect (k : string) (df : DataFrame)
  : option (DataFrame * list event) :=
  c ← feature df "Close";
  o ← feature df "Open";
  h ← feature df "High";
  l ← feature df "Low";
  v ← feature df "Volume";
  match check_array [c; o; h; l; v] with
  | Ok _ =>
      Some (with_column (with_column (with_column (with_column (with_column df
              "Close" (NumCol (minmax_column c)))
              "Open" (NumCol (minmax_column o)))
              "High" (NumCol (minmax_column h)))
              "Low" (NumCol (minmax_column l)))
              "Volume" (NumCol (minmax_column v)), [])
  | Raise _ => None
  end.

(** A table that [normalize_data] accepts: at least one row, and the five
    features are float series without infinities. *)
Definition normalizable (df : DataFrame) : Prop :=
  1 <= nrows df
  /\ forall c, c ∈ feature_columns ->
       exists l, has_floats df c l /\ Forall not_inf l.

(** The table that [separate_data] builds for ticker [t]. *)
Definition table_of (h : Historical) (t : string) : option DataFrame :=
  match hist_get h "Close" t, hist_get h "Open" t, hist_get h "High" t,
        hist_get h "Low" t, hist_get h "Volume" t with
  | Ok c, Ok o, Ok hi, Ok lo, Ok v =>
      let n := length (h_dates h) in
      if decide (t <> "Date" /\ length o = n /\ length hi = n
                 /\ length lo = n /\ length v = n)
      then Some {| index := RangeIndex n;
                   columns := [("Date", DateCol (h_dates h));
                               ("Close", NumCol c); ("Open", NumCol o);
                               ("High", NumCol hi); ("Low", NumCol lo);
                               ("Volume", NumCol v)] |}
      else None
  | _, _, _, _, _ => None
  end.

(** The download has the five fields of ticker [t], each with one value per
    date. *)
Definition aligned (h : Historical) (t : string) : Prop :=
  t <> "Date"
  /\ forall f, f ∈ feature_columns ->
       exists s, hist_get h f t = Ok s /\ length s = length (h_dates h).

(** A loop body that creates the table [T t] and binds [t] to it in the
    dictionary at [d]. *)
Definition creates (d : addr) (T : string -> option DataFrame)
    (body : string -> M unit) : Prop :=
  forall t st df (cur : dict),
    T t = Some df -> dicts st !! d = Some cur ->
    body t st
    = (Ok tt, {| frames := frames st ++ [df];
                 dicts := <[d := assoc_set t (length (frames st)) cur]> (dicts st);
                 out := out st |}).

(** A one-ticker download for the examples. *)
Definition example_download : Historical :=
  {| h_dates := [0; 1; 2]%Z;
     h_fields := [("Close", [("TSLA", [Fin 10; Fin 20; Fin 30])]);
                  ("Open", [("TSLA", [Fin 9; Fin 19; Fin 29])]);
                  ("High", [("TSLA", [Fin 11; Fin 21; Fin 31])]);
                  ("Low", [("TSLA", [Fin 8; Fin 18; Fin 28])]);
                  ("Volume", [("TSLA", [Fin 5; NaN; Fin 7])])] |}.

(** A loop body that binds the key it visits to a new table [g df] made
    from the current one [df], which it leaves alone. *)
Definition rebinds (d : addr) (g : DataFrame -> DataFrame)
    (body : string -> addr -> M unit) : Prop :=
  forall k a st df (cur : dict),
    frames st !! a = Some df -> dicts st !! d = Some cur ->
    body k a st
    = (Ok tt, {| frames := frames st ++ [g df];
                 dicts := <[d := assoc_set k (length (frames st)) cur]> (dicts st);
                 out := out st |}).

(** Column [c] without its row [j]. *)
Definition col_delete (j : nat) (c : column) : column :=
  match c with
  | DateCol l => DateCol (delete j l)
  | NumCol l => NumCol (delete j l)
  | StatCol l => StatCol (delete j l)
  end.

(** Row [j] is the only row of [df] with a missing value. *)
Definition only_missing_row (df : DataFrame) (j : nat) : Prop :=
  j < nrows df /\ forall i, i < nrows df -> (row_has_na df i = true <-> i = j).

(** *** A small store for the examples: one ticker, one table *)

Definition example_frame (close : list float64) : DataFrame :=
  {| index := RangeIndex (length close);
     columns := [("Date", DateCol (map Z.of_nat (seq 0 (length close))));
                 ("Close", NumCol close);
                 ("Open", NumCol close);
                 ("High", NumCol close);
                 ("Low", NumCol close);
                 ("Volume", NumCol (map (fun _ => Fin 5) close))] |}.

Definition example_store (close : list float64) : store :=
  {| frames := [example_frame close]; dicts := [[("TSLA", 0)]]; out := [] |}.

(** Every table that existed is still what it was; tables may have been
    created and dictionaries may have changed. *)
Definition extends (st st' : store) : Prop :=
  frames st `prefix_of` frames st'.

(** The last present value of a series, [NaN] if there is none. *)
Definition last_valid (l : list float64) : float64 :=
  fold_left (fun acc x => if isnan x then acc else x) l NaN.

(** The first present value of a series, [NaN] if there is none. *)
Definition next_valid (l : list float64) : float64 :=
  fold_right (fun x acc => if isnan x then acc else x) NaN l.

(** What one round of a loop that only plots ['Close'] does to a table. *)
Definition plot_close_effect (k : string) (df : DataFrame)
  : option (DataFrame * list event) :=
  match assoc "Date" (columns df), assoc "Close" (columns df) with
  | Some dates, Some close => Some (df, [PltPlot dates close k])
  | _, _ => None
  end.

(** What one round of a loop that sets column [c] to [f] of ['Close'] and
    plots it under the label [lbl k] does to a table. *)
Definition derive_plot_effect (c : string) (f : list float64 -> res column)
    (lbl : string -> string) (k : string) (df : DataFrame)
  : option (DataFrame * list event) :=
  match assoc "Close" (columns df), assoc "Date" (columns df) with
  | Some (NumCol l), Some dates =>
      if decide (length l = nrows df) then
        match f l with
        | Ok col =>
            if decide (col_length col = nrows df)
            then Some (with_column df c col, [PltPlot dates col (lbl k)])
            else None
        | Raise _ => None
        end
      else None
  | _, _ => None
  end.

(** Dates in ascending order, equal dates allowed. *)
Fixpoint ascending (l : list Z) : Prop :=
  match l with
  | [] => True
  | x :: r => Forall (Z.le x) r /\ ascending r
  end.


(** ** Basic facts *)

Lemma assoc_set_eq {A} k (v : A) l : assoc k (assoc_set k v l) = Some v.
Proof.
  induction l as [|[k' v'] l IH]; simpl.
  - by rewrite decide_True.
  - destruct (decide (k = k')) as [->|Hne]; simpl.
    + by rewrite decide_True.
    + by rewrite decide_False.
Qed.

Lemma assoc_set_ne {A} k k' (v : A) l :
  k <> k' -> assoc k' (assoc_set k v l) = assoc k' l.
Proof.
  intros Hne. induction l as [|[k0 v0] l IH]; simpl.
  - by rewrite decide_False.
  - destruct (decide (k = k0)) as [->|Hne0]; simpl.
    + by rewrite !decide_False.
    + destruct (decide (k' = k0)); done.
Qed.

Lemma assoc_set_keys_known {A} k (v : A) l :
  k ∈ l.*1 -> (assoc_set k v l).*1 = l.*1.
Proof.
  induction l as [|[k0 v0] l IH]; simpl.
  - by intros ?%elem_of_nil.
  - intros Hin. destruct (decide (k = k0)) as [->|Hne]; simpl; [done|].
    f_equal. apply IH. apply elem_of_cons in Hin as [?|?]; done.
Qed.

Lemma assoc_set_keys_new {A} k (v : A) l :
  k ∉ l.*1 -> assoc_set k v l = l ++ [(k, v)].
Proof.
  induction l as [|[k0 v0] l IH]; simpl; [done|].
  intros Hin. apply not_elem_of_cons in Hin as [Hne Hin].
  rewrite decide_False by done. f_equal. by apply IH.
Qed.

Lemma assoc_None {A} k (l : list (string * A)) :
  assoc k l = None <-> k ∉ l.*1.
Proof.
  induction l as [|[k0 v0] l IH]; simpl.
  - split; [intros _; apply not_elem_of_nil | done].
  - rewrite not_elem_of_cons. destruct (decide (k = k0)) as [->|Hne].
    + split; [done | by intros [? _]].
    + rewrite IH. split; [by intros H; split | by intros [_ H]].
Qed.

Lemma assoc_elem_of {A} k (v : A) l :
  NoDup l.*1 -> (k, v) ∈ l -> assoc k l = Some v.
Proof.
  induction l as [|[k0 v0] l IH]; simpl.
  - by intros _ ?%elem_of_nil.
  - intros [Hk0 Hnd]%NoDup_cons [Heq|Hin]%elem_of_cons.
    + inversion Heq; subst. by rewrite decide_True.
    + destruct (decide (k = k0)) as [->|Hne]; [|by apply IH].
      exfalso. apply Hk0. by apply (list_elem_of_fmap_2 fst) in Hin.
Qed.

(** *** Running the monad *)

Lemma bind_ok {A B} (m : M A) (k : A -> M B) st a st' :
  m st = (Ok a, st') -> bind m k st = k a st'.
Proof. intros H. unfold bind. by rewrite H. Qed.

Lemma touch_touch st a df ev df' ev' :
  touch (touch st a df ev) a df' ev' = touch st a df' (ev ++ ev').
Proof.
  unfold touch; simpl. by rewrite list_insert_insert_eq, app_assoc.
Qed.

Lemma touch_id st a df :
  frames st !! a = Some df -> touch st a df [] = st.
Proof.
  intros H. destruct st as [fs ds o]. unfold touch; simpl in *.
  by rewrite list_insert_id, app_nil_r.
Qed.

Lemma touch_lookup st a df ev :
  a < length (frames st) -> frames (touch st a df ev) !! a = Some df.
Proof. intros H. simpl. by apply list_lookup_insert_eq. Qed.

(** *** Loops over a dictionary whose bodies act in place *)

Lemma elem_of_values (items : dict) k a : (k, a) ∈ items -> a ∈ items.*2.
Proof. intros H. by apply (list_elem_of_fmap_2 snd) in H. Qed.

Lemma elem_of_keys (items : dict) k a : (k, a) ∈ items -> k ∈ items.*1.
Proof. intros H. by apply (list_elem_of_fmap_2 fst) in H. Qed.

Lemma trace_insert_ne f fs items a df :
  a ∉ items.*2 -> trace f (<[a := df]> fs) items = trace f fs items.
Proof.
  induction items as [|[k1 a1] items IH]; simpl; [done|].
  intros [Hne Hnot]%not_elem_of_cons.
  rewrite list_lookup_insert_ne by done. f_equal. by apply IH.
Qed.

Lemma for_each_inplace items0 D f body :
  acts_inplace items0 D f body ->
  forall items st,
    items ⊆ items0 -> dicts st = D ->
    NoDup items.*2 ->
    (forall k a, (k, a) ∈ items ->
       exists df r, frames st !! a = Some df /\ f k df = Some r) ->
    exists st',
      for_each items (fun kv => body kv.1 kv.2) st = (Ok tt, st')
      /\ dicts st' = dicts st
      /\ length (frames st') = length (frames st)
      /\ (forall k a df, (k, a) ∈ items -> frames st !! a = Some df ->
            exists df' ev, f k df = Some (df', ev) /\ frames st' !! a = Some df')
      /\ (forall a, a ∉ items.*2 -> frames st' !! a = frames st !! a)
      /\ out st' = out st ++ trace f (frames st) items.
Proof.
  intros Hbody. induction items as [|[k a] items IH]; intros st Hsub HD Hnd Hdef.
  - exists st. simpl. rewrite app_nil_r. repeat split; try done.
    intros ??? ?%elem_of_nil. done.
  - simpl in Hnd. apply NoDup_cons in Hnd as [Ha Hnd].
    destruct (Hdef k a) as (df & [df' ev] & Hdf & Hf); [left|].
    assert (Hin0 : (k, a) ∈ items0) by (apply Hsub; left).
    destruct (IH (touch st a df' ev)) as (st' & Hfor & Hd & Hlen & Hfr & Hoth & Hout).
    + intros x Hx. apply Hsub. by right.
    + done.
    + done.
    + intros k1 a1 Hin. simpl.
      rewrite list_lookup_insert_ne.
      * apply Hdef. by right.
      * intros ->. apply Ha. by eapply elem_of_values.
    + exists st'. simpl. unfold bind.
      rewrite (Hbody k a st df df' ev) by done.
      rewrite Hfor. repeat split.
      * done.
      * rewrite Hlen. simpl. by rewrite length_insert.
      * intros k1 a1 df1 [Heq|Hin]%elem_of_cons Hdf1.
        -- inversion Heq; subst. rewrite Hdf in Hdf1. inversion Hdf1; subst.
           exists df', ev. split; [done|]. rewrite Hoth by done.
           apply touch_lookup. by eapply lookup_lt_Some.
        -- apply (Hfr k1 a1); [done|]. simpl. rewrite list_lookup_insert_ne; [done|].
           intros ->. apply Ha. by eapply elem_of_values.
      * intros a1 [Hne Hnot]%not_elem_of_cons.
        rewrite Hoth by done. simpl. by rewrite list_lookup_insert_ne.
      * rewrite Hout. simpl. rewrite Hdf, Hf. simpl. rewrite <- app_assoc.
        by rewrite trace_insert_ne.
Qed.

(** *** Computations that keep a relation between the stores

    [R] relates the store before and after; it is reflexive, transitive and
    blind to the output trace. *)

Section Keeps.
Variable R : store -> store -> Prop.
Hypothesis R_refl : forall st, R st st.
Hypothesis R_trans : forall st1 st2 st3, R st1 st2 -> R st2 st3 -> R st1 st3.
Hypothesis R_out : forall st o,
  R st {| frames := frames st; dicts := dicts st; out := o |}.

Local Abbreviation keeps := (keeps R).

Lemma keeps_ret {A} (a : A) : keeps (ret a).
Proof. intros st. apply R_refl. Qed.

Lemma keeps_lift {A} (r : res A) : keeps (lift r).
Proof. intros st. apply R_refl. Qed.

Lemma keeps_emit e : keeps (emit e).
Proof. intros st. apply R_out. Qed.

Lemma keeps_get_frame a : keeps (get_frame a).
Proof. intros st. unfold get_frame. destruct (frames st !! a); apply R_refl. Qed.

Lemma keeps_get_dict d : keeps (get_dict d).
Proof. intros st. unfold get_dict. destruct (dicts st !! d); apply R_refl. Qed.

Lemma keeps_bind {A B} (m : M A) (k : A -> M B) :
  keeps m -> (forall a, keeps (k a)) -> keeps (bind m k).
Proof.
  intros Hm Hk st. unfold bind. specialize (Hm st).
  destruct (m st) as [[a|e] st1]; simpl in *; [|done].
  eapply R_trans; [apply Hm | apply Hk].
Qed.

Lemma keeps_for_each {A} (l : list A) body :
  (forall x, keeps (body x)) -> keeps (for_each l body).
Proof.
  intros Hb. induction l as [|x l IH]; simpl.
  - apply keeps_ret.
  - apply keeps_bind; [apply Hb | intros _; apply IH].
Qed.

Lemma keeps_fold_each {A S} (l : list A) (acc : S) body :
  (forall x s, keeps (body x s)) -> keeps (fold_each l acc body).
Proof.
  intros Hb. revert acc. induction l as [|x l IH]; intros acc; simpl.
  - apply keeps_ret.
  - apply keeps_bind; [apply Hb | intros s; apply IH].
Qed.

Lemma keeps_for_items d body :
  (forall k a, keeps (body k a)) -> keeps (for_items d body).
Proof.
  intros Hb. apply keeps_bind; [apply keeps_get_dict|].
  intros items. apply keeps_for_each. intros [k a]. apply Hb.
Qed.
End Keeps.

Lemma unchanged_refl st : unchanged st st.
Proof. by split. Qed.

Lemma unchanged_trans st1 st2 st3 :
  unchanged st1 st2 -> unchanged st2 st3 -> unchanged st1 st3.
Proof. intros [H1 H2] [H3 H4]. split; congruence. Qed.

Lemma unchanged_out st o :
  unchanged st {| frames := frames st; dicts := dicts st; out := o |}.
Proof. by split. Qed.

Lemma grows_refl st : grows st st.
Proof. by split. Qed.

Lemma grows_trans st1 st2 st3 : grows st1 st2 -> grows st2 st3 -> grows st1 st3.
Proof.
  intros [H1 H2] [H3 H4]. split; [congruence|]. by etrans.
Qed.

Lemma grows_out st o :
  grows st {| frames := frames st; dicts := dicts st; out := o |}.
Proof. by split. Qed.

(** Writing to the table that was created last keeps the older ones. *)
Lemma insert_last_prefix (fs : list DataFrame) df df' :
  fs `prefix_of` <[length fs := df']> (fs ++ [df]).
Proof.
  rewrite insert_app_r_alt by done. rewrite Nat.sub_diag. simpl.
  by apply prefix_app_r.
Qed.

Lemma lookup_last (fs : list DataFrame) df : (fs ++ [df]) !! length fs = Some df.
Proof. by rewrite list_lookup_middle. Qed.

(** ** The inspection reports (C8) *)

Ltac keeps_tac :=
  repeat first
    [ exact unchanged_refl | exact unchanged_trans | exact unchanged_out
    | exact grows_refl | exact grows_trans | exact grows_out
    | match goal with |- forall _, _ => intro end
    | apply keeps_for_items | apply keeps_for_each
    | apply keeps_fold_each | apply keeps_emit | apply keeps_get_frame
    | apply keeps_get_dict | apply keeps_ret | apply keeps_lift
    | apply keeps_bind ].

Lemma check_basic_statistics_unchanged d : keeps unchanged (check_basic_statistics d).
Proof. unfold check_basic_statistics. keeps_tac. Qed.

Lemma ensure_data_types_unchanged d : keeps unchanged (ensure_data_types d).
Proof. unfold ensure_data_types. keeps_tac. Qed.

Lemma check_missing_values_unchanged d : keeps unchanged (check_missing_values d).
Proof. unfold check_missing_values. keeps_tac. Qed.

(** C8.  The three inspection operations -- the basic-statistics report, the
    data-type report and the missing-value-count report -- leave the mapping
    and every table in it as they were: whatever the store and the
    dictionary passed, the tables and the dictionaries of the store after
    the call are those before it (only the output trace grows). *)
Theorem inspection_leaves_tables_unchanged (data_frames : addr) (st : store) :
  let same st' := frames st' = frames st /\ dicts st' = dicts st in
  same (check_basic_statistics data_frames st).2
  /\ same (ensure_data_types data_frames st).2
  /\ same (check_missing_values data_frames st).2.
Proof.
  simpl. split; [|split].
  - apply check_basic_statistics_unchanged.
  - apply ensure_data_types_unchanged.
  - apply check_missing_values_unchanged.
Qed.

(** The reports do come out: on a store where the dictionary and its tables
    exist, each operation returns normally. *)
Lemma for_items_report_ok d st items (report : string -> DataFrame -> list event) body :
  dicts st !! d = Some items ->
  (forall k a, (k, a) ∈ items -> is_Some (frames st !! a)) ->
  (forall k a st df, frames st !! a = Some df ->
     body k a st = (Ok tt, touch st a df (report k df))) ->
  (for_items d body st).1 = Ok tt.
Proof.
  intros Hd Hfr Hbody. unfold for_items, bind, get_dict. rewrite Hd.
  clear Hd. revert st Hfr. induction items as [|[k a] items IH]; intros st Hfr; [done|].
  simpl. unfold bind. destruct (Hfr k a) as [df Hdf]; [left|].
  rewrite (Hbody _ _ _ _ Hdf). apply IH. intros k1 a1 Hin.
  destruct (Hfr k1 a1) as [df1 Hdf1]; [by right|].
  destruct (decide (a = a1)) as [->|Hne]; simpl.
  - rewrite list_lookup_insert_eq; [done|]. by eapply lookup_lt_Some.
  - by rewrite list_lookup_insert_ne.
Qed.

Lemma touch_same st a df ev :
  frames st !! a = Some df ->
  touch st a df ev = {| frames := frames st; dicts := dicts st; out := out st ++ ev |}.
Proof. intros H. unfold touch. by rewrite list_insert_id. Qed.

Lemma inspection_returns d st items :
  dicts st !! d = Some items ->
  (forall k a, (k, a) ∈ items -> is_Some (frames st !! a)) ->
  (check_basic_statistics d st).1 = Ok tt
  /\ (ensure_data_types d st).1 = Ok tt
  /\ (check_missing_values d st).1 = Ok tt.
Proof.
  intros Hd Hfr. split; [|split].
  - eapply (for_items_report_ok _ _ _
      (fun k df => [Print ("Basic Statistics for " ++ k ++ ":"); PrintDescribe df]));
      [done..|].
    intros k a st0 df Hdf. rewrite (touch_same _ _ _ _ Hdf).
    unfold bind, emit, get_frame; simpl. rewrite Hdf. simpl.
    by rewrite <- app_assoc.
  - eapply (for_items_report_ok _ _ _
      (fun k df => [Print ("Data Types for " ++ k ++ ":");
                    PrintDtypes (map (fun kc => (kc.1, dtype kc.2)) (columns df))]));
      [done..|].
    intros k a st0 df Hdf. rewrite (touch_same _ _ _ _ Hdf).
    unfold bind, emit, get_frame; simpl. rewrite Hdf. simpl.
    by rewrite <- app_assoc.
  - eapply (for_items_report_ok _ _ _
      (fun k df => [Print ("Missing Values for " ++ k ++ ":");
                    PrintCounts (isnull_sum df)]));
      [done..|].
    intros k a st0 df Hdf. rewrite (touch_same _ _ _ _ Hdf).
    unfold bind, emit, get_frame; simpl. rewrite Hdf. simpl.
    by rewrite <- app_assoc.
Qed.

(** ** Seasonal decomposition works on copies (C10) *)

Lemma plot_components_grows c name results :
  keeps grows (plot_components c name results).
Proof. unfold plot_components. keeps_tac. Qed.

(** One round of the decomposition loop: the sorted table is a new object,
    and [set_index(..., inplace=True)] writes to that new object. *)
Lemma decompose_round_grows period (kv : string * addr) (comps : components) :
  keeps grows
    (let ticker := kv.1 in
     let* df := get_frame kv.2 in
     let* sorted := lift (sort_values df "Date") in
     let* data := new_frame sorted in
     (let* df := get_frame data in
      let* df' := lift (set_index df "Date") in
      put_frame data df') >>
     let* df := get_frame data in
     let* close := lift (df_getitem df "Close") in
     let* decomposition := lift (seasonal_decompose (index df) close period) in
     ret {| trends := assoc_set ticker decomposition (trends comps);
            seasonals := assoc_set ticker decomposition (seasonals comps);
            residuals := assoc_set ticker decomposition (residuals comps) |}).
Proof.
  intros st. unfold bind, get_frame, lift, new_frame, put_frame, ret. simpl.
  destruct (frames st !! kv.2) as [df|]; simpl; [|apply grows_refl].
  destruct (sort_values df "Date") as [sorted|e]; simpl; [|apply grows_refl].
  rewrite lookup_last.
  destruct (set_index sorted "Date") as [df'|e]; simpl.
  - rewrite insert_app_r_alt by done. rewrite Nat.sub_diag. simpl.
    assert (Hg : grows st {| frames := frames st ++ [df'];
                             dicts := dicts st; out := out st |}).
    { split; [done|]. by apply prefix_app_r. }
    rewrite lookup_last. simpl.
    destruct (df_getitem df' "Close") as [close|e]; simpl; [|done].
    by destruct (seasonal_decompose (index df') close period).
  - split; [done|]. by apply prefix_app_r.
Qed.

Lemma decompose_grows d period :
  keeps grows (decompose_time_series_all_in_one d period).
Proof.
  unfold decompose_time_series_all_in_one.
  apply keeps_bind; [exact grows_trans | apply keeps_get_dict; exact grows_refl |].
  intros items.
  apply keeps_bind; [exact grows_trans | |].
  - apply keeps_fold_each; [exact grows_refl | exact grows_trans |].
    intros kv comps. apply decompose_round_grows.
  - intros comps.
    repeat (apply keeps_bind; [exact grows_trans | apply plot_components_grows | intros _]).
    apply plot_components_grows.
Qed.

(** C10.  [decompose_time_series_all_in_one] leaves every table of the input
    mapping as it was.  Sorting by Date yields a per-ticker copy and the Date
    index is set on that copy, so after the call -- whether it returned or
    raised -- the dictionaries are unchanged and every table that existed
    before is still the same table: same row order, same plain row index,
    same columns, ['Date'] included. *)
Theorem decompose_leaves_tables_unchanged
    (data_frames : addr) (period : Z) (st : store) :
  let st' := (decompose_time_series_all_in_one data_frames period st).2 in
  dicts st' = dicts st
  /\ forall a df, frames st !! a = Some df -> frames st' !! a = Some df.
Proof.
  simpl. destruct (decompose_grows data_frames period st) as [Hd Hp].
  split; [done|]. intros a df Hdf. by eapply prefix_lookup_Some.
Qed.

(** ** Missing values (C2, C3) *)

Lemma rebind_loop d g body :
  rebinds d g body ->
  forall (items : dict) st (cur : dict),
    dicts st !! d = Some cur ->
    NoDup items.*1 ->
    (forall k a, (k, a) ∈ items -> is_Some (frames st !! a)) ->
    exists st' (cur' : dict),
      for_each items (fun kv => body kv.1 kv.2) st = (Ok tt, st')
      /\ dicts st' !! d = Some cur'
      /\ frames st `prefix_of` frames st'
      /\ out st' = out st
      /\ (forall k a df, (k, a) ∈ items -> frames st !! a = Some df ->
            exists a', assoc k cur' = Some a' /\ length (frames st) <= a'
                       /\ frames st' !! a' = Some (g df))
      /\ (forall k, k ∉ items.*1 -> assoc k cur' = assoc k cur).
Proof.
  intros Hbody. induction items as [|[k a] items IH]; intros st cur Hd Hnd Hfr.
  - exists st, cur. simpl. repeat split; try done.
    intros ??? ?%elem_of_nil. done.
  - simpl in Hnd. apply NoDup_cons in Hnd as [Hk Hnd].
    destruct (Hfr k a) as [df Hdf]; [left|].
    pose proof (Hbody k a st df cur Hdf Hd) as Hrun.
    set (st1 := {| frames := frames st ++ [g df];
                   dicts := <[d := assoc_set k (length (frames st)) cur]> (dicts st);
                   out := out st |}) in *.
    destruct (IH st1 (assoc_set k (length (frames st)) cur))
      as (st' & cur' & Hfor & Hd' & Hpre & Hout & Hnew & Hold).
    + simpl. apply list_lookup_insert_eq. by eapply lookup_lt_Some.
    + done.
    + intros k1 a1 Hin. destruct (Hfr k1 a1) as [df1 Hdf1]; [by right|].
      exists df1. simpl. rewrite lookup_app_l; [done|]. by eapply lookup_lt_Some.
    + assert (Hpre0 : frames st `prefix_of` frames st').
      { etrans; [|exact Hpre]. by apply prefix_app_r. }
      exists st', cur'. simpl. unfold bind. simpl in Hrun. rewrite Hrun.
      repeat split; try done.
      * intros k1 a1 df1 [Heq|Hin]%elem_of_cons Hdf1.
        -- inversion Heq; subst. rewrite Hdf in Hdf1. inversion Hdf1; subst.
           exists (length (frames st)). rewrite Hold by done.
           rewrite assoc_set_eq. repeat split; [done|].
           eapply prefix_lookup_Some; [|exact Hpre]. simpl. apply lookup_last.
        -- destruct (Hnew k1 a1 df1 Hin) as (a' & Ha' & Hle & Hg).
           { simpl. rewrite lookup_app_l; [done|]. by eapply lookup_lt_Some. }
           exists a'. repeat split; try done. simpl in Hle.
           rewrite length_app in Hle. simpl in Hle. lia.
      * intros k1 [Hne Hnot]%not_elem_of_cons. rewrite Hold by done.
        by apply assoc_set_ne.
Qed.

Lemma handle_missing_values_drop_rebinds d :
  rebinds d dropna (fun ticker data =>
    if decide ("drop" = "drop") then
      let* df := get_frame data in
      let* cleaned := new_frame (dropna df) in
      dict_set d ticker cleaned
    else
      let* df := get_frame data in
      let* df' := lift (fillna df "drop") in
      let* filled := new_frame df' in
      dict_set d ticker filled).
Proof.
  intros k a st df cur Hdf Hd. simpl.
  unfold bind, get_frame, new_frame, dict_set, bind, get_dict. rewrite Hdf. simpl.
  by rewrite Hd.
Qed.

Lemma keep_all_true {A} (l : list A) mask :
  length mask = length l -> Forall (fun b => b = true) mask -> keep mask l = l.
Proof.
  revert mask. induction l as [|x l IH]; intros [|b mask]; simpl; try done.
  intros Hlen [-> Hall]%Forall_cons. f_equal. apply IH; [lia | done].
Qed.

Lemma keep_all_but {A} (l : list A) (s j : nat) (p : nat -> bool) :
  (forall i, s <= i < s + length l -> (p i = false <-> i = s + j)) ->
  j < length l ->
  keep (map p (seq s (length l))) l = delete j l.
Proof.
  revert s j. induction l as [|x l IH]; intros s j Hp Hj; simpl in *; [lia|].
  destruct j as [|j].
  - assert (p s = false) as -> by (apply Hp; lia).
    simpl. apply keep_all_true; [by rewrite length_map, length_seq|].
    apply Forall_forall. intros b Hb.
    apply list_elem_of_fmap in Hb as (i & -> & Hi).
    apply elem_of_seq in Hi. destruct (p i) eqn:E; [done|].
    apply Hp in E; lia.
  - destruct (p s) eqn:E; [|apply Hp in E; lia].
    change (delete (S j) (x :: l)) with (x :: delete j l).
    f_equal. apply IH; [|lia]. intros i Hi. rewrite Hp by lia. lia.
Qed.

Lemma dropna_only_missing_row df j :
  wf_frame df -> only_missing_row df j ->
  dropna df = {| index := delete j (index df);
                 columns := map (fun kc => (kc.1, col_delete j kc.2)) (columns df) |}.
Proof.
  intros Hwf [Hj Hrow]. unfold dropna, df_mask.
  assert (Hk : forall A (l : list A), length l = nrows df ->
    keep (map (fun i => negb (row_has_na df i)) (seq 0 (nrows df))) l = delete j l).
  { intros A l Hl. rewrite <- Hl. apply keep_all_but; [|lia].
    intros i Hi. rewrite negb_false_iff, Hrow by lia. done. }
  f_equal.
  - by apply Hk.
  - unfold wf_frame in Hwf. induction Hwf as [|[c col] cols Hcol _ IH]; simpl; [done|].
    f_equal; [|done]. f_equal. simpl in Hcol.
    destruct col; simpl in *; f_equal; by apply Hk.
Qed.

(** C2, as amended.  For a table with exactly one row holding a missing
    value, [handle_missing_values] with method ['drop'] binds the ticker to
    a new table with that row removed from the index and from every column;
    the remaining rows keep the labels they had (they are not renumbered). *)
Theorem drop_removes_row_keeps_labels
    (st : store) (d : addr) (items : dict) (k : string) (a : addr)
    (df : DataFrame) (j : nat) :
  dicts st !! d = Some items ->
  NoDup items.*1 ->
  (forall k a, (k, a) ∈ items -> is_Some (frames st !! a)) ->
  (k, a) ∈ items ->
  frames st !! a = Some df ->
  wf_frame df ->
  only_missing_row df j ->
  exists st' (items' : dict) a',
    handle_missing_values d "drop" st = (Ok d, st')
    /\ dicts st' !! d = Some items'
    /\ assoc k items' = Some a'
    /\ frames st' !! a'
       = Some {| index := delete j (index df);
                 columns := map (fun kc => (kc.1, col_delete j kc.2)) (columns df) |}
    /\ frames st' !! a = Some df.
Proof.
  intros Hd Hnd Hfr Hin Hdf Hwf Hrow.
  destruct (rebind_loop d dropna _ (handle_missing_values_drop_rebinds d)
              items st items Hd Hnd Hfr)
    as (st' & items' & Hfor & Hd' & Hpre & _ & Hnew & _).
  destruct (Hnew k a df Hin Hdf) as (a' & Ha' & _ & Hfa').
  exists st', items', a'. repeat split; try done.
  - unfold handle_missing_values.
    erewrite bind_ok; [reflexivity|]. unfold for_items.
    erewrite bind_ok; [exact Hfor|]. unfold get_dict. by rewrite Hd.
  - by rewrite Hfa', (dropna_only_missing_row df j).
  - by eapply prefix_lookup_Some.
Qed.

Lemma example_frame_wf close : wf_frame (example_frame close).
Proof.
  unfold wf_frame, example_frame, nrows, RangeIndex. simpl.
  repeat constructor; simpl; by rewrite ?length_map, ?length_seq.
Qed.

Lemma example_only_missing_row :
  only_missing_row (example_frame [Fin 1; NaN; Fin 3]) 1.
Proof.
  split; [vm_compute; lia|]. intros i Hi. vm_compute in Hi.
  destruct i as [|[|[|i]]]; [| | |lia];
    (split; intros H;
     [ vm_compute in H; first [discriminate H | reflexivity]
     | first [discriminate H | vm_compute; reflexivity] ]).
Qed.

Lemma drop_removes_row_witness :
  only_missing_row (example_frame [Fin 1; NaN; Fin 3]) 1
  /\ exists st' (items' : dict) a',
       handle_missing_values 0 "drop" (example_store [Fin 1; NaN; Fin 3])
       = (Ok 0, st')
       /\ dicts st' !! 0 = Some items'
       /\ assoc "TSLA" items' = Some a'
       /\ frames st' !! a'
          = Some {| index := [Pos 0; Pos 2];
                    columns := [("Date", DateCol [0; 2]%Z);
                                ("Close", NumCol [Fin 1; Fin 3]);
                                ("Open", NumCol [Fin 1; Fin 3]);
                                ("High", NumCol [Fin 1; Fin 3]);
                                ("Low", NumCol [Fin 1; Fin 3]);
                                ("Volume", NumCol [Fin 5; Fin 5])] |}
       /\ frames st' !! 0 = Some (example_frame [Fin 1; NaN; Fin 3]).
Proof.
  split; [exact example_only_missing_row|].
  apply (drop_removes_row_keeps_labels
           (example_store [Fin 1; NaN; Fin 3]) 0 [("TSLA", 0)] "TSLA" 0
           (example_frame [Fin 1; NaN; Fin 3]) 1).
  - reflexivity.
  - simpl. apply NoDup_singleton.
  - intros k a Hin. apply list_elem_of_singleton in Hin. inversion Hin; subst.
    simpl. by eexists.
  - apply list_elem_of_singleton. reflexivity.
  - reflexivity.
  - apply example_frame_wf.
  - exact example_only_missing_row.
Defined.

(** The claim as the specification states it asks for the remaining rows to
    be renumbered 0..n-2.  On three rows with the missing value in the
    middle one, the table that ['drop'] produces is labelled 0 and 2. *)
Lemma drop_does_not_renumber :
  let df := example_frame [Fin 1; NaN; Fin 3] in
  let st := example_store [Fin 1; NaN; Fin 3] in
  only_missing_row df 1
  /\ exists st' a' df',
       handle_missing_values 0 "drop" st = (Ok 0, st')
       /\ (dicts st' !! 0) ≫= assoc "TSLA" = Some a'
       /\ frames st' !! a' = Some df'
       /\ index df' = [Pos 0; Pos 2]
       /\ index df' <> RangeIndex (nrows df - 1).
Proof.
  simpl. split; [exact example_only_missing_row|].
  eexists _, 1, _.
  split; [reflexivity|]. split; [reflexivity|]. split; [reflexivity|].
  split; [reflexivity|]. intros H. vm_compute in H. discriminate H.
Qed.

(** C3.  The docstring of [handle_missing_values] offers ['interpolate'] as
    a method, and the specification says it interpolates linearly without
    raising.  The code hands the name to [fillna(method=...)], which accepts
    only the pad and backfill families: as soon as the dictionary has one
    table, the call raises a [ValueError] and changes nothing. *)
Theorem interpolate_raises
    (st : store) (d : addr) (k : string) (a : addr) (items : dict)
    (df : DataFrame) :
  dicts st !! d = Some ((k, a) :: items) ->
  frames st !! a = Some df ->
  handle_missing_values d "interpolate" st
  = (Raise (ValueError
       "Invalid fill method. Expecting pad (ffill) or backfill (bfill). Got interpolate"),
     st).
Proof.
  intros Hd Hdf.
  unfold handle_missing_values, for_items, bind, get_dict. rewrite Hd. simpl.
  unfold bind, get_frame. by rewrite Hdf.
Qed.

Lemma interpolate_raises_witness :
  handle_missing_values 0 "interpolate" (example_store [Fin 1; NaN; Fin 3])
  = (Raise (ValueError
       "Invalid fill method. Expecting pad (ffill) or backfill (bfill). Got interpolate"),
     example_store [Fin 1; NaN; Fin 3]).
Proof.
  apply (interpolate_raises (example_store [Fin 1; NaN; Fin 3]) 0 "TSLA" 0 []
                            (example_frame [Fin 1; NaN; Fin 3]));
    reflexivity.
Defined.

(** ** Steps on one table *)

Section Steps.
Context (D : list dict) (a : addr).

Lemma step_ret {A} (x : A) df : step D a (ret x) df x df [].
Proof. intros st _ Hdf. unfold ret. by rewrite touch_id. Qed.

Lemma step_lift {A} (r : res A) x df : r = Ok x -> step D a (lift r) df x df [].
Proof. intros -> st _ Hdf. unfold lift. by rewrite touch_id. Qed.

Lemma step_emit e df : step D a (emit e) df tt df [e].
Proof. intros st _ Hdf. unfold emit. by rewrite touch_same. Qed.

Lemma step_get_frame df : step D a (get_frame a) df df df [].
Proof. intros st _ Hdf. unfold get_frame. by rewrite Hdf, touch_id. Qed.

Lemma step_put_frame df df' : step D a (put_frame a df') df tt df' [].
Proof.
  intros st _ Hdf. unfold put_frame, touch. by rewrite app_nil_r.
Qed.

Lemma step_dict_get d k (items : dict) df :
  D !! d = Some items -> assoc k items = Some a ->
  step D a (dict_get d k) df a df [].
Proof.
  intros Hd Hk st HD Hdf. unfold dict_get, bind, get_dict. rewrite HD, Hd, Hk.
  unfold ret. by rewrite touch_id.
Qed.

Lemma step_bind {A B} (m : M A) (k : A -> M B) df x df1 ev1 y df2 ev2 :
  step D a m df x df1 ev1 -> step D a (k x) df1 y df2 ev2 ->
  step D a (bind m k) df y df2 (ev1 ++ ev2).
Proof.
  intros Hm Hk st HD Hdf. unfold bind. rewrite (Hm st HD Hdf).
  rewrite (Hk (touch st a df1 ev1)); [by rewrite touch_touch | done |].
  apply touch_lookup. by eapply lookup_lt_Some.
Qed.

Lemma step_eq {A} (m : M A) df x df1 ev1 df2 ev2 :
  step D a m df x df1 ev1 -> df1 = df2 -> ev1 = ev2 -> step D a m df x df2 ev2.
Proof. by intros H <- <-. Qed.

Lemma step_getitem c df col :
  assoc c (columns df) = Some col -> step D a (getitem a c) df col df [].
Proof.
  intros Hc. unfold getitem.
  eapply step_eq; [eapply step_bind; [apply step_get_frame|apply step_lift]|done..].
  unfold df_getitem. by rewrite Hc.
Qed.

Lemma step_setitem c col df :
  col_length col = nrows df ->
  step D a (setitem a c col) df tt
       {| index := index df; columns := assoc_set c col (columns df) |} [].
Proof.
  intros Hlen. unfold setitem.
  eapply step_eq;
    [eapply step_bind; [apply step_get_frame|];
     eapply step_bind; [apply step_lift|apply step_put_frame]|done..].
  unfold df_setitem. by rewrite decide_True.
Qed.

Lemma step_derive c f df l col :
  has_floats df "Close" l -> f l = Ok col -> col_length col = nrows df ->
  step D a (derive a c f) df tt
       {| index := index df; columns := assoc_set c col (columns df) |} [].
Proof.
  intros [Hc _] Hf Hlen. unfold derive.
  eapply step_eq;
    [eapply step_bind; [by apply step_getitem|];
     eapply step_bind; [by apply step_lift|];
     eapply step_bind; [by apply step_lift|by apply step_setitem]|done..].
Qed.

Lemma step_plot x y lbl df xs ys :
  assoc x (columns df) = Some xs -> assoc y (columns df) = Some ys ->
  step D a (plot a x y lbl) df tt df [PltPlot xs ys lbl].
Proof.
  intros Hx Hy. unfold plot.
  eapply step_eq;
    [eapply step_bind; [by apply step_getitem|];
     eapply step_bind; [by apply step_getitem|apply step_emit]|done..].
Qed.
End Steps.

(** ** Daily returns (C4, C9) *)

Lemma fill_from_length {A} (missing : A -> bool) last l :
  length (fill_from missing last l) = length l.
Proof.
  revert last. induction l as [|x l IH]; intros last; simpl; [done|].
  by rewrite IH.
Qed.

Lemma fill_from_present {A} (missing : A -> bool) last l i x :
  l !! i = Some x -> missing x = false ->
  fill_from missing last l !! i = Some x.
Proof.
  revert last i. induction l as [|y l IH]; intros last [|i] Hi Hx; simpl in *;
    try done.
  - inversion Hi; subst. by rewrite Hx.
  - by apply IH.
Qed.

Lemma shift1_length l : length (shift1 l) = length l.
Proof. unfold shift1. rewrite length_take. simpl. lia. Qed.

Lemma shift1_succ l i : S i < length l -> shift1 l !! S i = l !! i.
Proof. intros H. unfold shift1. by rewrite lookup_take_lt. Qed.

Lemma pct_change_length l : length (pct_change l) = length l.
Proof.
  unfold pct_change. rewrite length_zip_with, shift1_length.
  unfold ffill. rewrite fill_from_length. lia.
Qed.

(** The first row has no previous row: its return is undefined. *)
Lemma pct_change_first x l : pct_change (x :: l) !! 0 = Some NaN.
Proof.
  unfold pct_change, ffill, shift1. simpl.
  by destruct (if isnan x then NaN else x).
Qed.

(** From the second row on, between two present prices the return is the
    relative change. *)
Lemma pct_change_succ l i p c :
  l !! i = Some (Fin p) -> l !! S i = Some (Fin c) -> ~ (p == 0)%Q ->
  exists y, pct_change l !! S i = Some (Fin y) /\ (y == (c - p) / p)%Q.
Proof.
  intros Hp Hc Hnz. unfold pct_change.
  rewrite lookup_zip_with. rewrite shift1_succ.
  2:{ unfold ffill. rewrite fill_from_length. by eapply lookup_lt_Some. }
  unfold ffill. rewrite (fill_from_present _ _ _ _ _ Hc), (fill_from_present _ _ _ _ _ Hp)
    by done.
  simpl. destruct (Qcompare_spec p 0) as [E|E|E]; [done| |];
    (eexists; split; [reflexivity|]; rewrite !Qred_correct; field; done).
Qed.

Lemma scale_by_length k l : length (scale_by k l) = length l.
Proof. unfold scale_by. by rewrite length_map. Qed.

Lemma scale_by_lookup k l i q :
  l !! i = Some (Fin q) ->
  exists y, scale_by k l !! i = Some (Fin y) /\ (y == q * k)%Q.
Proof.
  intros H. unfold scale_by. rewrite list_lookup_fmap, H. simpl.
  eexists; split; [reflexivity|]. apply Qred_correct.
Qed.

(** The formula of the specification, for the column that
    [calculate_daily_returns] and [analyze_unusual_returns] compute. *)
Lemma percent_return_formula l i p c :
  l !! i = Some (Fin p) -> l !! S i = Some (Fin c) -> ~ (p == 0)%Q ->
  exists y, scale_by 100 (pct_change l) !! S i = Some (Fin y)
            /\ (y == (c - p) / p * 100)%Q.
Proof.
  intros Hp Hc Hnz. destruct (pct_change_succ l i p c Hp Hc Hnz) as (y & Hy & E).
  destruct (scale_by_lookup 100 _ _ _ Hy) as (z & Hz & E').
  exists z. split; [done|]. by rewrite E', E.
Qed.

Lemma percent_return_first x l : scale_by 100 (pct_change (x :: l)) !! 0 = Some NaN.
Proof.
  unfold scale_by. by rewrite list_lookup_fmap, pct_change_first.
Qed.

Lemma for_items_inplace d (items : dict) f body st :
  dicts st !! d = Some items ->
  NoDup items.*2 ->
  acts_inplace items (dicts st) f body ->
  (forall k a, (k, a) ∈ items ->
     exists df r, frames st !! a = Some df /\ f k df = Some r) ->
  exists st',
    for_items d body st = (Ok tt, st')
    /\ dicts st' = dicts st
    /\ (forall k a df, (k, a) ∈ items -> frames st !! a = Some df ->
          exists df' ev, f k df = Some (df', ev) /\ frames st' !! a = Some df')
    /\ (forall a, a ∉ items.*2 -> frames st' !! a = frames st !! a)
    /\ out st' = out st ++ trace f (frames st) items.
Proof.
  intros Hd Hnd Hbody Hdef.
  destruct (for_each_inplace items (dicts st) f body Hbody items st)
    as (st' & Hfor & Hd' & _ & Hfr & Hoth & Hout); try done.
  exists st'. repeat split; try done.
  unfold for_items. erewrite bind_ok; [exact Hfor|].
  unfold get_dict. by rewrite Hd.
Qed.

Ltac solve_assoc :=
  simpl; unfold with_column; simpl;
  repeat first [ rewrite assoc_set_eq | rewrite assoc_set_ne by done ];
  first [ reflexivity | eassumption ].

Ltac one_step :=
  first [ apply step_emit
        | eapply step_plot; solve_assoc
        | apply step_ret ].

Ltac steps := repeat first [ eapply step_bind; [one_step|] | one_step ].

Lemma calculate_daily_returns_acts items D :
  acts_inplace items D daily_returns_effect (fun ticker data =>
    derive data "Daily Return"
           (fun l => Ok (NumCol (scale_by 100 (pct_change l)))) >>
    emit PltFigure >>
    plot data "Date" "Daily Return" "Daily Return" >>
    emit (PltTitle (ticker ++ " Daily Percentage Change (Returns)")) >>
    emit (PltXlabel "Date") >>
    emit (PltYlabel "Daily Return (%)") >>
    emit PltLegend >>
    emit PltGrid >>
    emit PltShow).
Proof.
  intros k a st df df' ev _ HD Hdf Hf. unfold daily_returns_effect in Hf.
  destruct (assoc "Close" (columns df)) as [[|l|]|] eqn:Hc; try done.
  destruct (assoc "Date" (columns df)) as [dates|] eqn:Hdt; try done.
  destruct (decide (length l = nrows df)) as [Hlen|]; [|done].
  inversion Hf; subst df' ev; clear Hf.
  revert st HD Hdf. change (step D a ?m df tt ?x ?y) with (step D a m df tt x y).
  eapply step_eq.
  - eapply step_bind.
    + eapply (step_derive D a "Daily Return" _ df l); [by split|reflexivity|].
      simpl. by rewrite scale_by_length, pct_change_length.
    + steps.
  - reflexivity.
  - reflexivity.
Qed.

(** On every table with a float ['Close'] and a ['Date'] column,
    [calculate_daily_returns] stores the percent change times 100. *)
Lemma calculate_daily_returns_percent st d (items : dict) :
  dicts st !! d = Some items ->
  NoDup items.*2 ->
  (forall k a, (k, a) ∈ items ->
     exists df l dates, frames st !! a = Some df /\ has_floats df "Close" l
                        /\ assoc "Date" (columns df) = Some dates) ->
  exists st',
    calculate_daily_returns d st = (Ok tt, st')
    /\ forall k a df l, (k, a) ∈ items -> frames st !! a = Some df ->
         has_floats df "Close" l ->
         frames st' !! a
         = Some (with_column df "Daily Return" (NumCol (scale_by 100 (pct_change l)))).
Proof.
  intros Hd Hnd Hok.
  destruct (for_items_inplace d items daily_returns_effect _ st Hd Hnd
              (calculate_daily_returns_acts items (dicts st)))
    as (st' & Hrun & _ & Hfr & _).
  - intros k a Hin. destruct (Hok k a Hin) as (df & l & dates & Hdf & [Hc Hl] & Hdt).
    exists df. unfold daily_returns_effect. rewrite Hc, Hdt, decide_True by done.
    by eexists.
  - exists st'. split; [exact Hrun|].
    intros k a df l Hin Hdf [Hc Hl].
    destruct (Hfr k a df Hin Hdf) as (df' & ev & Hf & Hdf').
    destruct (Hok k a Hin) as (df0 & l0 & dates & Hdf0 & _ & Hdt).
    rewrite Hdf in Hdf0. inversion Hdf0; subst df0.
    unfold daily_returns_effect in Hf. rewrite Hc, Hdt, decide_True in Hf by done.
    inversion Hf; subst. done.
Qed.

(** C4.  The specification gives one formula for ['Daily Return'], in
    percent, on every path that computes the column.  On Close = [100, 110,
    99] [calculate_daily_returns] stores [undefined, 10, -10], as stated,
    and [visualize_All_in_one] stores [undefined, 0.1, -0.1] under the same
    name: it omits the factor 100 that its two sibling paths apply. *)
Theorem daily_return_paths_disagree :
  let st := example_store [Fin 100; Fin 110; Fin 99] in
  let daily_return (st' : store) :=
    df ← frames st' !! 0; assoc "Daily Return" (columns df) in
  daily_return (calculate_daily_returns 0 st).2
  = Some (NumCol [NaN; Fin 10; Fin (-10)])
  /\ daily_return (analyze_unusual_returns 0 2 st).2
     = Some (NumCol [NaN; Fin 10; Fin (-10)])
  /\ daily_return (visualize_All_in_one 0 st).2
     = Some (NumCol [NaN; Fin (1 # 10); Fin (- 1 # 10)]).
Proof. vm_compute. repeat split. Qed.

Lemma assoc_map {A B} (f : A -> B) c (l : list (string * A)) :
  assoc c (map (fun kc => (kc.1, f kc.2)) l) = f <$> assoc c l.
Proof.
  induction l as [|[k v] l IH]; simpl; [done|].
  by destruct (decide (c = k)).
Qed.

Lemma df_select_index df cs shown : df_select df cs = Ok shown -> index shown = index df.
Proof.
  unfold df_select. destruct (rmap _ cs); simpl; [|done].
  by intros [= <-].
Qed.





Lemma unusual_infinity t x :
  x = PInf \/ x = NInf -> fgt x (Fin t) || flt x (Fin (- t)) = true.
Proof. by intros [-> | ->]. Qed.

Lemma unusual_missing t : fgt NaN (Fin t) || flt NaN (Fin (- t)) = false.
Proof. reflexivity. Qed.

Lemma df_select_mask_ok df mask (cs : list string) :
  Forall (fun c => is_Some (assoc c (columns df))) cs ->
  exists shown, df_select (df_mask df mask) cs = Ok shown.
Proof.
  intros Hcs. unfold df_select.
  assert (exists cols,
    rmap (fun c => let? col := df_getitem (df_mask df mask) c in Ok (c, col)) cs
    = Ok cols) as [cols ->]; [|by eexists].
  induction Hcs as [|c cs [col Hc] _ [cols IH]]; simpl; [by eexists|].
  unfold df_getitem at 1. simpl.
  assert (assoc c (map (fun kc => (kc.1, col_keep mask kc.2)) (columns df))
          = Some (col_keep mask col)) as ->.
  { clear -Hc. induction (columns df) as [|[k0 v0] l IH]; simpl in *; [done|].
    destruct (decide (c = k0)); [by inversion Hc|by apply IH]. }
  simpl. rewrite IH. by eexists.
Qed.


Ltac more_step :=
  first [ one_step
        | apply step_get_frame
        | eapply step_getitem; solve_assoc
        | eapply step_lift; first [reflexivity | eassumption] ].

Ltac more_steps := repeat first [ eapply step_bind; [more_step|] | more_step ].




(** Returns of +10% and -10% stored as fractions are not flagged at the
    default threshold of 2 percent. *)
Example fractional_returns_are_not_flagged :
  let st := (visualize_All_in_one 0 (example_store [Fin 100; Fin 110; Fin 99])).2 in
  drop (length (out st)) (out (analyze_unusual_returns_default 0 st).2)
  = [Print "Unusual Returns for TSLA:";
     PrintFrame {| index := [];
                   columns := [("Date", DateCol []); ("Close", NumCol []);
                               ("Daily Return", NumCol [])] |}].
Proof. vm_compute. reflexivity. Qed.

(** ** Rolling statistics (C6) *)

Lemma rolling_ok {A} w l (nan : A) stat :
  (0 <= w)%Z ->
  rolling w l nan stat
  = Ok (map (fun i => match window_at (Z.to_nat w) l i with
                      | Some qs => stat qs
                      | None => nan
                      end) (seq 0 (length l))).
Proof.
  intros Hw. unfold rolling. destruct (Z.ltb_spec w 0); [lia|done].
Qed.

Lemma rolling_length {A} w l (nan : A) stat out :
  rolling w l nan stat = Ok out -> length out = length l.
Proof.
  unfold rolling. destruct (w <? 0)%Z; [done|].
  intros H; inversion H. by rewrite length_map, length_seq.
Qed.

Lemma rolling_lookup {A} w l (nan : A) stat out i :
  rolling w l nan stat = Ok out -> i < length l ->
  out !! i = Some (match window_at (Z.to_nat w) l i with
                   | Some qs => stat qs
                   | None => nan
                   end).
Proof.
  unfold rolling. destruct (w <? 0)%Z; [done|].
  intros H Hi; inversion H. by rewrite list_lookup_fmap, lookup_seq_lt.
Qed.

(** Before the window is full there is no window. *)
Lemma window_at_early w l i : i + 1 < w -> window_at w l i = None.
Proof.
  intros H. unfold window_at.
  destruct (Nat.ltb_spec (i + 1) w); [|lia]. by rewrite orb_true_r.
Qed.

(** A window is the [w] finite prices that end at row [i], and [w] of them
    exist. *)
Lemma window_at_Some w l i qs :
  window_at w l i = Some qs ->
  1 <= w <= i + 1 /\ all_finite (trailing w l i) = Some qs.
Proof.
  unfold window_at.
  destruct (Nat.eqb_spec w 0) as [Hw|Hw]; [done|].
  destruct (Nat.ltb_spec (i + 1) w) as [Hi|Hi]; [done|].
  simpl. intros Hqs. split; [lia|done].
Qed.

Lemma analyze_volatility_acts items D window :
  acts_inplace items D (volatility_effect window) (fun ticker data =>
    derive data "Rolling Mean"
           (fun l => let? m := rolling_mean window l in Ok (NumCol m)) >>
    derive data "Rolling Std"
           (fun l => let? s := rolling_std window l in Ok (StatCol s)) >>
    emit PltFigure >>
    plot data "Date" "Close" "Close Price" >>
    plot data "Date" "Rolling Mean" (pretty window ++ "-Day Rolling Mean") >>
    plot data "Date" "Rolling Std" (pretty window ++ "-Day Rolling Std") >>
    emit (PltTitle (ticker ++ " Volatility Analysis (Rolling Mean & Std)")) >>
    emit (PltXlabel "Date") >>
    emit (PltYlabel "Price") >>
    emit PltLegend >>
    emit PltGrid >>
    emit PltShow).
Proof.
  intros k a st df df' ev _ HD Hdf Hf. unfold volatility_effect in Hf.
  destruct (assoc "Close" (columns df)) as [[|l|]|] eqn:Hc; try done.
  destruct (assoc "Date" (columns df)) as [dates|] eqn:Hdt; try done.
  destruct (decide (length l = nrows df)) as [Hlen|]; [|done].
  destruct (rolling_mean window l) as [m|] eqn:Hm; [|done].
  destruct (rolling_std window l) as [s|] eqn:Hs; [|done].
  inversion Hf; subst df' ev; clear Hf.
  revert st HD Hdf. eapply step_eq.
  - eapply step_bind.
    + eapply (step_derive D a "Rolling Mean" _ df l); [by split| |].
      * simpl. rewrite Hm. reflexivity.
      * simpl. by rewrite (rolling_length _ _ _ _ _ Hm).
    + eapply step_bind.
      * eapply (step_derive D a "Rolling Std" _ _ l).
        -- split; [solve_assoc|done].
        -- simpl. rewrite Hs. reflexivity.
        -- simpl. by rewrite (rolling_length _ _ _ _ _ Hs).
      * steps.
  - reflexivity.
  - reflexivity.
Qed.

(** C6, as amended.  The ['Rolling Mean'] and ['Rolling Std'] columns of
    [analyze_volatility] are trailing statistics of ['Close'] over [window]
    rows (30 by default).  At row [i] they are undefined as long as the
    window is not full, that is while fewer than [window] rows exist up to
    and including row [i]; where one of them is defined, the window is full
    ([window <= i + 1], so at least [window - 1] rows come before row [i])
    and the value is the mean, or the sample standard deviation, of the
    [window] prices that end at row [i]. *)
Theorem rolling_statistics_need_full_window
    (st : store) (d : addr) (items : dict) (window : Z) :
  dicts st !! d = Some items ->
  NoDup items.*2 ->
  (0 <= window)%Z ->
  (forall k a, (k, a) ∈ items ->
     exists df l dates, frames st !! a = Some df /\ has_floats df "Close" l
                        /\ assoc "Date" (columns df) = Some dates) ->
  analyze_volatility_default d = analyze_volatility d 30
  /\ exists st',
       analyze_volatility d window st = (Ok tt, st')
       /\ forall k a df l, (k, a) ∈ items -> frames st !! a = Some df ->
            has_floats df "Close" l ->
            exists df' m s,
              frames st' !! a = Some df'
              /\ assoc "Rolling Mean" (columns df') = Some (NumCol m)
              /\ assoc "Rolling Std" (columns df') = Some (StatCol s)
              /\ length m = nrows df /\ length s = nrows df
              /\ forall i, i < nrows df ->
                   ((Z.of_nat (i + 1) < window)%Z ->
                      m !! i = Some NaN /\ s !! i = Some SNaN)
                   /\ (forall x, m !! i = Some x -> x <> NaN ->
                         (window <= Z.of_nat (i + 1))%Z
                         /\ exists qs,
                              all_finite (trailing (Z.to_nat window) l i) = Some qs
                              /\ x = fin (Qmean qs))
                   /\ (forall x, s !! i = Some x -> x <> SNaN ->
                         (window <= Z.of_nat (i + 1))%Z
                         /\ exists qs,
                              all_finite (trailing (Z.to_nat window) l i) = Some qs
                              /\ x = SVal 1 (Qred (Qvar 1 qs))).
Proof.
  intros Hd Hnd Hw Hok. split; [reflexivity|].
  destruct (for_items_inplace d items (volatility_effect window) _ st Hd Hnd
              (analyze_volatility_acts items (dicts st) window))
    as (st' & Hrun & _ & Hfr & _).
  - intros k a Hin. destruct (Hok k a Hin) as (df & l & dates & Hdf & [Hc Hl] & Hdt).
    exists df. unfold volatility_effect. rewrite Hc, Hdt, decide_True by done.
    unfold rolling_mean, rolling_std. rewrite !rolling_ok by done. by eexists.
  - exists st'. split; [exact Hrun|].
    intros k a df l Hin Hdf [Hc Hl].
    destruct (Hfr k a df Hin Hdf) as (df' & ev & Hf & Hdf').
    destruct (Hok k a Hin) as (df0 & l0 & dates & Hdf0 & _ & Hdt).
    rewrite Hdf in Hdf0. inversion Hdf0; subst df0.
    unfold volatility_effect in Hf. rewrite Hc, Hdt, decide_True in Hf by done.
    destruct (rolling_mean window l) as [m|] eqn:Hm; [|done].
    destruct (rolling_std window l) as [s|] eqn:Hs; [|done].
    inversion Hf; subst df' ev; clear Hf.
    eexists. exists m, s. split; [exact Hdf'|].
    split; [solve_assoc|]. split; [solve_assoc|].
    pose proof (rolling_length _ _ _ _ _ Hm) as Hlm.
    pose proof (rolling_length _ _ _ _ _ Hs) as Hls.
    split; [congruence|]. split; [congruence|].
    intros i Hi. rewrite <- Hl in Hi.
    rewrite (rolling_lookup _ _ _ _ _ _ Hm Hi), (rolling_lookup _ _ _ _ _ _ Hs Hi).
    split; [|split].
    + intros Hearly. rewrite window_at_early by lia. done.
    + intros x [= <-] Hnan.
      destruct (window_at (Z.to_nat window) l i) as [qs|] eqn:Hwin; [|done].
      apply window_at_Some in Hwin as [Hfull Hqs]. split; [lia|]. by exists qs.
    + intros x [= <-] Hnan.
      destruct (window_at (Z.to_nat window) l i) as [qs|] eqn:Hwin; [|done].
      apply window_at_Some in Hwin as [Hfull Hqs]. split; [lia|].
      exists qs. split; [done|]. by destruct (length qs <=? 1)%nat.
Qed.

Lemma rolling_statistics_witness :
  exists st',
    analyze_volatility 0 2 (example_store [Fin 1; Fin 2; Fin 4]) = (Ok tt, st')
    /\ (df ← frames st' !! 0; assoc "Rolling Mean" (columns df))
       = Some (NumCol [NaN; Fin (3 # 2); Fin 3])
    /\ (df ← frames st' !! 0; assoc "Rolling Std" (columns df))
       = Some (StatCol [SNaN; SVal 1 (1 # 2); SVal 1 2]).
Proof.
  destruct (rolling_statistics_need_full_window
              (example_store [Fin 1; Fin 2; Fin 4]) 0 [("TSLA", 0)] 2)
    as [_ (st' & Hrun & _)].
  - reflexivity.
  - apply NoDup_singleton.
  - lia.
  - intros k a Hin. apply list_elem_of_singleton in Hin. inversion Hin; subst.
    eexists _, _, _. split; [reflexivity|]. split; [split; reflexivity|reflexivity].
  - exists st'. split; [exact Hrun|].
    vm_compute in Hrun. inversion Hrun. split; reflexivity.
Defined.

(** The claim as the specification states it asks for [window] rows before
    row [i].  The window counts row [i] itself: with a window of 2, row 1 has
    a single row before it and both statistics are defined there. *)
Lemma window_counts_current_row :
  let st' := (analyze_volatility 0 2 (example_store [Fin 1; Fin 2; Fin 4])).2 in
  exists m s,
    (df ← frames st' !! 0; assoc "Rolling Mean" (columns df)) = Some (NumCol m)
    /\ (df ← frames st' !! 0; assoc "Rolling Std" (columns df)) = Some (StatCol s)
    /\ m !! 1 = Some (Fin (3 # 2))
    /\ s !! 1 = Some (SVal 1 (1 # 2))
    /\ ~ (forall i x, m !! i = Some x -> x <> NaN -> 2 <= i).
Proof.
  eexists _, _. split; [reflexivity|]. split; [reflexivity|].
  split; [reflexivity|]. split; [reflexivity|].
  intros H. specialize (H 1 (Fin (3 # 2)) eq_refl). cbv beta in H.
  assert (Hle : 2 <= 1) by (apply H; discriminate). lia.
Qed.

(** ** Z-scores (C5) *)

Local Open Scope Q_scope.

Lemma Qabs_square a : Qabs a * Qabs a == a * a.
Proof. apply Qabs_case; intros _; ring. Qed.

(** The test [|a * sqrt r| > t], on squares. *)
Lemma sgt_abs_test a r t :
  0 <= t -> sgt (sabs (SVal a r)) t = true <-> t * t < a * a * r.
Proof.
  intros Ht. simpl.
  destruct (Qcompare_spec (Qabs a) 0) as [E|E|E];
    [|pose proof (Qabs_nonneg a); lra|];
    (destruct (Qcompare_spec t 0) as [E'|E'|E']; [|lra|];
     rewrite <- (Qabs_square a);
     destruct (Qcompare_spec (Qabs a * Qabs a * r) (t * t)) as [E2|E2|E2];
     split; try done; lra).
Qed.

Lemma sdiv_std q v :
  0 < v -> sdiv q (SVal 1 (Qred v)) = SVal (Qred (q / (1 * Qred v))) (Qred v).
Proof.
  intros Hv. unfold sdiv.
  destruct (Qcompare_spec (1 * Qred v) 0) as [E|E|E]; try done.
  rewrite Qred_correct in E. lra.
Qed.

(** A score [q / sqrt v] is beyond [t] exactly when [q^2 > t^2 * v]. *)
Lemma outlier_test q v t :
  0 < v -> 0 <= t ->
  sgt (sabs (sdiv q (SVal 1 (Qred v)))) t = true <-> t * t * v < q * q.
Proof.
  intros Hv Ht. rewrite sdiv_std, sgt_abs_test by done.
  rewrite !Qred_correct.
  assert (E : q / (1 * v) * (q / (1 * v)) * v == q * q / v) by (field; lra).
  rewrite E. split; intros H.
  - apply (Qmult_lt_r _ _ v) in H; [|done].
    assert (E2 : q * q / v * v == q * q) by (field; lra). by rewrite E2 in H.
  - apply Qlt_shift_div_l; done.
Qed.

Local Close Scope Q_scope.






Lemma all_finite_Some l qs : all_finite l = Some qs -> l = map Fin qs.
Proof.
  unfold all_finite. intros H%mapM_Some_1.
  induction H as [|x q l qs Hx _ IH]; [done|].
  simpl. destruct x; try done. inversion Hx; subst. by f_equal.
Qed.

Lemma map_replicate {A B} (f : A -> B) n x :
  map f (replicate n x) = replicate n (f x).
Proof. induction n as [|n IH]; simpl; [done|]. by rewrite IH. Qed.


Lemma zscore_length l : length (zscore l) = length l.
Proof.
  unfold zscore. destruct (all_finite l) as [qs|] eqn:E.
  - rewrite length_map. symmetry. by eapply length_mapM.
  - by rewrite length_map.
Qed.

Local Open Scope Q_scope.

Lemma Qsum_app l1 l2 : Qsum (l1 ++ l2) == Qsum l1 + Qsum l2.
Proof.
  unfold Qsum. induction l1 as [|x l1 IH]; simpl; [ring|]. rewrite IH. ring.
Qed.


Section OneSpike.
Variables p q : nat.
Let n : Q := inject_Z (Z.of_nat (p + q)).





Hypothesis enough : (1 <= p + q)%nat.

End OneSpike.

Section OneSpikeScores.
Variables p q : nat.
Let n : Q := inject_Z (Z.of_nat (p + q)).
Let c : Q := 810000 / ((n + 1) * (n + 1)).
Hypothesis enough : (1 <= p + q)%nat.






End OneSpikeScores.

Local Close Scope Q_scope.

Lemma detect_outliers_acts items D threshold :
  acts_inplace items D (outliers_effect threshold) (fun ticker data =>
    derive data "Z-Score" (fun l => Ok (StatCol (zscore l))) >>
    let* z := getitem data "Z-Score" in
    let* absz := lift (series_abs z) in
    let* mask := lift (series_gt absz threshold) in
    let* df := get_frame data in
    let outliers := df_mask df mask in
    emit (Print ("Outliers for " ++ ticker ++ ":")) >>
    let* shown := lift (df_select outliers ["Date"; "Close"; "Z-Score"]) in
    emit (PrintFrame shown)).
Proof.
  intros k a st df df' ev _ HD Hdf Hf. unfold outliers_effect in Hf.
  destruct (assoc "Close" (columns df)) as [[|l|]|] eqn:Hc; try done.
  destruct (decide (length l = nrows df)) as [Hlen|]; [|done].
  destruct (df_select _ _) as [shown|] eqn:Hsel; [|done].
  inversion Hf; subst df' ev; clear Hf.
  revert st HD Hdf. eapply step_eq.
  - eapply step_bind.
    + eapply (step_derive D a "Z-Score" _ df l); [by split|reflexivity|].
      simpl. by rewrite zscore_length.
    + more_steps.
  - reflexivity.
  - reflexivity.
Qed.

Lemma outliers_effect_defined threshold k df l dates :
  has_floats df "Close" l -> assoc "Date" (columns df) = Some dates ->
  exists shown,
    df_select (df_mask (with_column df "Z-Score" (StatCol (zscore l)))
                       (outlier_rows threshold (zscore l)))
              ["Date"; "Close"; "Z-Score"] = Ok shown
    /\ outliers_effect threshold k df
       = Some (with_column df "Z-Score" (StatCol (zscore l)),
               [Print ("Outliers for " ++ k ++ ":"); PrintFrame shown]).
Proof.
  intros [Hc Hl] Hdt.
  edestruct (df_select_mask_ok (with_column df "Z-Score" (StatCol (zscore l))))
    as [shown Hsel].
  2:{ exists shown. split; [exact Hsel|].
      unfold outliers_effect. rewrite Hc, decide_True by done. cbv zeta.
      by rewrite Hsel. }
  repeat constructor; unfold with_column; simpl.
  - rewrite assoc_set_ne by done. by rewrite Hdt.
  - rewrite assoc_set_ne by done. by rewrite Hc.
  - by rewrite assoc_set_eq.
Qed.




(** ** Min-max normalisation (C1) *)

Local Open Scope Q_scope.

Lemma Qlist_min_le x r y : In y (x :: r) -> Qlist_min x r <= y.
Proof.
  unfold Qlist_min. induction r as [|z r IH]; simpl.
  - intros [->|[]]. apply Qle_refl.
  - intros [->|[->|H]].
    + eapply Qle_trans; [apply Q.le_min_r|]. apply IH. by left.
    + apply Q.le_min_l.
    + eapply Qle_trans; [apply Q.le_min_r|]. apply IH. by right.
Qed.

Lemma Qlist_max_ge x r y : In y (x :: r) -> y <= Qlist_max x r.
Proof.
  unfold Qlist_max. induction r as [|z r IH]; simpl.
  - intros [->|[]]. apply Qle_refl.
  - intros [->|[->|H]].
    + eapply Qle_trans; [|apply Q.le_max_r]. apply IH. by left.
    + apply Q.le_max_l.
    + eapply Qle_trans; [|apply Q.le_max_r]. apply IH. by right.
Qed.

Lemma finites_In l i v : l !! i = Some (Fin v) -> In v (finites l).
Proof.
  unfold finites. revert i. induction l as [|x l IH]; intros [|i] H; simpl in *;
    try done.
  - inversion H; subst. by left.
  - destruct x; simpl; [right|..]; by eapply IH.
Qed.

(** A present value lies between the column minimum and maximum, which are
    what [nanmin] and [nanmax] return. *)
Lemma col_min_max l i v :
  l !! i = Some (Fin v) ->
  nanmin l = Fin (col_min l) /\ nanmax l = Fin (col_max l)
  /\ col_min l <= v <= col_max l.
Proof.
  intros H%finites_In. unfold nanmin, nanmax, col_min, col_max.
  destruct (finites l) as [|x r]; [done|].
  repeat split; [by apply Qlist_min_le|by apply Qlist_max_ge].
Qed.

Lemma minmax_column_length l : length (minmax_column l) = length l.
Proof. unfold minmax_column. by rewrite length_map. Qed.


Lemma fadd_fin a b : fadd (Fin a) (Fin b) = Fin (Qred (a + b)).
Proof. reflexivity. Qed.

Lemma fsub_fin a b : fsub (Fin a) (Fin b) = Fin (Qred (a - b)).
Proof. reflexivity. Qed.

Lemma fmul_fin a b : fmul (Fin a) (Fin b) = Fin (Qred (a * b)).
Proof. reflexivity. Qed.

Lemma fdiv_fin a b : ~ b == 0 -> fdiv (Fin a) (Fin b) = Fin (Qred (a / b)).
Proof.
  intros Hb. unfold fdiv. by destruct (Qcompare_spec b 0) as [E|E|E].
Qed.

Lemma DBL_EPSILON_pos : 0 < 10 * DBL_EPSILON.
Proof. by vm_compute. Qed.

(** The scaled value of a present entry: never negative, [v - min] when
    the range of the column is below ten machine epsilons (so 0 in a
    constant column), and [(v - min) / (max - min)] otherwise. *)
Lemma minmax_column_value l i v :
  l !! i = Some (Fin v) ->
  exists y,
    minmax_column l !! i = Some (Fin y)
    /\ 0 <= y
    /\ (col_max l == col_min l -> y == 0)
    /\ (col_max l - col_min l < 10 * DBL_EPSILON -> y == v - col_min l)
    /\ (~ col_max l - col_min l < 10 * DBL_EPSILON ->
        y == (v - col_min l) / (col_max l - col_min l)).
Proof.
  intros H. destruct (col_min_max l i v H) as (Hmin & Hmax & Hlo & Hhi).
  unfold minmax_column. rewrite list_lookup_fmap, H, Hmin, Hmax.
  set (mn := col_min l) in *. set (mx := col_max l) in *.
  cbn [fmap option_fmap option_map]. rewrite fsub_fin.
  unfold handle_zeros_in_scale.
  pose proof DBL_EPSILON_pos as Heps.
  destruct (Qcompare_spec (Qred (mx - mn)) (10 * DBL_EPSILON)) as [Hz|Hz|Hz];
    rewrite Qred_correct in Hz.
  - (* at the threshold: scaled by the range *)
    rewrite fdiv_fin by (rewrite Qred_correct; lra).
    rewrite !fmul_fin, fsub_fin, fadd_fin.
    assert (Hpos : 0 < mx - mn) by lra.
    eexists. split; [reflexivity|].
    assert (E : Qred (Qred (v * Qred (1 / Qred (mx - mn)))
                      + Qred (0 - Qred (mn * Qred (1 / Qred (mx - mn)))))
                == (v - mn) / (mx - mn))
      by (rewrite !Qred_correct; field; lra).
    rewrite E. repeat split; try done; try lra.
    apply Qle_shift_div_l; lra.
  - (* below the threshold: the scale is one *)
    rewrite fdiv_fin by lra. rewrite !fmul_fin, fsub_fin, fadd_fin.
    eexists. split; [reflexivity|].
    assert (E : Qred (Qred (v * Qred (1 / 1)) + Qred (0 - Qred (mn * Qred (1 / 1))))
                == v - mn).
    { rewrite !Qred_correct. field. }
    rewrite E. repeat split; lra.
  - rewrite fdiv_fin by (rewrite Qred_correct; lra).
    rewrite !fmul_fin, fsub_fin, fadd_fin.
    assert (Hpos : 0 < mx - mn) by lra.
    eexists. split; [reflexivity|].
    assert (E : Qred (Qred (v * Qred (1 / Qred (mx - mn)))
                      + Qred (0 - Qred (mn * Qred (1 / Qred (mx - mn)))))
                == (v - mn) / (mx - mn))
      by (rewrite !Qred_correct; field; lra).
    rewrite E. repeat split; try done; try lra.
    apply Qle_shift_div_l; lra.
Qed.

Local Close Scope Q_scope.

Lemma not_inf_existsb l :
  Forall not_inf l ->
  existsb (fun x => match x with PInf | NInf => true | _ => false end) l = false.
Proof.
  induction 1 as [|x l [H1 H2] _ IH]; simpl; [done|].
  rewrite IH. by destruct x.
Qed.

Lemma check_array_ok c o h l v :
  1 <= length c ->
  Forall not_inf c -> Forall not_inf o -> Forall not_inf h ->
  Forall not_inf l -> Forall not_inf v ->
  check_array [c; o; h; l; v] = Ok tt.
Proof.
  intros Hn Hc Ho Hh Hl Hv. unfold check_array, n_samples.
  destruct (Nat.eqb_spec (length c) 0) as [E|_]; [lia|].
  cbn [existsb]. by rewrite !not_inf_existsb.
Qed.

Lemma fit_transform_five c o h l v :
  check_array [c; o; h; l; v] = Ok tt ->
  fit_transform [c; o; h; l; v]
  = Ok [minmax_column c; minmax_column o; minmax_column h;
        minmax_column l; minmax_column v].
Proof. intros H. unfold fit_transform, fit. by rewrite H. Qed.

Lemma feature_Some df c l :
  feature df c = Some l <-> has_floats df c l.
Proof.
  unfold feature, has_floats. split.
  - destruct (assoc c (columns df)) as [[| l0 |]|]; try done.
    destruct (decide (length l0 = nrows df)); [|done]. by intros [= ->].
  - intros [-> Hl]. by rewrite decide_True.
Qed.

Lemma normalize_data_acts d (items : dict) D :
  D !! d = Some items -> NoDup items.*1 ->
  acts_inplace items D normalize_effect (fun ticker data =>
    let* df := get_frame data in
    let* sub := lift (df_select df feature_columns) in
    let* X := lift (rmap (fun kc => floats kc.2) (columns sub)) in
    let* Y := lift (fit_transform X) in
    let* target := dict_get d ticker in
    for_each (zip feature_columns Y)
             (fun cy => setitem target cy.1 (NumCol cy.2))).
Proof.
  intros HDd Hnd k a st df df' ev Hin HD Hdf Hf. unfold normalize_effect in Hf.
  destruct (feature df "Close") as [c|] eqn:Hc; [|done].
  destruct (feature df "Open") as [o|] eqn:Ho; [|done].
  destruct (feature df "High") as [h|] eqn:Hh; [|done].
  destruct (feature df "Low") as [l|] eqn:Hl; [|done].
  destruct (feature df "Volume") as [v|] eqn:Hv; [|done].
  cbn [mbind option_bind] in Hf.
  destruct (check_array [c; o; h; l; v]) as [[]|] eqn:Hca; [|done].
  inversion Hf; subst df' ev; clear Hf.
  apply feature_Some in Hc as [Hc Hlc], Ho as [Ho Hlo], Hh as [Hh Hlh],
    Hl as [Hl Hll], Hv as [Hv Hlv].
  revert st HD Hdf. eapply step_eq.
  - eapply step_bind; [apply step_get_frame|].
    eapply step_bind.
    { eapply step_lift. unfold df_select, df_getitem. cbn [rmap feature_columns].
      rewrite Hc, Ho, Hh, Hl, Hv. reflexivity. }
    eapply step_bind; [eapply step_lift; reflexivity|].
    eapply step_bind; [eapply step_lift; by apply fit_transform_five|].
    eapply step_bind.
    { eapply step_dict_get; [exact HDd|]. by apply assoc_elem_of. }
    cbn [for_each zip zip_with feature_columns fst snd].
    repeat (eapply step_bind;
            [apply step_setitem; simpl; by rewrite minmax_column_length|]).
    apply step_ret.
  - reflexivity.
  - reflexivity.
Qed.

Lemma normalizable_effect k df :
  normalizable df ->
  exists c o h l v,
    has_floats df "Close" c /\ has_floats df "Open" o /\ has_floats df "High" h
    /\ has_floats df "Low" l /\ has_floats df "Volume" v
    /\ normalize_effect k df
       = Some (with_column (with_column (with_column (with_column (with_column df
                 "Close" (NumCol (minmax_column c)))
                 "Open" (NumCol (minmax_column o)))
                 "High" (NumCol (minmax_column h)))
                 "Low" (NumCol (minmax_column l)))
                 "Volume" (NumCol (minmax_column v)), []).
Proof.
  intros [Hrows Hcols].
  destruct (Hcols "Close") as (c & Hc & Hfc); [unfold feature_columns; repeat constructor|].
  destruct (Hcols "Open") as (o & Ho & Hfo); [unfold feature_columns; repeat constructor|].
  destruct (Hcols "High") as (h & Hh & Hfh); [unfold feature_columns; repeat constructor|].
  destruct (Hcols "Low") as (l & Hl & Hfl); [unfold feature_columns; repeat constructor|].
  destruct (Hcols "Volume") as (v & Hv & Hfv); [unfold feature_columns; repeat constructor|].
  exists c, o, h, l, v. repeat (split; [done|]).
  unfold normalize_effect.
  rewrite (proj2 (feature_Some _ _ _) Hc), (proj2 (feature_Some _ _ _) Ho),
    (proj2 (feature_Some _ _ _) Hh), (proj2 (feature_Some _ _ _) Hl),
    (proj2 (feature_Some _ _ _) Hv).
  cbn [mbind option_bind]. rewrite check_array_ok; try done.
  destruct Hc as [_ ->]. done.
Qed.




Lemma finites_replicate n c : finites (replicate n (Fin c)) = replicate n c.
Proof.
  unfold finites. induction n as [|n IH]; [done|]. cbn. cbn in IH. by rewrite IH.
Qed.

Lemma Qlist_min_replicate n c : Qlist_min c (replicate n c) = c.
Proof.
  unfold Qlist_min. induction n as [|n IH]; [done|]. simpl. rewrite IH.
  unfold Qmin, GenericMinMax.gmin.
  by rewrite (proj1 (Qeq_alt c c) (Qeq_refl c)).
Qed.

Lemma Qlist_max_replicate n c : Qlist_max c (replicate n c) = c.
Proof.
  unfold Qlist_max. induction n as [|n IH]; [done|]. simpl. rewrite IH.
  unfold Qmax, GenericMinMax.gmax.
  by rewrite (proj1 (Qeq_alt c c) (Qeq_refl c)).
Qed.

(** A column that is 5.0 in every row becomes 0.0 in every row, whatever the
    number of rows. *)
Lemma minmax_column_constant n :
  minmax_column (replicate n (Fin 5)) = replicate n (Fin 0).
Proof.
  unfold minmax_column. destruct n as [|n]; [done|].
  unfold nanmin, nanmax. rewrite finites_replicate.
  change (replicate (S n) 5%Q) with (5%Q :: replicate n 5%Q). cbv iota.
  rewrite Qlist_min_replicate, Qlist_max_replicate.
  by rewrite map_replicate.
Qed.


(** The two examples of the specification come out exactly in double
    precision as well, with a missing value left in place; and a range that
    overflows gives a scale of 0 and a column of zeros. *)
Remark scaled_examples_in_doubles :
  Double.minmax_column [10; 20; 30]%float = [0; 0.5; 1]%float
  /\ Double.minmax_column [5; 5; 5]%float = [0; 0; 0]%float
  /\ Double.minmax_column [10; nan; 30]%float = [0; nan; 1]%float
  /\ Double.minmax_column
       [- 0x1.fffffffffffffp+1023; 0; 0x1.fffffffffffffp+1023]%float
     = [0; 0; 0]%float.
Proof. repeat split; reflexivity. Qed.

(** Scaling a scaled column again is not the identity in double precision:
    [3, 7, 10] becomes [0, 0.5714285714285714, 0.9999999999999998], and then
    [0, 0.5714285714285715, 1]. *)
Remark scaling_twice_in_doubles :
  Double.minmax_column [3; 7; 10]%float
  = [0; 0x1.2492492492492p-1; 0x1.ffffffffffffep-1]%float
  /\ Double.minmax_column (Double.minmax_column [3; 7; 10]%float)
     = [0; 0x1.2492492492493p-1; 1]%float.
Proof. split; reflexivity. Qed.

(** ** Separation (C7) *)

Lemma bind_step {A B} D a (m : M A) (k : A -> M B) df x df1 ev1 st :
  step D a m df x df1 ev1 -> dicts st = D -> frames st !! a = Some df ->
  bind m k st = k x (touch st a df1 ev1).
Proof. intros H HD Hdf. unfold bind. by rewrite (H st HD Hdf). Qed.

Lemma RangeIndex_length n : length (RangeIndex n) = n.
Proof. unfold RangeIndex. by rewrite length_map, length_seq. Qed.

Lemma assoc_set_elem_of {A} k (v : A) l k' v' :
  (k', v') ∈ assoc_set k v l -> (k' = k /\ v' = v) \/ (k', v') ∈ l.
Proof.
  induction l as [|[k0 v0] l IH]; simpl.
  - intros [=]%list_elem_of_singleton. by left.
  - destruct (decide (k = k0)) as [->|Hne].
    + intros [[=]|Hin]%elem_of_cons; [by left|]. right. by right.
    + intros [[=]|Hin]%elem_of_cons.
      * subst. right. by left.
      * destruct (IH Hin) as [?|?]; [by left|]. right. by right.
Qed.

Lemma assoc_set_keys {A} k (v : A) l k' :
  k' ∈ (assoc_set k v l).*1 <-> k' = k \/ k' ∈ l.*1.
Proof.
  destruct (decide (k ∈ l.*1)) as [Hin|Hnot].
  - rewrite assoc_set_keys_known by done. split; [by right|].
    by intros [->|?].
  - rewrite assoc_set_keys_new by done.
    rewrite fmap_app, elem_of_app. simpl. rewrite list_elem_of_singleton.
    split; (intros [?|?]; [by right|by left]).
Qed.

Lemma assoc_set_NoDup_keys {A} k (v : A) l :
  NoDup l.*1 -> NoDup (assoc_set k v l).*1.
Proof.
  intros Hnd. destruct (decide (k ∈ l.*1)) as [Hin|Hnot].
  - by rewrite assoc_set_keys_known.
  - rewrite assoc_set_keys_new by done. rewrite fmap_app. simpl.
    apply NoDup_app. split; [done|]. split; [|apply NoDup_singleton].
    intros x Hx ->%list_elem_of_singleton. done.
Qed.

Lemma assoc_set_NoDup_values {A} k (v : A) l :
  NoDup l.*2 -> v ∉ l.*2 -> NoDup (assoc_set k v l).*2.
Proof.
  induction l as [|[k0 v0] l IH]; simpl.
  - intros _ _. apply NoDup_singleton.
  - intros [Hv0 Hnd]%NoDup_cons [Hne Hv]%not_elem_of_cons.
    destruct (decide (k = k0)) as [->|Hk]; simpl.
    + apply NoDup_cons. by split.
    + apply NoDup_cons. split; [|by apply IH].
      intros Hin. apply list_elem_of_fmap in Hin as ([k1 v1] & Heq & Hin).
      simpl in Heq. subst v1.
      apply assoc_set_elem_of in Hin as [[_ ->]|Hin]; [done|].
      apply Hv0. by apply (list_elem_of_fmap_2 snd) in Hin.
Qed.

Lemma create_loop d T body :
  creates d T body ->
  forall (tickers : list string) st (cur : dict),
    dicts st !! d = Some cur ->
    (forall t, t ∈ tickers -> is_Some (T t)) ->
    NoDup cur.*1 -> NoDup cur.*2 ->
    (forall k a, (k, a) ∈ cur -> a < length (frames st) /\ frames st !! a = T k) ->
    exists st' (cur' : dict),
      for_each tickers body st = (Ok tt, st')
      /\ dicts st' !! d = Some cur'
      /\ frames st `prefix_of` frames st'
      /\ out st' = out st
      /\ NoDup cur'.*1 /\ NoDup cur'.*2
      /\ (forall k a, (k, a) ∈ cur' ->
            a < length (frames st') /\ frames st' !! a = T k)
      /\ (forall k, k ∈ cur'.*1 <-> k ∈ cur.*1 \/ k ∈ tickers)
      /\ (forall k, k ∉ tickers -> assoc k cur' = assoc k cur)
      /\ (forall k a, (k, a) ∈ cur' -> k ∈ tickers -> length (frames st) <= a).
Proof.
  intros Hbody. induction tickers as [|t tickers IH];
    intros st cur Hd HT Hk Hv Hcur.
  - exists st, cur. simpl.
    split; [done|]. split; [done|]. split; [done|]. split; [done|].
    split; [done|]. split; [done|]. split; [exact Hcur|].
    split; [|split; [done|]].
    + intros k. split; [by left|]. by intros [?|?%elem_of_nil].
    + by intros k a _ ?%elem_of_nil.
  - destruct (HT t) as [df Hdf]; [left|].
    pose proof (Hbody t st df cur Hdf Hd) as Hrun.
    set (a0 := length (frames st)) in *.
    set (st1 := {| frames := frames st ++ [df];
                   dicts := <[d := assoc_set t a0 cur]> (dicts st);
                   out := out st |}) in *.
    destruct (IH st1 (assoc_set t a0 cur))
      as (st' & cur' & Hfor & Hd' & Hpre & Hout & Hk' & Hv' & Hcur' & Hkeys
          & Hsame & Hnew).
    + simpl. apply list_lookup_insert_eq. by eapply lookup_lt_Some.
    + intros t' Hin. apply HT. by right.
    + by apply assoc_set_NoDup_keys.
    + apply assoc_set_NoDup_values; [done|].
      intros Hin. apply list_elem_of_fmap in Hin as ([k1 a1] & Heq & Hin).
      simpl in Heq. subst a1. apply Hcur in Hin as [Hlt _]. unfold a0 in Hlt. lia.
    + intros k a Hin. simpl. rewrite length_app. simpl.
      apply assoc_set_elem_of in Hin as [[-> ->]|Hin].
      * split; [unfold a0; lia|]. rewrite Hdf. apply lookup_last.
      * apply Hcur in Hin as [Hlt Hlook]. split; [lia|].
        by rewrite lookup_app_l.
    + exists st', cur'. simpl. unfold bind. rewrite Hrun.
      split; [done|]. split; [done|].
      split; [etrans; [|exact Hpre]; by apply prefix_app_r|].
      split; [done|]. split; [done|]. split; [done|]. split; [exact Hcur'|].
      split; [|split].
      * intros k. rewrite Hkeys, assoc_set_keys, elem_of_cons. tauto.
      * intros k [Hne Hnot]%not_elem_of_cons. rewrite Hsame by done.
        by apply assoc_set_ne.
      * intros k a Hin Hk0.
        destruct (decide (k ∈ tickers)) as [Hin'|Hnot].
        -- specialize (Hnew k a Hin Hin'). simpl in Hnew.
           rewrite length_app in Hnew. simpl in Hnew. unfold a0. lia.
        -- apply elem_of_cons in Hk0 as [->|?]; [|done].
           pose proof (assoc_elem_of _ _ _ Hk' Hin) as Ha.
           rewrite Hsame, assoc_set_eq in Ha by done. inversion Ha. done.
Qed.

Lemma step_then {A B} D a (m : M A) (k : A -> M B) df x df1 ev1 st r :
  step D a m df x df1 ev1 -> dicts st = D -> frames st !! a = Some df ->
  k x (touch st a df1 ev1) = r -> bind m k st = r.
Proof. intros H HD Hdf <-. by eapply bind_step. Qed.

Lemma separate_data_creates h d :
  creates d (table_of h) (fun ticker =>
    let* close := lift (hist_get h "Close" ticker) in
    let* df := lift (reset_index (h_dates h) ticker close) in
    let* data := new_frame df in
    (let* df := get_frame data in
     let* df' := lift (df_set_columns df ["Date"; "Close"]) in
     put_frame data df') >>
    (let* v := lift (hist_get h "Open" ticker) in
     setitem data "Open" (NumCol v)) >>
    (let* v := lift (hist_get h "High" ticker) in
     setitem data "High" (NumCol v)) >>
    (let* v := lift (hist_get h "Low" ticker) in
     setitem data "Low" (NumCol v)) >>
    (let* v := lift (hist_get h "Volume" ticker) in
     setitem data "Volume" (NumCol v)) >>
    dict_set d ticker data).
Proof.
  intros t st df cur HT Hd. unfold table_of in HT.
  destruct (hist_get h "Close" t) as [c|] eqn:Hc; [|done].
  destruct (hist_get h "Open" t) as [o|] eqn:Ho; [|done].
  destruct (hist_get h "High" t) as [hi|] eqn:Hhi; [|done].
  destruct (hist_get h "Low" t) as [lo|] eqn:Hlo; [|done].
  destruct (hist_get h "Volume" t) as [v|] eqn:Hv; [|done].
  cbv zeta in HT.
  destruct (decide _) as [(Ht & Hlo' & Hlhi & Hllo & Hlv)|]; [|done].
  inversion HT; subst df; clear HT.
  erewrite bind_ok; [|reflexivity].
  erewrite bind_ok; [|unfold lift, reset_index; by rewrite decide_False].
  erewrite bind_ok; [|reflexivity].
  set (a0 := length (frames st)).
  set (n := length (h_dates h)) in *.
  assert (Hlook : forall (fs : list DataFrame) x,
            length fs = S a0 -> <[a0 := x]> fs !! a0 = Some x).
  { intros fs x Hfs. apply list_lookup_insert_eq. lia. }
  eapply (step_then (dicts st) a0); [|reflexivity|apply lookup_last|].
  { eapply step_bind; [apply step_get_frame|].
    eapply step_bind; [apply step_lift; reflexivity|apply step_put_frame]. }
  eapply (step_then (dicts st) a0);
    [|reflexivity
     |simpl; apply Hlook; rewrite ?length_insert, length_app; simpl; unfold a0; lia|].
  { eapply step_bind; [by apply step_lift|].
    apply step_setitem. unfold nrows. simpl. by rewrite RangeIndex_length. }
  eapply (step_then (dicts st) a0);
    [|reflexivity
     |simpl; apply Hlook; rewrite ?length_insert, length_app; simpl; unfold a0; lia|].
  { eapply step_bind; [by apply step_lift|].
    apply step_setitem. unfold nrows. simpl. by rewrite RangeIndex_length. }
  eapply (step_then (dicts st) a0);
    [|reflexivity
     |simpl; apply Hlook; rewrite ?length_insert, length_app; simpl; unfold a0; lia|].
  { eapply step_bind; [by apply step_lift|].
    apply step_setitem. unfold nrows. simpl. by rewrite RangeIndex_length. }
  eapply (step_then (dicts st) a0);
    [|reflexivity
     |simpl; apply Hlook; rewrite ?length_insert, length_app; simpl; unfold a0; lia|].
  { eapply step_bind; [by apply step_lift|].
    apply step_setitem. unfold nrows. simpl. by rewrite RangeIndex_length. }
  rewrite !touch_touch. unfold dict_set, bind, get_dict, touch. simpl.
  rewrite Hd, app_nil_r.
  rewrite insert_app_r_alt by (unfold a0; lia).
  unfold a0. rewrite Nat.sub_diag. reflexivity.
Qed.

Lemma aligned_table_of h t :
  aligned h t ->
  exists c o hi lo v,
    hist_get h "Close" t = Ok c /\ hist_get h "Open" t = Ok o
    /\ hist_get h "High" t = Ok hi /\ hist_get h "Low" t = Ok lo
    /\ hist_get h "Volume" t = Ok v
    /\ Forall (fun s => length s = length (h_dates h)) [c; o; hi; lo; v]
    /\ table_of h t
       = Some {| index := RangeIndex (length (h_dates h));
                 columns := [("Date", DateCol (h_dates h));
                             ("Close", NumCol c); ("Open", NumCol o);
                             ("High", NumCol hi); ("Low", NumCol lo);
                             ("Volume", NumCol v)] |}.
Proof.
  intros [Ht Hf].
  destruct (Hf "Close") as (c & Hc & Hlc); [unfold feature_columns; repeat constructor|].
  destruct (Hf "Open") as (o & Ho & Hlo); [unfold feature_columns; repeat constructor|].
  destruct (Hf "High") as (hi & Hhi & Hlhi); [unfold feature_columns; repeat constructor|].
  destruct (Hf "Low") as (lo & Hlow & Hllo); [unfold feature_columns; repeat constructor|].
  destruct (Hf "Volume") as (v & Hv & Hlv); [unfold feature_columns; repeat constructor|].
  exists c, o, hi, lo, v. repeat (split; [done|]).
  split; [by repeat constructor|].
  unfold table_of. rewrite Hc, Ho, Hhi, Hlow, Hv. cbv zeta.
  by rewrite decide_True.
Qed.

(** C7.  For every ticker of the list, [separate_data] builds a table of its
    own (no two tickers share one, and no earlier table is touched) whose
    columns are Date, Close, Open, High, Low, Volume in that order, with one
    row per date of the download, the five series side by side on those
    dates, and the rows numbered 0, 1, 2, ... instead of indexed by date. *)
Theorem separate_data_tables
    (historical_data : Historical) (tickers : list string) (st : store) :
  (forall t, t ∈ tickers -> aligned historical_data t) ->
  exists st' (items : dict),
    separate_data historical_data tickers st = (Ok (length (dicts st)), st')
    /\ dicts st' !! length (dicts st) = Some items
    /\ (forall t, t ∈ items.*1 <-> t ∈ tickers)
    /\ NoDup items.*1 /\ NoDup items.*2
    /\ (forall a df, frames st !! a = Some df -> frames st' !! a = Some df)
    /\ forall t, t ∈ tickers ->
         exists a c o hi lo v,
           assoc t items = Some a
           /\ length (frames st) <= a
           /\ hist_get historical_data "Close" t = Ok c
           /\ hist_get historical_data "Open" t = Ok o
           /\ hist_get historical_data "High" t = Ok hi
           /\ hist_get historical_data "Low" t = Ok lo
           /\ hist_get historical_data "Volume" t = Ok v
           /\ frames st' !! a
              = Some {| index := RangeIndex (length (h_dates historical_data));
                        columns := [("Date", DateCol (h_dates historical_data));
                                    ("Close", NumCol c); ("Open", NumCol o);
                                    ("High", NumCol hi); ("Low", NumCol lo);
                                    ("Volume", NumCol v)] |}.
Proof.
  intros Hal.
  set (d := length (dicts st)).
  set (st1 := {| frames := frames st; dicts := dicts st ++ [[]]; out := out st |}).
  destruct (create_loop d (table_of historical_data) _
              (separate_data_creates historical_data d) tickers st1 [])
    as (st' & items & Hfor & Hd' & Hpre & _ & Hk & Hv & Hcur & Hkeys & _ & Hnew).
  - simpl. unfold d. by rewrite list_lookup_middle.
  - intros t Hin. destruct (aligned_table_of _ _ (Hal t Hin))
      as (c & o & hi & lo & v & _ & _ & _ & _ & _ & _ & E). by eexists.
  - apply NoDup_nil_2.
  - apply NoDup_nil_2.
  - by intros k a ?%elem_of_nil.
  - exists st', items. split.
    { unfold separate_data. erewrite bind_ok; [|reflexivity].
      erewrite bind_ok; [reflexivity|exact Hfor]. }
    split; [exact Hd'|]. split.
    { intros t. rewrite Hkeys. simpl. split; [|by right].
      by intros [?%elem_of_nil|?]. }
    split; [exact Hk|]. split; [exact Hv|]. split.
    { intros a df Hdf. by eapply prefix_lookup_Some. }
    intros t Hin.
    destruct (aligned_table_of _ _ (Hal t Hin))
      as (c & o & hi & lo & v & Hc & Ho & Hhi & Hlo & Hvol & _ & E).
    assert (Hkey : t ∈ items.*1) by (apply Hkeys; by right).
    apply list_elem_of_fmap in Hkey as ([t' a] & Heq & Hita). simpl in Heq. subst t'.
    exists a, c, o, hi, lo, v.
    split; [by apply assoc_elem_of|]. split; [by apply (Hnew t a)|].
    repeat (split; [done|]).
    destruct (Hcur t a Hita) as [_ Hlook]. by rewrite Hlook.
Qed.

Lemma example_download_aligned : aligned example_download "TSLA".
Proof.
  split; [done|]. intros f Hf. unfold feature_columns in Hf.
  repeat (apply elem_of_cons in Hf as [->|Hf]); [..|by apply elem_of_nil in Hf];
    (eexists; split; reflexivity).
Qed.

Lemma separate_data_witness :
  exists st' (items : dict),
    separate_data example_download ["TSLA"]
                  {| frames := []; dicts := []; out := [] |} = (Ok 0, st')
    /\ dicts st' !! 0 = Some items
    /\ items = [("TSLA", 0)]
    /\ frames st' !! 0
       = Some {| index := [Pos 0; Pos 1; Pos 2];
                 columns := [("Date", DateCol [0; 1; 2]%Z);
                             ("Close", NumCol [Fin 10; Fin 20; Fin 30]);
                             ("Open", NumCol [Fin 9; Fin 19; Fin 29]);
                             ("High", NumCol [Fin 11; Fin 21; Fin 31]);
                             ("Low", NumCol [Fin 8; Fin 18; Fin 28]);
                             ("Volume", NumCol [Fin 5; NaN; Fin 7])] |}.
Proof.
  destruct (separate_data_tables example_download ["TSLA"]
              {| frames := []; dicts := []; out := [] |})
    as (st' & items & Hrun & Hd & _).
  - intros t Hin. apply list_elem_of_singleton in Hin. subst t.
    exact example_download_aligned.
  - exists st', items. split; [exact Hrun|]. split; [exact Hd|].
    vm_compute in Hrun. inversion Hrun; subst st'.
    vm_compute in Hd. inversion Hd. split; reflexivity.
Defined.

(** * Further properties of the stages *)

(** ** Filling and dropping never write to a table *)

Lemma extends_refl st : extends st st.
Proof. by unfold extends. Qed.

Lemma extends_trans st1 st2 st3 : extends st1 st2 -> extends st2 st3 -> extends st1 st3.
Proof. unfold extends. intros H1 H2. by etrans. Qed.

Lemma extends_out st o :
  extends st {| frames := frames st; dicts := dicts st; out := o |}.
Proof. by unfold extends. Qed.

Lemma new_frame_extends df : keeps extends (new_frame df).
Proof. intros st. unfold extends. simpl. by apply prefix_app_r. Qed.

Lemma dict_set_extends d k a : keeps extends (dict_set d k a).
Proof.
  intros st. unfold dict_set, bind, get_dict, extends.
  by destruct (dicts st !! d).
Qed.

Lemma handle_missing_values_extends d method :
  keeps extends (handle_missing_values d method).
Proof.
  pose proof extends_refl as Hr. pose proof extends_trans as Ht.
  unfold handle_missing_values.
  apply keeps_bind; [done| |intros _; by apply keeps_ret].
  apply keeps_for_items; [done..|]. intros k a.
  destruct (decide (method = "drop")).
  - apply keeps_bind; [done|by apply keeps_get_frame|]. intros df.
    apply keeps_bind; [done|apply new_frame_extends|]. intros a'.
    apply dict_set_extends.
  - apply keeps_bind; [done|by apply keeps_get_frame|]. intros df.
    apply keeps_bind; [done|by apply keeps_lift|]. intros df'.
    apply keeps_bind; [done|apply new_frame_extends|]. intros a'.
    apply dict_set_extends.
Qed.

(** X1.  Whatever the method and the store, and whether it returns or
    raises, [handle_missing_values] leaves every existing table as it was:
    the cleaned tables are new objects, and a reference to an old table kept
    elsewhere still sees the missing values. *)
Theorem handle_missing_values_never_in_place
    (data_frames : addr) (method : string) (st : store) (a : addr)
    (df : DataFrame) :
  frames st !! a = Some df ->
  frames (handle_missing_values data_frames method st).2 !! a = Some df.
Proof.
  intros Hdf. eapply prefix_lookup_Some; [exact Hdf|].
  apply handle_missing_values_extends.
Qed.

Lemma handle_missing_values_never_in_place_witness :
  frames (handle_missing_values 0 "drop" (example_store [Fin 1; NaN; Fin 3])).2 !! 0
  = Some (example_frame [Fin 1; NaN; Fin 3]).
Proof.
  apply (handle_missing_values_never_in_place 0 "drop"
           (example_store [Fin 1; NaN; Fin 3]) 0).
  reflexivity.
Defined.

(** ** Forward and backward fill *)

Lemma fill_from_fold last l i :
  i < length l ->
  fill_from isnan last l !! i
  = Some (fold_left (fun acc x => if isnan x then acc else x) (take (S i) l) last).
Proof.
  revert last i. induction l as [|x l IH]; intros last i Hi; simpl in *; [lia|].
  destruct i as [|i]; simpl.
  - by destruct l.
  - apply IH. lia.
Qed.

(** A forward fill puts in each row the last present value up to that row. *)
Lemma ffill_last_valid l i :
  i < length l -> ffill l !! i = Some (last_valid (take (S i) l)).
Proof. apply fill_from_fold. Qed.

Lemma last_valid_rev l : last_valid (rev l) = next_valid l.
Proof.
  unfold last_valid, next_valid. rewrite <- (rev_involutive l) at 2.
  by rewrite fold_left_rev_right.
Qed.

(** A backward fill puts in each row the first present value from that row
    on. *)
Lemma bfill_next_valid l i :
  i < length l -> bfill l !! i = Some (next_valid (drop i l)).
Proof.
  intros Hi. unfold bfill. rewrite rev_alt.
  change (rev_append ?x []) with (reverse x).
  assert (Hlen : length (ffill (rev l)) = length l).
  { unfold ffill. by rewrite fill_from_length, length_rev. }
  rewrite reverse_lookup by lia. rewrite Hlen.
  rewrite ffill_last_valid by (rewrite length_rev; lia).
  replace (S (length l - S i)) with (length l - i) by lia.
  rewrite firstn_rev. replace (length l - (length l - i)) with i by lia.
  by rewrite last_valid_rev.
Qed.

Lemma handle_missing_values_fill_rebinds d method g :
  method <> "drop" ->
  (forall df, fillna df method = Ok (g df)) ->
  rebinds d g (fun ticker data =>
    if decide (method = "drop") then
      let* df := get_frame data in
      let* cleaned := new_frame (dropna df) in
      dict_set d ticker cleaned
    else
      let* df := get_frame data in
      let* df' := lift (fillna df method) in
      let* filled := new_frame df' in
      dict_set d ticker filled).
Proof.
  intros Hm Hg k a st df cur Hdf Hd. rewrite decide_False by done.
  unfold bind, get_frame, lift, new_frame, dict_set, bind, get_dict.
  rewrite Hdf, Hg. simpl. by rewrite Hd.
Qed.

Lemma handle_missing_values_fill_run d method g st (items : dict) k a df :
  method <> "drop" ->
  (forall df, fillna df method = Ok (g df)) ->
  dicts st !! d = Some items ->
  NoDup items.*1 ->
  (forall k a, (k, a) ∈ items -> is_Some (frames st !! a)) ->
  (k, a) ∈ items ->
  frames st !! a = Some df ->
  exists st' (items' : dict) a',
    handle_missing_values d method st = (Ok d, st')
    /\ dicts st' !! d = Some items'
    /\ assoc k items' = Some a'
    /\ frames st' !! a' = Some (g df).
Proof.
  intros Hm Hg Hd Hnd Hfr Hin Hdf.
  destruct (rebind_loop d g _ (handle_missing_values_fill_rebinds d method g Hm Hg)
              items st items Hd Hnd Hfr)
    as (st' & items' & Hfor & Hd' & _ & _ & Hnew & _).
  destruct (Hnew k a df Hin Hdf) as (a' & Ha' & _ & Hfa').
  exists st', items', a'. repeat split; try done.
  unfold handle_missing_values.
  erewrite bind_ok; [reflexivity|]. unfold for_items.
  erewrite bind_ok; [exact Hfor|]. unfold get_dict. by rewrite Hd.
Qed.

(** X2.  With the default method (['ffill']) every ticker is bound to a new
    table with the same rows and columns in which each float column holds,
    in row [i], the last present value of the original column up to row [i];
    rows before the first present value stay missing. *)
Theorem forward_fill_tables
    (st : store) (d : addr) (items : dict) (k : string) (a : addr)
    (df : DataFrame) :
  dicts st !! d = Some items ->
  NoDup items.*1 ->
  (forall k a, (k, a) ∈ items -> is_Some (frames st !! a)) ->
  (k, a) ∈ items ->
  frames st !! a = Some df ->
  exists st' (items' : dict) a' df',
    handle_missing_values_default d st = (Ok d, st')
    /\ dicts st' !! d = Some items'
    /\ assoc k items' = Some a'
    /\ frames st' !! a' = Some df'
    /\ index df' = index df
    /\ (columns df').*1 = (columns df).*1
    /\ forall c l, assoc c (columns df) = Some (NumCol l) ->
         exists l', assoc c (columns df') = Some (NumCol l')
                    /\ length l' = length l
                    /\ forall i, i < length l ->
                         l' !! i = Some (last_valid (take (S i) l)).
Proof.
  intros Hd Hnd Hfr Hin Hdf.
  destruct (handle_missing_values_fill_run d "ffill" (df_map_columns col_ffill)
              st items k a df) as (st' & items' & a' & Hrun & Hd' & Ha' & Hfa');
    try done.
  exists st', items', a', (df_map_columns col_ffill df).
  repeat (split; [done|]). split.
  { unfold df_map_columns. simpl. induction (columns df) as [|[c col] cols IH];
      simpl; [done|]. by f_equal. }
  intros c l Hc. exists (ffill l). split.
  { unfold df_map_columns. simpl. by rewrite assoc_map, Hc. }
  split; [unfold ffill; apply fill_from_length|].
  intros i Hi. by apply ffill_last_valid.
Qed.

Lemma forward_fill_witness :
  exists st' (items' : dict) a' df',
    handle_missing_values_default 0 (example_store [NaN; Fin 1; NaN; Fin 3; NaN])
    = (Ok 0, st')
    /\ dicts st' !! 0 = Some items'
    /\ assoc "TSLA" items' = Some a'
    /\ frames st' !! a' = Some df'
    /\ assoc "Close" (columns df') = Some (NumCol [NaN; Fin 1; Fin 1; Fin 3; Fin 3]).
Proof.
  destruct (forward_fill_tables (example_store [NaN; Fin 1; NaN; Fin 3; NaN]) 0
              [("TSLA", 0)] "TSLA" 0 (example_frame [NaN; Fin 1; NaN; Fin 3; NaN]))
    as (st' & items' & a' & df' & Hrun & Hd & Ha & Hdf & _).
  - reflexivity.
  - apply NoDup_singleton.
  - intros k a Hin. apply list_elem_of_singleton in Hin. inversion Hin; subst.
    by eexists.
  - by apply list_elem_of_singleton.
  - reflexivity.
  - exists st', items', a', df'. repeat (split; [done|]).
    vm_compute in Hrun. inversion Hrun; subst st'.
    vm_compute in Hd. inversion Hd; subst items'.
    vm_compute in Ha. inversion Ha; subst a'.
    vm_compute in Hdf. inversion Hdf; subst df'. reflexivity.
Defined.

(** X3.  With method ['bfill'] each float column of the new table holds, in
    row [i], the first present value of the original column from row [i]
    on; rows after the last present value stay missing. *)
Theorem backward_fill_tables
    (st : store) (d : addr) (items : dict) (k : string) (a : addr)
    (df : DataFrame) :
  dicts st !! d = Some items ->
  NoDup items.*1 ->
  (forall k a, (k, a) ∈ items -> is_Some (frames st !! a)) ->
  (k, a) ∈ items ->
  frames st !! a = Some df ->
  exists st' (items' : dict) a' df',
    handle_missing_values d "bfill" st = (Ok d, st')
    /\ dicts st' !! d = Some items'
    /\ assoc k items' = Some a'
    /\ frames st' !! a' = Some df'
    /\ index df' = index df
    /\ forall c l, assoc c (columns df) = Some (NumCol l) ->
         exists l', assoc c (columns df') = Some (NumCol l')
                    /\ length l' = length l
                    /\ forall i, i < length l ->
                         l' !! i = Some (next_valid (drop i l)).
Proof.
  intros Hd Hnd Hfr Hin Hdf.
  destruct (handle_missing_values_fill_run d "bfill" (df_map_columns col_bfill)
              st items k a df) as (st' & items' & a' & Hrun & Hd' & Ha' & Hfa');
    try done.
  exists st', items', a', (df_map_columns col_bfill df).
  repeat (split; [done|]).
  intros c l Hc. exists (bfill l). split.
  { unfold df_map_columns. simpl. by rewrite assoc_map, Hc. }
  split.
  { unfold bfill, ffill. by rewrite length_rev, fill_from_length, length_rev. }
  intros i Hi. by apply bfill_next_valid.
Qed.

Lemma backward_fill_witness :
  exists st' (items' : dict) a' df',
    handle_missing_values 0 "bfill" (example_store [NaN; Fin 1; NaN; Fin 3; NaN])
    = (Ok 0, st')
    /\ dicts st' !! 0 = Some items'
    /\ assoc "TSLA" items' = Some a'
    /\ frames st' !! a' = Some df'
    /\ assoc "Close" (columns df') = Some (NumCol [Fin 1; Fin 1; Fin 3; Fin 3; NaN]).
Proof.
  destruct (backward_fill_tables (example_store [NaN; Fin 1; NaN; Fin 3; NaN]) 0
              [("TSLA", 0)] "TSLA" 0 (example_frame [NaN; Fin 1; NaN; Fin 3; NaN]))
    as (st' & items' & a' & df' & Hrun & Hd & Ha & Hdf & _).
  - reflexivity.
  - apply NoDup_singleton.
  - intros k a Hin. apply list_elem_of_singleton in Hin. inversion Hin; subst.
    by eexists.
  - by apply list_elem_of_singleton.
  - reflexivity.
  - exists st', items', a', df'. repeat (split; [done|]).
    vm_compute in Hrun. inversion Hrun; subst st'.
    vm_compute in Hd. inversion Hd; subst items'.
    vm_compute in Ha. inversion Ha; subst a'.
    vm_compute in Hdf. inversion Hdf; subst df'. reflexivity.
Defined.

(** ** Dropping rows *)

Lemma keep_map {A B} (f : A -> B) mask l :
  keep mask (map f l) = map f (keep mask l).
Proof.
  revert l. induction mask as [|b mask IH]; intros [|x l]; simpl; try done.
  destruct b; simpl; by rewrite IH.
Qed.

Lemma keep_sublist {A} mask (l : list A) : keep mask l `sublist_of` l.
Proof.
  revert l. induction mask as [|b mask IH]; intros [|x l]; simpl;
    try apply sublist_nil_l.
  destruct b; [by apply sublist_skip|by apply sublist_cons].
Qed.

Lemma keep_length {A B} mask (l1 : list A) (l2 : list B) :
  length l1 = length l2 -> length (keep mask l1) = length (keep mask l2).
Proof.
  revert l1 l2. induction mask as [|b mask IH]; intros [|x l1] [|y l2] H;
    simpl in *; try done.
  destruct b; simpl; rewrite (IH l1 l2); by try lia.
Qed.

Lemma keep_Forall {A} (P : A -> Prop) mask l :
  (forall i x, mask !! i = Some true -> l !! i = Some x -> P x) ->
  Forall P (keep mask l).
Proof.
  revert l. induction mask as [|b mask IH]; intros [|x l] H; simpl;
    try by constructor.
  assert (Hrest : forall i y, mask !! i = Some true -> l !! i = Some y -> P y)
    by (intros i y; apply (H (S i))).
  destruct b; [constructor|]; try by apply IH. by apply (H 0).
Qed.

Lemma col_isna_keep mask c : col_isna (col_keep mask c) = keep mask (col_isna c).
Proof. destruct c; simpl; by rewrite keep_map. Qed.

Lemma col_isna_length c : length (col_isna c) = col_length c.
Proof. destruct c; simpl; by rewrite length_map. Qed.

Lemma col_keep_length mask c (l : list label) :
  col_length c = length l -> col_length (col_keep mask c) = length (keep mask l).
Proof. destruct c; simpl; apply keep_length. Qed.

(** No row of [dropna df] has a missing value, in any column. *)
Lemma dropna_complete df c col :
  wf_frame df -> (c, col) ∈ columns (dropna df) ->
  Forall (fun b => b = false) (col_isna col).
Proof.
  intros Hwf Hin. unfold dropna, df_mask in Hin. simpl in Hin.
  apply list_elem_of_In, in_map_iff in Hin as ([c0 col0] & [= <- <-] & Hin0).
  apply list_elem_of_In in Hin0. simpl.
  rewrite col_isna_keep. apply keep_Forall. intros i b Hm Hb.
  rewrite list_lookup_fmap in Hm.
  destruct (seq 0 (nrows df) !! i) as [j|] eqn:Hj; [|done].
  apply lookup_seq in Hj as [-> _]. simpl in Hm.
  injection Hm as Hm. apply negb_true_iff in Hm.
  unfold row_has_na in Hm.
  destruct b; [|done]. exfalso.
  assert (existsb (fun kc => default false (col_isna kc.2 !! i)) (columns df)
          = true) as Hex; [|congruence].
  apply existsb_exists. exists (c0, col0). split; [by apply list_elem_of_In|].
  simpl. by rewrite Hb.
Qed.

Lemma dropna_wf df : wf_frame df -> wf_frame (dropna df).
Proof.
  unfold wf_frame, dropna, df_mask, nrows. simpl. intros Hwf.
  apply Forall_forall. intros [c col] Hin.
  apply list_elem_of_In, in_map_iff in Hin as ([c0 col0] & [= <- <-] & Hin0).
  simpl. apply col_keep_length.
  rewrite Forall_forall in Hwf. by apply (Hwf (c0, col0)), list_elem_of_In.
Qed.

(** X4.  After [handle_missing_values] with method ['drop'], the table bound
    to a ticker has no missing value left in any column (the counts that
    [check_missing_values] prints are all zero), is still rectangular, and
    its rows are rows of the original table, in their order and with their
    labels. *)
Theorem drop_leaves_no_missing_value
    (st : store) (d : addr) (items : dict) (k : string) (a : addr)
    (df : DataFrame) :
  dicts st !! d = Some items ->
  NoDup items.*1 ->
  (forall k a, (k, a) ∈ items -> is_Some (frames st !! a)) ->
  (k, a) ∈ items ->
  frames st !! a = Some df ->
  wf_frame df ->
  exists st' (items' : dict) a' df',
    handle_missing_values d "drop" st = (Ok d, st')
    /\ dicts st' !! d = Some items'
    /\ assoc k items' = Some a'
    /\ frames st' !! a' = Some df'
    /\ (forall c n, (c, n) ∈ isnull_sum df' -> n = 0)
    /\ wf_frame df'
    /\ index df' `sublist_of` index df.
Proof.
  intros Hd Hnd Hfr Hin Hdf Hwf.
  destruct (rebind_loop d dropna _ (handle_missing_values_drop_rebinds d)
              items st items Hd Hnd Hfr)
    as (st' & items' & Hfor & Hd' & _ & _ & Hnew & _).
  destruct (Hnew k a df Hin Hdf) as (a' & Ha' & _ & Hfa').
  exists st', items', a', (dropna df). split.
  { unfold handle_missing_values.
    erewrite bind_ok; [reflexivity|]. unfold for_items.
    erewrite bind_ok; [exact Hfor|]. unfold get_dict. by rewrite Hd. }
  repeat (split; [done|]). split; [|split].
  - intros c n Hcn. unfold isnull_sum in Hcn.
    apply list_elem_of_In, in_map_iff in Hcn as ([c0 col0] & [= <- <-] & Hin0).
    apply list_elem_of_In in Hin0. simpl.
    pose proof (dropna_complete df c0 col0 Hwf Hin0) as Hall.
    induction Hall as [|b bs -> _ IH]; [done|]. simpl. exact IH.
  - by apply dropna_wf.
  - unfold dropna, df_mask. simpl. apply keep_sublist.
Qed.

Lemma drop_leaves_no_missing_value_witness :
  exists st' (items' : dict) a' df',
    handle_missing_values 0 "drop" (example_store [NaN; Fin 1; NaN; Fin 3; NaN])
    = (Ok 0, st')
    /\ dicts st' !! 0 = Some items'
    /\ assoc "TSLA" items' = Some a'
    /\ frames st' !! a' = Some df'
    /\ index df' = [Pos 1; Pos 3]
    /\ assoc "Close" (columns df') = Some (NumCol [Fin 1; Fin 3]).
Proof.
  destruct (drop_leaves_no_missing_value
              (example_store [NaN; Fin 1; NaN; Fin 3; NaN]) 0
              [("TSLA", 0)] "TSLA" 0 (example_frame [NaN; Fin 1; NaN; Fin 3; NaN]))
    as (st' & items' & a' & df' & Hrun & Hd & Ha & Hdf & _).
  - reflexivity.
  - apply NoDup_singleton.
  - intros k a Hin. apply list_elem_of_singleton in Hin. inversion Hin; subst.
    by eexists.
  - by apply list_elem_of_singleton.
  - reflexivity.
  - apply example_frame_wf.
  - exists st', items', a', df'. repeat (split; [done|]).
    vm_compute in Hrun. inversion Hrun; subst st'.
    vm_compute in Hd. inversion Hd; subst items'.
    vm_compute in Ha. inversion Ha; subst a'.
    vm_compute in Hdf. inversion Hdf; subst df'. split; reflexivity.
Defined.

(** ** What the scaler refuses *)

Lemma check_array_raises (X : list (list float64)) :
  n_samples X = 0
  \/ (exists col x, col ∈ X /\ x ∈ col /\ (x = PInf \/ x = NInf)) ->
  exists msg, check_array X = Raise (ValueError msg).
Proof.
  intros H. unfold check_array.
  destruct (Nat.eqb_spec (n_samples X) 0) as [E|E]; [by eexists|].
  destruct H as [H|(col & x & Hcol & Hx & Hinf)]; [done|].
  assert (existsb (existsb (fun x => match x with PInf | NInf => true | _ => false end)) X
          = true) as ->; [|by eexists].
  apply existsb_exists. exists col. split; [by apply list_elem_of_In|].
  apply existsb_exists. exists x. split; [by apply list_elem_of_In|].
  by destruct Hinf as [-> | ->].
Qed.

(** X5.  [normalize_data] raises a [ValueError], and changes nothing, when
    the table of the first ticker has no row (for instance after every row
    was dropped) or holds an infinity in one of the five features. *)
Theorem normalize_data_rejects
    (st : store) (d : addr) (k : string) (a : addr) (items : dict)
    (df : DataFrame) (c o h l v : list float64) :
  dicts st !! d = Some ((k, a) :: items) ->
  frames st !! a = Some df ->
  assoc "Close" (columns df) = Some (NumCol c) ->
  assoc "Open" (columns df) = Some (NumCol o) ->
  assoc "High" (columns df) = Some (NumCol h) ->
  assoc "Low" (columns df) = Some (NumCol l) ->
  assoc "Volume" (columns df) = Some (NumCol v) ->
  length c = 0
  \/ (exists col x, col ∈ [c; o; h; l; v] /\ x ∈ col /\ (x = PInf \/ x = NInf)) ->
  exists msg, normalize_data d st = (Raise (ValueError msg), st).
Proof.
  intros Hd Hdf Hc Ho Hh Hl Hv Hbad.
  destruct (check_array_raises [c; o; h; l; v] Hbad) as [msg Hmsg].
  exists msg.
  unfold normalize_data, for_items, bind, get_dict. rewrite Hd.
  cbn [for_each fst snd]. unfold bind, get_frame. rewrite Hdf.
  unfold lift, df_select, df_getitem. cbn [rmap feature_columns].
  rewrite Hc, Ho, Hh, Hl, Hv. cbn [rbind columns rmap floats snd].
  unfold fit_transform, fit. by rewrite Hmsg.
Qed.

Lemma normalize_data_rejects_witness :
  exists msg,
    normalize_data 0 (example_store []) = (Raise (ValueError msg), example_store []).
Proof.
  apply (normalize_data_rejects (example_store []) 0 "TSLA" 0 []
           (example_frame []) [] [] [] [] []); try reflexivity.
  by left.
Defined.

(** ** Tables that already hold a column *)

Lemma assoc_set_same {A} k (v : A) l : assoc k l = Some v -> assoc_set k v l = l.
Proof.
  induction l as [|[k0 v0] l IH]; simpl; [done|].
  destruct (decide (k = k0)) as [->|Hne].
  - by intros [= ->].
  - intros H. by rewrite IH.
Qed.

Lemma with_column_same df c col :
  assoc c (columns df) = Some col -> with_column df c col = df.
Proof.
  intros H. unfold with_column. rewrite assoc_set_same by done. by destruct df.
Qed.

(** ** Rolling statistics at the edges *)

(** The two columns [analyze_volatility] leaves on each table. *)
Lemma analyze_volatility_columns st d (items : dict) window :
  dicts st !! d = Some items ->
  NoDup items.*2 ->
  (0 <= window)%Z ->
  (forall k a, (k, a) ∈ items ->
     exists df l dates, frames st !! a = Some df /\ has_floats df "Close" l
                        /\ assoc "Date" (columns df) = Some dates) ->
  exists st',
    analyze_volatility d window st = (Ok tt, st')
    /\ forall k a df l, (k, a) ∈ items -> frames st !! a = Some df ->
         has_floats df "Close" l ->
         exists m s,
           rolling_mean window l = Ok m /\ rolling_std window l = Ok s
           /\ frames st' !! a
              = Some (with_column (with_column df "Rolling Mean" (NumCol m))
                                  "Rolling Std" (StatCol s)).
Proof.
  intros Hd Hnd Hw Hok.
  destruct (for_items_inplace d items (volatility_effect window) _ st Hd Hnd
              (analyze_volatility_acts items (dicts st) window))
    as (st' & Hrun & _ & Hfr & _).
  - intros k a Hin. destruct (Hok k a Hin) as (df & l & dates & Hdf & [Hc Hl] & Hdt).
    exists df. unfold volatility_effect. rewrite Hc, Hdt, decide_True by done.
    unfold rolling_mean, rolling_std. rewrite !rolling_ok by done. by eexists.
  - exists st'. split; [exact Hrun|].
    intros k a df l Hin Hdf [Hc Hl].
    destruct (Hfr k a df Hin Hdf) as (df' & ev & Hf & Hdf').
    destruct (Hok k a Hin) as (df0 & l0 & dates & Hdf0 & _ & Hdt).
    rewrite Hdf in Hdf0. inversion Hdf0; subst df0.
    unfold volatility_effect in Hf. rewrite Hc, Hdt, decide_True in Hf by done.
    destruct (rolling_mean window l) as [m|] eqn:Hm; [|done].
    destruct (rolling_std window l) as [s|] eqn:Hs; [|done].
    inversion Hf; subst df' ev; clear Hf. by exists m, s.
Qed.

(** X7.  A negative window is refused: as soon as the dictionary has one
    table with a float ['Close'], [analyze_volatility] raises the
    [ValueError] of [rolling], before any column is written and before any
    figure is opened. *)
Theorem analyze_volatility_negative_window
    (st : store) (d : addr) (k : string) (a : addr) (items : dict)
    (df : DataFrame) (l : list float64) (window : Z) :
  dicts st !! d = Some ((k, a) :: items) ->
  frames st !! a = Some df ->
  assoc "Close" (columns df) = Some (NumCol l) ->
  (window < 0)%Z ->
  analyze_volatility d window st
  = (Raise (ValueError "window must be an integer 0 or greater"), st).
Proof.
  intros Hd Hdf Hc Hw.
  unfold analyze_volatility, for_items, bind, get_dict. rewrite Hd. simpl.
  unfold bind, derive, bind, getitem, bind, get_frame. rewrite Hdf.
  unfold lift, df_getitem. rewrite Hc. simpl.
  unfold rolling_mean, rolling.
  destruct (Z.ltb_spec window 0); [done|lia].
Qed.

Lemma analyze_volatility_negative_window_witness :
  analyze_volatility 0 (-5) (example_store [Fin 1; Fin 2; Fin 4])
  = (Raise (ValueError "window must be an integer 0 or greater"),
     example_store [Fin 1; Fin 2; Fin 4]).
Proof.
  apply (analyze_volatility_negative_window
           (example_store [Fin 1; Fin 2; Fin 4]) 0 "TSLA" 0 []
           (example_frame [Fin 1; Fin 2; Fin 4]) [Fin 1; Fin 2; Fin 4] (-5));
    [reflexivity..|lia].
Defined.

Lemma all_finite_missing l j x :
  l !! j = Some x -> (forall q, x <> Fin q) -> all_finite l = None.
Proof.
  intros Hj Hx. unfold all_finite.
  destruct (mapM _ l) as [qs|] eqn:E; [|done].
  apply mapM_Some in E.
  destruct (Forall2_lookup_l _ _ _ _ _ E Hj) as (q & _ & Hq).
  destruct x; try done. by destruct (Hx q0).
Qed.

Lemma window_at_missing w l i j :
  l !! j = Some NaN -> (j <= i)%nat -> (i < j + w)%nat -> window_at w l i = None.
Proof.
  intros Hj Hji Hiw. unfold window_at.
  destruct (Nat.eqb_spec w 0) as [Hw|Hw]; [done|].
  destruct (Nat.ltb_spec (i + 1) w) as [Hi|Hi]; [done|]. simpl.
  apply (all_finite_missing _ (j - (i + 1 - w)) NaN); [|done].
  rewrite lookup_take_lt by lia. rewrite lookup_drop.
  by replace (i + 1 - w + (j - (i + 1 - w)))%nat with j by lia.
Qed.

(** X8.  A missing close makes the rolling statistics undefined on every
    row whose window contains it: rows [j .. j + window - 1] for a close
    missing at row [j]. *)
Theorem missing_close_blanks_its_windows
    (st : store) (d : addr) (items : dict) (window : Z) :
  dicts st !! d = Some items ->
  NoDup items.*2 ->
  (0 <= window)%Z ->
  (forall k a, (k, a) ∈ items ->
     exists df l dates, frames st !! a = Some df /\ has_floats df "Close" l
                        /\ assoc "Date" (columns df) = Some dates) ->
  exists st',
    analyze_volatility d window st = (Ok tt, st')
    /\ forall k a df l, (k, a) ∈ items -> frames st !! a = Some df ->
         has_floats df "Close" l ->
         exists df' m s,
           frames st' !! a = Some df'
           /\ assoc "Rolling Mean" (columns df') = Some (NumCol m)
           /\ assoc "Rolling Std" (columns df') = Some (StatCol s)
           /\ forall j i, l !! j = Some NaN ->
                (j <= i)%nat -> (Z.of_nat i < Z.of_nat j + window)%Z ->
                (i < nrows df)%nat ->
                m !! i = Some NaN /\ s !! i = Some SNaN.
Proof.
  intros Hd Hnd Hw Hok.
  destruct (analyze_volatility_columns st d items window Hd Hnd Hw Hok)
    as (st' & Hrun & Hcols).
  exists st'. split; [exact Hrun|]. intros k a df l Hin Hdf Hl.
  destruct (Hcols k a df l Hin Hdf Hl) as (m & s & Hm & Hs & Hdf').
  eexists. exists m, s. split; [exact Hdf'|].
  split; [solve_assoc|]. split; [solve_assoc|].
  intros j i Hj Hji Hiw Hi. destruct Hl as [_ Hlen]. rewrite <- Hlen in Hi.
  rewrite (rolling_lookup _ _ _ _ _ _ Hm Hi), (rolling_lookup _ _ _ _ _ _ Hs Hi).
  by rewrite (window_at_missing _ l i j) by (done || lia).
Qed.

Lemma missing_close_blanks_its_windows_witness :
  exists st',
    analyze_volatility 0 2 (example_store [Fin 1; NaN; Fin 4; Fin 6]) = (Ok tt, st')
    /\ (df ← frames st' !! 0; assoc "Rolling Mean" (columns df))
       = Some (NumCol [NaN; NaN; NaN; Fin 5]).
Proof.
  destruct (missing_close_blanks_its_windows
              (example_store [Fin 1; NaN; Fin 4; Fin 6]) 0 [("TSLA", 0)] 2)
    as (st' & Hrun & _).
  - reflexivity.
  - apply NoDup_singleton.
  - lia.
  - intros k a Hin. apply list_elem_of_singleton in Hin. inversion Hin; subst.
    eexists _, _, _. split; [reflexivity|]. split; [split; reflexivity|reflexivity].
  - exists st'. split; [exact Hrun|].
    vm_compute in Hrun. inversion Hrun. reflexivity.
Defined.

Lemma window_at_one l i q :
  l !! i = Some (Fin q) -> window_at 1 l i = Some [q].
Proof.
  intros Hi. unfold window_at.
  destruct (Nat.ltb_spec (i + 1) 1) as [H|H]; [lia|]. simpl.
  replace (i + 1 - 1)%nat with i by lia.
  destruct (drop i l) as [|x r] eqn:E.
  - apply (f_equal (fun l => l !! 0%nat)) in E. rewrite lookup_drop in E.
    rewrite Nat.add_0_r, Hi in E. done.
  - apply (f_equal (fun l => l !! 0%nat)) in E. rewrite lookup_drop in E.
    rewrite Nat.add_0_r, Hi in E. simpl in E. inversion E; subst x.
    reflexivity.
Qed.

(** X9.  With a window of one row the rolling mean is the close itself and
    the rolling standard deviation is undefined on every row: the sample
    deviation ([ddof=1]) of a single observation does not exist. *)
Theorem window_of_one_has_no_deviation
    (st : store) (d : addr) (items : dict) :
  dicts st !! d = Some items ->
  NoDup items.*2 ->
  (forall k a, (k, a) ∈ items ->
     exists df l dates, frames st !! a = Some df /\ has_floats df "Close" l
                        /\ assoc "Date" (columns df) = Some dates) ->
  exists st',
    analyze_volatility d 1 st = (Ok tt, st')
    /\ forall k a df l, (k, a) ∈ items -> frames st !! a = Some df ->
         has_floats df "Close" l ->
         exists df' m s,
           frames st' !! a = Some df'
           /\ assoc "Rolling Mean" (columns df') = Some (NumCol m)
           /\ assoc "Rolling Std" (columns df') = Some (StatCol s)
           /\ forall i, (i < nrows df)%nat ->
                s !! i = Some SNaN
                /\ (l !! i = Some NaN -> m !! i = Some NaN)
                /\ forall q, l !! i = Some (Fin q) ->
                     exists y, m !! i = Some (Fin y) /\ (y == q)%Q.
Proof.
  intros Hd Hnd Hok.
  destruct (analyze_volatility_columns st d items 1 Hd Hnd ltac:(lia) Hok)
    as (st' & Hrun & Hcols).
  exists st'. split; [exact Hrun|]. intros k a df l Hin Hdf Hl.
  destruct (Hcols k a df l Hin Hdf Hl) as (m & s & Hm & Hs & Hdf').
  eexists. exists m, s. split; [exact Hdf'|].
  split; [solve_assoc|]. split; [solve_assoc|].
  intros i Hi. destruct Hl as [_ Hlen]. rewrite <- Hlen in Hi.
  rewrite (rolling_lookup _ _ _ _ _ _ Hm Hi), (rolling_lookup _ _ _ _ _ _ Hs Hi).
  change (Z.to_nat 1) with 1%nat.
  split; [|split].
  - destruct (window_at 1 l i) as [qs|] eqn:E; [|done].
    apply window_at_Some in E as [_ E]. unfold trailing in E.
    apply all_finite_Some in E.
    apply (f_equal length) in E. rewrite length_map, length_take in E.
    destruct (Nat.leb_spec (length qs) 1) as [H|H]; [done|lia].
  - intros Hnan. by rewrite (window_at_missing 1 l i i) by (done || lia).
  - intros q Hq. rewrite (window_at_one l i q Hq).
    eexists. split; [reflexivity|]. rewrite Qred_correct.
    unfold Qmean, Qsum, Qlen. simpl. field.
Qed.

Lemma window_of_one_has_no_deviation_witness :
  exists st',
    analyze_volatility 0 1 (example_store [Fin 1; Fin 2; Fin 4]) = (Ok tt, st')
    /\ (df ← frames st' !! 0; assoc "Rolling Std" (columns df))
       = Some (StatCol [SNaN; SNaN; SNaN]).
Proof.
  destruct (window_of_one_has_no_deviation
              (example_store [Fin 1; Fin 2; Fin 4]) 0 [("TSLA", 0)])
    as (st' & Hrun & _).
  - reflexivity.
  - apply NoDup_singleton.
  - intros k a Hin. apply list_elem_of_singleton in Hin. inversion Hin; subst.
    eexists _, _, _. split; [reflexivity|]. split; [split; reflexivity|reflexivity].
  - exists st'. split; [exact Hrun|].
    vm_compute in Hrun. inversion Hrun. reflexivity.
Defined.

(** ** Display and the closing-price plot *)

Lemma display_cleaned_data_unchanged d : keeps unchanged (display_cleaned_data d).
Proof. unfold display_cleaned_data. keeps_tac. Qed.

Lemma plot_closing_prices_unchanged d : keeps unchanged (plot_closing_prices d).
Proof. unfold plot_closing_prices, plot, getitem. keeps_tac. Qed.

(** X10.  [display_cleaned_data] and [plot_closing_prices] only read:
    whatever the store and the dictionary passed, and whether they return or
    raise, the tables and the dictionaries after the call are those before
    it. *)
Theorem display_and_plot_only_read (data_frames : addr) (st : store) :
  unchanged st (display_cleaned_data data_frames st).2
  /\ unchanged st (plot_closing_prices data_frames st).2.
Proof.
  split.
  - apply display_cleaned_data_unchanged.
  - apply plot_closing_prices_unchanged.
Qed.

Lemma report_loop (report : string -> DataFrame -> list event) body (items : dict) :
  (forall k a st df, frames st !! a = Some df ->
     body k a st
     = (Ok tt, {| frames := frames st; dicts := dicts st;
                  out := out st ++ report k df |})) ->
  forall st,
    (forall k a, (k, a) ∈ items -> is_Some (frames st !! a)) ->
    for_each items (fun kv => body kv.1 kv.2) st
    = (Ok tt, {| frames := frames st; dicts := dicts st;
                 out := out st ++ flat_map (fun kv =>
                          match frames st !! kv.2 with
                          | Some df => report kv.1 df
                          | None => []
                          end) items |}).
Proof.
  intros Hbody. induction items as [|[k a] items IH]; intros st Hfr; simpl.
  - rewrite app_nil_r. by destruct st.
  - destruct (Hfr k a) as [df Hdf]; [left|].
    unfold bind. rewrite (Hbody k a st df Hdf), Hdf.
    rewrite IH; simpl.
    + by rewrite <- app_assoc.
    + intros k1 a1 Hin. apply (Hfr k1 a1). by right.
Qed.

Lemma col_take_all n c : (col_length c <= n)%nat -> col_take n c = c.
Proof. destruct c; simpl; intros H; by rewrite take_ge. Qed.

Lemma head_short df : wf_frame df -> (nrows df <= 5)%nat -> head df = df.
Proof.
  destruct df as [idx cols]. unfold wf_frame, head, nrows. simpl.
  intros Hwf Hn. f_equal; [by apply take_ge|].
  induction Hwf as [|[c col] cols Hc Hwf IH]; simpl; [done|].
  simpl in Hc. rewrite col_take_all by lia. by rewrite IH.
Qed.

Lemma head_nrows df : nrows (head df) = (nrows df `min` 5)%nat.
Proof. unfold head, nrows. simpl. rewrite length_take. lia. Qed.

(** X11.  [display_cleaned_data] returns normally on every dictionary whose
    tables exist, and prints, ticker by ticker in dictionary order, a
    heading and the first rows of the table: at most five, and the whole
    table when it has no more than five rows. *)
Theorem display_cleaned_data_prints_heads
    (st : store) (d : addr) (items : dict) :
  dicts st !! d = Some items ->
  (forall k a, (k, a) ∈ items -> is_Some (frames st !! a)) ->
  display_cleaned_data d st
  = (Ok tt,
     {| frames := frames st; dicts := dicts st;
        out := out st ++ flat_map (fun kv =>
                 match frames st !! kv.2 with
                 | Some df =>
                     [Print ("Cleaned and Scaled Data for " ++ kv.1 ++ ":");
                      PrintFrame (head df)]
                 | None => []
                 end) items |})
  /\ forall k a df, (k, a) ∈ items -> frames st !! a = Some df ->
       nrows (head df) = (nrows df `min` 5)%nat
       /\ (wf_frame df -> (nrows df <= 5)%nat -> head df = df).
Proof.
  intros Hd Hfr. split.
  - unfold display_cleaned_data, for_items.
    erewrite bind_ok; [|unfold get_dict; by rewrite Hd].
    apply (report_loop
             (fun k df => [Print ("Cleaned and Scaled Data for " ++ k ++ ":");
                           PrintFrame (head df)])
             (fun ticker data =>
                emit (Print ("Cleaned and Scaled Data for " ++ ticker ++ ":")) >>
                let* df := get_frame data in
                emit (PrintFrame (head df)))); [|done].
    intros k a st0 df Hdf. unfold bind, emit, get_frame. simpl. rewrite Hdf.
    simpl. by rewrite <- app_assoc.
  - intros k a df _ _. split; [apply head_nrows|apply head_short].
Qed.

Lemma display_cleaned_data_prints_heads_witness :
  display_cleaned_data 0 (example_store [Fin 10; Fin 20; Fin 30])
  = (Ok tt,
     {| frames := [example_frame [Fin 10; Fin 20; Fin 30]];
        dicts := [[("TSLA", 0%nat)]];
        out := [Print "Cleaned and Scaled Data for TSLA:";
                PrintFrame (example_frame [Fin 10; Fin 20; Fin 30])] |}).
Proof.
  destruct (display_cleaned_data_prints_heads
              (example_store [Fin 10; Fin 20; Fin 30]) 0 [("TSLA", 0%nat)])
    as [Hrun _].
  - reflexivity.
  - intros k a Hin. apply list_elem_of_singleton in Hin. inversion Hin; subst.
    by eexists.
  - rewrite Hrun. reflexivity.
Defined.

(** ** Tables without a ['Close'] column *)

(** X12.  Every stage that computes from ['Close'] stops at the first table
    that lacks the column, with [KeyError: 'Close'].  [calculate_daily_returns],
    [analyze_volatility] and [detect_outliers] raise before they change or
    plot anything; [plot_closing_prices] has opened its figure by then. *)
Theorem stages_need_close
    (st : store) (d : addr) (k : string) (a : addr) (items : dict)
    (df : DataFrame) (window : Z) (threshold : Q) :
  dicts st !! d = Some ((k, a) :: items) ->
  frames st !! a = Some df ->
  assoc "Close" (columns df) = None ->
  calculate_daily_returns d st = (Raise (KeyError "Close"), st)
  /\ analyze_volatility d window st = (Raise (KeyError "Close"), st)
  /\ detect_outliers d threshold st = (Raise (KeyError "Close"), st)
  /\ (is_Some (assoc "Date" (columns df)) ->
      plot_closing_prices d st
      = (Raise (KeyError "Close"),
         {| frames := frames st; dicts := dicts st;
            out := out st ++ [PltFigure] |})).
Proof.
  intros Hd Hdf Hc. repeat split.
  - unfold calculate_daily_returns, for_items, bind, get_dict. rewrite Hd. simpl.
    unfold bind, derive, bind, getitem, bind, get_frame. rewrite Hdf.
    unfold lift, df_getitem. by rewrite Hc.
  - unfold analyze_volatility, for_items, bind, get_dict. rewrite Hd. simpl.
    unfold bind, derive, bind, getitem, bind, get_frame. rewrite Hdf.
    unfold lift, df_getitem. by rewrite Hc.
  - unfold detect_outliers, for_items, bind, get_dict. rewrite Hd. simpl.
    unfold bind, derive, bind, getitem, bind, get_frame. rewrite Hdf.
    unfold lift, df_getitem. by rewrite Hc.
  - intros [dates Hdt].
    unfold plot_closing_prices, for_items, bind, get_dict. rewrite Hd. simpl.
    unfold bind, emit, plot, bind, getitem, bind, get_frame, lift, df_getitem.
    simpl. rewrite Hdf, Hdt. simpl. rewrite Hdf, Hc. reflexivity.
Qed.

Lemma stages_need_close_witness :
  let st := {| frames := [{| index := [Pos 0]; columns := [("Date", DateCol [0%Z])] |}];
               dicts := [[("TSLA", 0%nat)]]; out := [] |} in
  calculate_daily_returns 0 st = (Raise (KeyError "Close"), st)
  /\ analyze_volatility 0 30 st = (Raise (KeyError "Close"), st)
  /\ detect_outliers 0 3 st = (Raise (KeyError "Close"), st).
Proof.
  intros st.
  destruct (stages_need_close st 0 "TSLA" 0 []
              {| index := [Pos 0]; columns := [("Date", DateCol [0%Z])] |} 30 3)
    as (H1 & H2 & H3 & _); [reflexivity..|].
  repeat split; assumption.
Defined.

(** ** Method names *)

(** X13.  ['drop'] is recognised only as written; every other name goes to
    [fillna], which lower-cases it and accepts the pad and backfill families
    alone.  So a name that is neither ['drop'] nor, in lower case, one of
    ['ffill'], ['pad'], ['bfill'], ['backfill'] -- ['DROP'] for one -- raises a
    [ValueError] at the first table and changes nothing. *)
Theorem unknown_method_raises
    (st : store) (d : addr) (k : string) (a : addr) (items : dict)
    (df : DataFrame) (method : string) :
  dicts st !! d = Some ((k, a) :: items) ->
  frames st !! a = Some df ->
  method <> "drop" ->
  lower method ∉ ["ffill"; "pad"; "bfill"; "backfill"] ->
  exists msg, handle_missing_values d method st = (Raise (ValueError msg), st).
Proof.
  intros Hd Hdf Hm Hl.
  unfold handle_missing_values, for_items, bind, get_dict. rewrite Hd. simpl.
  rewrite decide_False by done.
  unfold bind, get_frame. rewrite Hdf. unfold lift, fillna.
  rewrite decide_False.
  2:{ intros [E|E]; apply Hl; rewrite E; repeat constructor. }
  rewrite decide_False.
  2:{ intros [E|E]; apply Hl; rewrite E; repeat constructor. }
  by eexists.
Qed.

Lemma unknown_method_raises_witness :
  exists msg,
    handle_missing_values 0 "DROP" (example_store [Fin 1; NaN; Fin 3])
    = (Raise (ValueError msg), example_store [Fin 1; NaN; Fin 3]).
Proof.
  apply (unknown_method_raises (example_store [Fin 1; NaN; Fin 3]) 0 "TSLA" 0 []
           (example_frame [Fin 1; NaN; Fin 3]) "DROP").
  - reflexivity.
  - reflexivity.
  - discriminate.
  - vm_compute. intros H.
    repeat (apply elem_of_cons in H as [H|H]; [discriminate H|]).
    by apply elem_of_nil in H.
Defined.

(** ** Daily returns, row by row *)

Lemma last_valid_app l x :
  last_valid (l ++ [x]) = if isnan x then last_valid l else x.
Proof. unfold last_valid. by rewrite fold_left_app. Qed.

(** The last present value stays what it is across missing rows. *)
Lemma last_valid_hold l i m p :
  l !! i = Some (Fin p) -> (i <= m)%nat ->
  (forall j, (i < j <= m)%nat -> l !! j = Some NaN) ->
  last_valid (take (S m) l) = Fin p.
Proof.
  intros Hi. induction m as [|m IH]; intros Him Hgap.
  - assert (i = 0)%nat as -> by lia.
    by rewrite (take_S_r _ _ _ Hi), last_valid_app.
  - destruct (decide (i = S m)) as [->|Hne].
    + by rewrite (take_S_r _ _ _ Hi), last_valid_app.
    + rewrite (take_S_r _ _ NaN) by (apply Hgap; lia).
      rewrite last_valid_app. simpl. apply IH; [lia|].
      intros j Hj. apply Hgap. lia.
Qed.

(** The change at a row compares the last present price up to that row with
    the last present price before it. *)
Lemma pct_change_lookup l i :
  (S i < length l)%nat ->
  pct_change l !! S i
  = Some (fsub (fdiv (last_valid (take (S (S i)) l)) (last_valid (take (S i) l)))
               (Fin 1)).
Proof.
  intros Hi. unfold pct_change. rewrite lookup_zip_with.
  rewrite shift1_succ by (unfold ffill; by rewrite fill_from_length).
  rewrite !ffill_last_valid by lia. reflexivity.
Qed.

Lemma percent_return_gap l i g p :
  l !! i = Some (Fin p) -> ~ (p == 0)%Q ->
  (forall j, (i < j <= i + g)%nat -> l !! j = Some NaN) ->
  (forall j, (i < j <= i + g)%nat -> (j < length l)%nat ->
     exists y, scale_by 100 (pct_change l) !! j = Some (Fin y) /\ (y == 0)%Q)
  /\ (forall c, l !! (i + g + 1)%nat = Some (Fin c) ->
        exists y, scale_by 100 (pct_change l) !! (i + g + 1)%nat = Some (Fin y)
                  /\ (y == (c - p) / p * 100)%Q).
Proof.
  intros Hi Hp Hgap. split.
  - intros [|j] Hj Hlen; [lia|].
    assert (Hy : exists y, pct_change l !! S j = Some (Fin y) /\ (y == 0)%Q).
    { rewrite pct_change_lookup by done.
      rewrite (last_valid_hold l i (S j) p), (last_valid_hold l i j p);
        try done; try lia; try (intros j' Hj'; apply Hgap; lia).
      rewrite fdiv_fin by done. rewrite fsub_fin.
      eexists. split; [reflexivity|]. rewrite !Qred_correct. by field. }
    destruct Hy as (y & Hy & E).
    destruct (scale_by_lookup 100 _ _ _ Hy) as (z & Hz & E').
    exists z. split; [done|]. rewrite E', E. ring.
  - intros c Hc.
    assert (Hlen : (i + g + 1 < length l)%nat) by by eapply lookup_lt_Some.
    assert (Hy : exists y, pct_change l !! (i + g + 1)%nat = Some (Fin y)
                           /\ (y == (c - p) / p)%Q).
    { replace (i + g + 1)%nat with (S (i + g)) in * by lia.
      rewrite pct_change_lookup by done.
      rewrite (take_S_r _ _ _ Hc), last_valid_app. cbn [isnan].
      rewrite (last_valid_hold l i (i + g) p); try done; try lia.
      rewrite fdiv_fin by done. rewrite fsub_fin.
      eexists. split; [reflexivity|]. rewrite !Qred_correct. by field. }
    destruct Hy as (y & Hy & E).
    destruct (scale_by_lookup 100 _ _ _ Hy) as (z & Hz & E').
    exists z. split; [done|]. by rewrite E', E.
Qed.

Lemma percent_return_zero l i p c :
  l !! i = Some (Fin p) -> (p == 0)%Q -> l !! S i = Some (Fin c) ->
  scale_by 100 (pct_change l) !! S i
  = Some (match (c ?= 0)%Q with Gt => PInf | Lt => NInf | Eq => NaN end).
Proof.
  intros Hi Hp Hc.
  assert (Hlen : (S i < length l)%nat) by by eapply lookup_lt_Some.
  unfold scale_by. rewrite list_lookup_fmap, pct_change_lookup by done.
  rewrite (take_S_r _ _ _ Hc), (take_S_r _ _ _ Hi), !last_valid_app. simpl.
  assert ((p ?= 0)%Q = Eq) as -> by by apply Qeq_alt.
  by destruct (c ?= 0)%Q.
Qed.

(** X14.  [calculate_daily_returns] writes one column, ['Daily Return'], and
    leaves the index and every other column as they were.  The first row of
    the column is undefined; on a row whose close [c] and previous close [p]
    are both present, with [p] not zero, it holds [(c - p) / p * 100]. *)
Theorem daily_returns_row_by_row (st : store) (d : addr) (items : dict) :
  dicts st !! d = Some items ->
  NoDup items.*2 ->
  (forall k a, (k, a) ∈ items ->
     exists df l dates, frames st !! a = Some df /\ has_floats df "Close" l
                        /\ assoc "Date" (columns df) = Some dates) ->
  exists st',
    calculate_daily_returns d st = (Ok tt, st')
    /\ forall k a df l, (k, a) ∈ items -> frames st !! a = Some df ->
         has_floats df "Close" l ->
         exists df' r,
           frames st' !! a = Some df'
           /\ has_floats df' "Daily Return" r
           /\ index df' = index df
           /\ (forall c, c <> "Daily Return" ->
                 assoc c (columns df') = assoc c (columns df))
           /\ ((0 < nrows df)%nat -> r !! 0%nat = Some NaN)
           /\ forall i p c,
                l !! i = Some (Fin p) -> l !! S i = Some (Fin c) -> ~ (p == 0)%Q ->
                exists y, r !! S i = Some (Fin y) /\ (y == (c - p) / p * 100)%Q.
Proof.
  intros Hd Hnd Hok.
  destruct (calculate_daily_returns_percent st d items Hd Hnd Hok)
    as (st' & Hrun & Hcol).
  exists st'. split; [exact Hrun|]. intros k a df l Hin Hdf Hl.
  pose proof (Hcol k a df l Hin Hdf Hl) as Hdf'. destruct Hl as [Hc Hlen].
  eexists. exists (scale_by 100 (pct_change l)). split; [exact Hdf'|].
  split; [split; [solve_assoc|]|].
  { simpl. by rewrite scale_by_length, pct_change_length. }
  split; [done|]. split.
  { intros c Hne. unfold with_column. simpl. by apply assoc_set_ne. }
  split.
  - intros Hpos. rewrite <- Hlen in Hpos. destruct l as [|x l]; [simpl in Hpos; lia|].
    apply percent_return_first.
  - intros i p c. apply percent_return_formula.
Qed.

Lemma daily_returns_row_by_row_witness :
  exists st',
    calculate_daily_returns 0 (example_store [Fin 100; Fin 110; Fin 99]) = (Ok tt, st')
    /\ (df ← frames st' !! 0; assoc "Daily Return" (columns df))
       = Some (NumCol [NaN; Fin 10; Fin (-10)]).
Proof.
  destruct (daily_returns_row_by_row
              (example_store [Fin 100; Fin 110; Fin 99]) 0 [("TSLA", 0%nat)])
    as (st' & Hrun & _).
  - reflexivity.
  - apply NoDup_singleton.
  - intros k a Hin. apply list_elem_of_singleton in Hin. inversion Hin; subst.
    eexists _, _, _. split; [reflexivity|]. split; [split; reflexivity|reflexivity].
  - exists st'. split; [exact Hrun|].
    vm_compute in Hrun. inversion Hrun. reflexivity.
Defined.

(** X15.  A missing close counts as the last present close.  After a
    present close [p], not zero, at row [i] and [g] rows of missing closes,
    the return is 0 on each of those rows, not missing; and the return of
    the next present close [c] is measured from [p]. *)
Theorem daily_returns_across_gaps (st : store) (d : addr) (items : dict) :
  dicts st !! d = Some items ->
  NoDup items.*2 ->
  (forall k a, (k, a) ∈ items ->
     exists df l dates, frames st !! a = Some df /\ has_floats df "Close" l
                        /\ assoc "Date" (columns df) = Some dates) ->
  exists st',
    calculate_daily_returns d st = (Ok tt, st')
    /\ forall k a df l, (k, a) ∈ items -> frames st !! a = Some df ->
         has_floats df "Close" l ->
         exists df' r,
           frames st' !! a = Some df'
           /\ assoc "Daily Return" (columns df') = Some (NumCol r)
           /\ forall i g p,
                l !! i = Some (Fin p) -> ~ (p == 0)%Q ->
                (forall j, (i < j <= i + g)%nat -> l !! j = Some NaN) ->
                (forall j, (i < j <= i + g)%nat -> (j < nrows df)%nat ->
                   exists y, r !! j = Some (Fin y) /\ (y == 0)%Q)
                /\ (forall c, l !! (i + g + 1)%nat = Some (Fin c) ->
                      exists y, r !! (i + g + 1)%nat = Some (Fin y)
                                /\ (y == (c - p) / p * 100)%Q).
Proof.
  intros Hd Hnd Hok.
  destruct (calculate_daily_returns_percent st d items Hd Hnd Hok)
    as (st' & Hrun & Hcol).
  exists st'. split; [exact Hrun|]. intros k a df l Hin Hdf Hl.
  pose proof (Hcol k a df l Hin Hdf Hl) as Hdf'. destruct Hl as [Hc Hlen].
  eexists. exists (scale_by 100 (pct_change l)). split; [exact Hdf'|].
  split; [solve_assoc|].
  intros i g p Hi Hp Hgap. rewrite <- Hlen. by apply percent_return_gap.
Qed.

Lemma daily_returns_across_gaps_witness :
  exists st',
    calculate_daily_returns 0 (example_store [Fin 100; NaN; NaN; Fin 110])
    = (Ok tt, st')
    /\ (df ← frames st' !! 0; assoc "Daily Return" (columns df))
       = Some (NumCol [NaN; Fin 0; Fin 0; Fin 10]).
Proof.
  destruct (daily_returns_across_gaps
              (example_store [Fin 100; NaN; NaN; Fin 110]) 0 [("TSLA", 0%nat)])
    as (st' & Hrun & _).
  - reflexivity.
  - apply NoDup_singleton.
  - intros k a Hin. apply list_elem_of_singleton in Hin. inversion Hin; subst.
    eexists _, _, _. split; [reflexivity|]. split; [split; reflexivity|reflexivity].
  - exists st'. split; [exact Hrun|].
    vm_compute in Hrun. inversion Hrun. reflexivity.
Defined.

(** X16.  A close of zero does not raise.  The return of the next row is
    then not a number but an infinity of the sign of that row's close, or
    undefined when that close is zero as well. *)
Theorem daily_returns_after_zero_close (st : store) (d : addr) (items : dict) :
  dicts st !! d = Some items ->
  NoDup items.*2 ->
  (forall k a, (k, a) ∈ items ->
     exists df l dates, frames st !! a = Some df /\ has_floats df "Close" l
                        /\ assoc "Date" (columns df) = Some dates) ->
  exists st',
    calculate_daily_returns d st = (Ok tt, st')
    /\ forall k a df l, (k, a) ∈ items -> frames st !! a = Some df ->
         has_floats df "Close" l ->
         exists df' r,
           frames st' !! a = Some df'
           /\ assoc "Daily Return" (columns df') = Some (NumCol r)
           /\ forall i p c,
                l !! i = Some (Fin p) -> (p == 0)%Q -> l !! S i = Some (Fin c) ->
                ((0 < c)%Q -> r !! S i = Some PInf)
                /\ ((c < 0)%Q -> r !! S i = Some NInf)
                /\ ((c == 0)%Q -> r !! S i = Some NaN).
Proof.
  intros Hd Hnd Hok.
  destruct (calculate_daily_returns_percent st d items Hd Hnd Hok)
    as (st' & Hrun & Hcol).
  exists st'. split; [exact Hrun|]. intros k a df l Hin Hdf Hl.
  pose proof (Hcol k a df l Hin Hdf Hl) as Hdf'. destruct Hl as [Hc Hlen].
  eexists. exists (scale_by 100 (pct_change l)). split; [exact Hdf'|].
  split; [solve_assoc|].
  intros i p c Hi Hp Hc'. rewrite (percent_return_zero l i p c Hi Hp Hc').
  destruct (Qcompare_spec c 0) as [E|E|E]; repeat split; intros H; try done;
    exfalso; revert E H; clear; intros; lra.
Qed.

Lemma daily_returns_after_zero_close_witness :
  exists st',
    calculate_daily_returns 0 (example_store [Fin 0; Fin 5; Fin 0; Fin 0])
    = (Ok tt, st')
    /\ (df ← frames st' !! 0; assoc "Daily Return" (columns df))
       = Some (NumCol [NaN; PInf; Fin (-100); NaN]).
Proof.
  destruct (daily_returns_after_zero_close
              (example_store [Fin 0; Fin 5; Fin 0; Fin 0]) 0 [("TSLA", 0%nat)])
    as (st' & Hrun & _).
  - reflexivity.
  - apply NoDup_singleton.
  - intros k a Hin. apply list_elem_of_singleton in Hin. inversion Hin; subst.
    eexists _, _, _. split; [reflexivity|]. split; [split; reflexivity|reflexivity].
  - exists st'. split; [exact Hrun|].
    vm_compute in Hrun. inversion Hrun. reflexivity.
Defined.

(** ** Which returns are reported as unusual *)



(** In double precision a move of exactly 2 percent, from 100 to 102, is
    stored as 2.0000000000000018 and passes the test at threshold 2. *)
Remark two_percent_move_in_doubles :
  Double.percent_return 100 102 = 0x1.0000000000004p+1%float
  /\ Double.unusual 2 (Double.percent_return 100 102) = true.
Proof. split; reflexivity. Qed.



(** ** Z-scores of short and of incomplete series *)

Local Open Scope Q_scope.

Lemma Qsquare_nonneg a : 0 <= a * a.
Proof. Lqa.nra. Qed.

Lemma Qsquare_zero a : a * a <= 0 -> a == 0.
Proof.
  intros H. destruct (Qlt_le_dec a 0) as [Hn|Hp].
  - assert (0 < (- a) * (- a)) by (apply Qmult_lt_0_compat; lra). lra.
  - destruct (Qle_lt_or_eq _ _ Hp) as [Hlt|Heq]; [|by symmetry].
    assert (0 < a * a) by (by apply Qmult_lt_0_compat). lra.
Qed.

Lemma Qsum_cons x l : Qsum (x :: l) = x + Qsum l.
Proof. reflexivity. Qed.

Lemma Qlen_cons {A} (x : A) (l : list A) :
  inject_Z (Z.of_nat (length (x :: l))) == inject_Z (Z.of_nat (length l)) + 1.
Proof.
  simpl length. rewrite Nat2Z.inj_succ. unfold Z.succ. by rewrite inject_Z_plus.
Qed.

Lemma Qlen_app (l1 l2 : list Q) : Qlen (l1 ++ l2) == Qlen l1 + Qlen l2.
Proof.
  unfold Qlen. by rewrite length_app, Nat2Z.inj_add, inject_Z_plus.
Qed.

Lemma Qlen_cons_Q x l : Qlen (x :: l) == Qlen l + 1.
Proof. apply Qlen_cons. Qed.

Lemma Qlen_map (f : Q -> Q) l : Qlen (map f l) = Qlen l.
Proof. unfold Qlen. by rewrite length_map. Qed.

Lemma Qlen_nonneg l : 0 <= Qlen l.
Proof.
  unfold Qlen. change 0 with (inject_Z 0). rewrite <- Zle_Qle. lia.
Qed.

Lemma Qlen_pos x l : 1 <= Qlen (x :: l).
Proof. unfold Qlen. rewrite Qlen_cons. pose proof (Qlen_nonneg l). unfold Qlen in *. lra. Qed.

Lemma Qsum_squares_nonneg l : 0 <= Qsum (map (fun x => x * x) l).
Proof.
  induction l as [|x l IH]; [done|]. cbn [map]. rewrite Qsum_cons.
  pose proof (Qsquare_nonneg x). lra.
Qed.

Lemma square_sum_step x S T k :
  1 <= k -> 0 <= T -> S * S <= k * T ->
  (x + S) * (x + S) <= (k + 1) * (x * x + T).
Proof.
  intros Hk HT H.
  pose proof (Qsquare_nonneg (k * x - S)) as H1.
  assert (H2 : 0 <= k * (k * (x * x) + T - 2 * x * S)) by lra.
  assert (H3 : 0 <= k * (x * x) + T - 2 * x * S).
  { destruct (Qlt_le_dec (k * (x * x) + T - 2 * x * S) 0) as [Hn|Hn]; [|exact Hn].
    exfalso. Lqa.nra. }
  lra.
Qed.

(** The square of a sum is at most the number of terms times the sum of the
    squares. *)
Lemma square_of_sum l :
  Qsum l * Qsum l <= Qlen l * Qsum (map (fun x => x * x) l).
Proof.
  induction l as [|x [|y l] IH].
  - vm_compute. discriminate.
  - change (Qlen [x]) with 1. cbn [map]. rewrite !Qsum_cons.
    change (Qsum []) with 0. lra.
  - rewrite Qsum_cons. cbn [map]. rewrite (Qsum_cons (x * x)).
    unfold Qlen. rewrite Qlen_cons. fold (Qlen (y :: l)).
    apply square_sum_step; [apply Qlen_pos|apply (Qsum_squares_nonneg (y :: l))|exact IH].
Qed.

Lemma Qsum_deviations m l :
  Qsum (map (fun x => x - m) l) == Qsum l - Qlen l * m.
Proof.
  induction l as [|x l IH]; [vm_compute; ring_simplify; reflexivity|].
  cbn [map]. rewrite !Qsum_cons, IH. unfold Qlen. rewrite Qlen_cons. ring.
Qed.

Lemma Qssd_deviations m l :
  Qssd m l = Qsum (map (fun x => x * x) (map (fun x => x - m) l)).
Proof. unfold Qssd. by rewrite map_map. Qed.

(** No deviation from the mean is large against the others: with [n]
    values, [n * (x - mean)^2 <= (n - 1) * ssd]. *)
Lemma deviation_bound qs x :
  In x qs ->
  (x - Qmean qs) * (x - Qmean qs) * Qlen qs
  <= (Qlen qs - 1) * Qssd (Qmean qs) qs.
Proof.
  intros Hin.
  assert (Hn : 1 <= Qlen qs).
  { destruct qs as [|y qs]; [done|]. apply Qlen_pos. }
  assert (Hzero : Qsum (map (fun x => x - Qmean qs) qs) == 0).
  { rewrite Qsum_deviations. unfold Qmean. field. lra. }
  rewrite Qssd_deviations. revert Hzero. generalize (Qmean qs) as m. intros m Hzero.
  apply in_split in Hin as (l1 & l2 & ->).
  rewrite map_app in Hzero |- *. cbn [map] in Hzero |- *.
  rewrite Qsum_app, Qsum_cons in Hzero.
  rewrite map_app. cbn [map]. rewrite Qsum_app, Qsum_cons.
  rewrite Qlen_app, Qlen_cons_Q in Hn |- *.
  pose proof (square_of_sum (map (fun x => x - m) l1 ++ map (fun x => x - m) l2))
    as Hcs.
  rewrite Qsum_app, map_app, Qsum_app, Qlen_app, !Qlen_map in Hcs.
  set (d := x - m) in *.
  set (S1 := Qsum (map (fun x => x - m) l1)) in *.
  set (S2 := Qsum (map (fun x => x - m) l2)) in *.
  set (T1 := Qsum (map (fun x => x * x) (map (fun x => x - m) l1))) in *.
  set (T2 := Qsum (map (fun x => x * x) (map (fun x => x - m) l2))) in *.
  set (n1 := Qlen l1) in *. set (n2 := Qlen l2) in *.
  assert (E : S1 + S2 == - d) by lra.
  assert (E2 : (S1 + S2) * (S1 + S2) == d * d) by (rewrite E; ring).
  rewrite E2 in Hcs. clearbody d S1 S2 T1 T2 n1 n2. lra.
Qed.

Lemma Qssd_nonneg m l : 0 <= Qssd m l.
Proof. rewrite Qssd_deviations. apply Qsum_squares_nonneg. Qed.

(** With fewer than [t^2 + 1] values no score is beyond [t]. *)
Lemma small_sample_score qs t x :
  0 <= t -> Qlen qs < t * t + 1 -> In x qs ->
  sgt (sabs (sdiv (x - Qmean qs) (SVal 1 (Qred (Qvar 0 qs))))) t = false.
Proof.
  intros Ht Hlen Hin.
  assert (Hn : 1 <= Qlen qs).
  { destruct qs as [|y qs]; [done|]. apply Qlen_pos. }
  pose proof (deviation_bound qs x Hin) as Hb.
  pose proof (Qssd_nonneg (Qmean qs) qs) as Hs.
  assert (Hv : Qvar 0 qs * Qlen qs == Qssd (Qmean qs) qs).
  { unfold Qvar. rewrite Nat.sub_0_r. fold (Qlen qs). field. lra. }
  set (d := x - Qmean qs) in *. set (v := Qvar 0 qs) in *.
  set (n := Qlen qs) in *. set (s := Qssd (Qmean qs) qs) in *.
  destruct (Qlt_le_dec 0 v) as [Hpos|Hneg].
  - apply not_true_is_false. intros H. apply outlier_test in H; [|done..].
    clearbody d v n s.
    assert (H1 : 0 <= (t * t + 1 - n) * v) by (apply Qmult_le_0_compat; lra).
    assert (H2 : 0 < (d * d - t * t * v) * n) by (apply Qmult_lt_0_compat; lra).
    assert (H3 : 0 <= (n - 1) * v) by (apply Qmult_le_0_compat; lra).
    assert (H4 : 0 <= (n - 1) * ((t * t + 1 - n) * v))
      by (apply Qmult_le_0_compat; lra).
    rewrite <- Hv in Hb. lra.
  - assert (Hv0 : v == 0).
    { clearbody d v n s. apply Qle_antisym; [done|].
      destruct (Qlt_le_dec v 0) as [Hlt|]; [|done]. exfalso.
      assert (0 < (- v) * n) by (apply Qmult_lt_0_compat; lra). lra. }
    assert (Hd : d == 0).
    { clearbody d v n s. apply Qsquare_zero.
      assert (Hs0 : s == 0) by (rewrite <- Hv, Hv0; ring).
      rewrite Hs0 in Hb.
      destruct (Qlt_le_dec 0 (d * d)) as [Hlt|]; [|done]. exfalso.
      assert (0 < d * d * n) by (apply Qmult_lt_0_compat; lra). lra. }
    unfold sdiv.
    assert ((1 * Qred v ?= 0) = Eq) as ->.
    { apply Qeq_alt. rewrite Qred_correct, Hv0. ring. }
    assert ((d ?= 0) = Eq) as -> by by apply Qeq_alt.
    reflexivity.
Qed.

Local Close Scope Q_scope.

Lemma map_all {A B} (f : A -> B) (l : list A) (c : B) :
  (forall x, In x l -> f x = c) -> map f l = replicate (length l) c.
Proof.
  induction l as [|x l IH]; intros H; simpl; [done|].
  rewrite H by by left. rewrite IH; [done|]. intros y Hy. apply H. by right.
Qed.

Lemma outlier_rows_small l t :
  (0 <= t)%Q -> (inject_Z (Z.of_nat (length l)) < t * t + 1)%Q ->
  outlier_rows t (zscore l) = replicate (length l) false.
Proof.
  intros Ht Hlen. unfold outlier_rows, zscore.
  destruct (all_finite l) as [qs|] eqn:E.
  - apply all_finite_Some in E. subst l. rewrite length_map in Hlen |- *.
    rewrite !map_map. apply map_all. intros x Hx.
    by apply small_sample_score.
  - rewrite !map_map. by apply map_all.
Qed.

Lemma outlier_rows_missing l j t :
  l !! j = Some NaN ->
  zscore l = replicate (length l) SNaN
  /\ outlier_rows t (zscore l) = replicate (length l) false.
Proof.
  intros Hj. unfold outlier_rows, zscore.
  rewrite (all_finite_missing l j NaN Hj) by done.
  split; [by apply map_all|]. rewrite !map_map. by apply map_all.
Qed.

Lemma keep_none {A} n (l : list A) : keep (replicate n false) l = [].
Proof.
  revert l. induction n as [|n IH]; intros [|x l]; simpl; try done.
Qed.

(** X18.  On a short table [detect_outliers] can report nothing: with fewer
    than [threshold^2 + 1] rows -- fewer than ten at the default threshold
    3 -- no Z-score is beyond the threshold, whatever the prices, and the
    table printed for the ticker has no row. *)
Theorem short_tables_have_no_outliers
    (st : store) (d : addr) (items : dict) (threshold : Q) :
  dicts st !! d = Some items ->
  NoDup items.*2 ->
  (forall k a, (k, a) ∈ items ->
     exists df l dates, frames st !! a = Some df /\ has_floats df "Close" l
                        /\ assoc "Date" (columns df) = Some dates) ->
  (0 <= threshold)%Q ->
  exists st',
    detect_outliers d threshold st = (Ok tt, st')
    /\ out st' = out st ++ trace (outliers_effect threshold) (frames st) items
    /\ forall k a df l, (k, a) ∈ items -> frames st !! a = Some df ->
         has_floats df "Close" l ->
         (inject_Z (Z.of_nat (nrows df)) < threshold * threshold + 1)%Q ->
         exists df' shown,
           outliers_effect threshold k df
           = Some (df', [Print ("Outliers for " ++ k ++ ":"); PrintFrame shown])
           /\ index shown = [].
Proof.
  intros Hd Hnd Hok Ht.
  destruct (for_items_inplace d items (outliers_effect threshold) _ st Hd Hnd
              (detect_outliers_acts items (dicts st) threshold))
    as (st' & Hrun & _ & Hfr & _ & Hout).
  { intros k a Hin. destruct (Hok k a Hin) as (df & l & dates & Hdf & Hc & Hdt).
    destruct (outliers_effect_defined threshold k df l dates Hc Hdt)
      as (shown & _ & Heff).
    by eexists _, _. }
  exists st'. split; [exact Hrun|]. split; [exact Hout|].
  intros k a df l Hin Hdf Hc Hshort.
  destruct (Hok k a Hin) as (df0 & l0 & dates & Hdf0 & _ & Hdt).
  rewrite Hdf in Hdf0. inversion Hdf0; subst df0.
  destruct (outliers_effect_defined threshold k df l dates Hc Hdt)
    as (shown & Hsel & Heff).
  eexists _, shown. split; [exact Heff|].
  rewrite (df_select_index _ _ _ Hsel). simpl.
  destruct Hc as [_ Hlen]. rewrite <- Hlen in Hshort.
  by rewrite outlier_rows_small, keep_none.
Qed.

Lemma short_tables_have_no_outliers_witness :
  exists st',
    detect_outliers 0 3 (example_store (replicate 8 (Fin 100) ++ [Fin 1000]))
    = (Ok tt, st')
    /\ out st'
       = [Print "Outliers for TSLA:";
          PrintFrame {| index := [];
                        columns := [("Date", DateCol []); ("Close", NumCol []);
                                    ("Z-Score", StatCol [])] |}].
Proof.
  destruct (short_tables_have_no_outliers
              (example_store (replicate 8 (Fin 100) ++ [Fin 1000])) 0
              [("TSLA", 0%nat)] 3)
    as (st' & Hrun & Hout & _).
  - reflexivity.
  - apply NoDup_singleton.
  - intros k a Hin. apply list_elem_of_singleton in Hin. inversion Hin; subst.
    eexists _, _, _. split; [reflexivity|]. split; [split; reflexivity|reflexivity].
  - vm_compute. discriminate.
  - exists st'. split; [exact Hrun|]. rewrite Hout. vm_compute. reflexivity.
Defined.

(** X19.  One missing close makes every Z-score of the table undefined:
    the ['Z-Score'] column is missing on all rows and no row is reported,
    whatever the threshold. *)
Theorem missing_close_hides_outliers
    (st : store) (d : addr) (items : dict) (threshold : Q) :
  dicts st !! d = Some items ->
  NoDup items.*2 ->
  (forall k a, (k, a) ∈ items ->
     exists df l dates, frames st !! a = Some df /\ has_floats df "Close" l
                        /\ assoc "Date" (columns df) = Some dates) ->
  exists st',
    detect_outliers d threshold st = (Ok tt, st')
    /\ out st' = out st ++ trace (outliers_effect threshold) (frames st) items
    /\ forall k a df l j, (k, a) ∈ items -> frames st !! a = Some df ->
         has_floats df "Close" l ->
         l !! j = Some NaN ->
         exists df' shown,
           frames st' !! a = Some df'
           /\ assoc "Z-Score" (columns df') = Some (StatCol (replicate (nrows df) SNaN))
           /\ outliers_effect threshold k df
              = Some (df', [Print ("Outliers for " ++ k ++ ":"); PrintFrame shown])
           /\ index shown = [].
Proof.
  intros Hd Hnd Hok.
  destruct (for_items_inplace d items (outliers_effect threshold) _ st Hd Hnd
              (detect_outliers_acts items (dicts st) threshold))
    as (st' & Hrun & _ & Hfr & _ & Hout).
  { intros k a Hin. destruct (Hok k a Hin) as (df & l & dates & Hdf & Hc & Hdt).
    destruct (outliers_effect_defined threshold k df l dates Hc Hdt)
      as (shown & _ & Heff).
    by eexists _, _. }
  exists st'. split; [exact Hrun|]. split; [exact Hout|].
  intros k a df l j Hin Hdf Hc Hj.
  destruct (Hok k a Hin) as (df0 & l0 & dates & Hdf0 & _ & Hdt).
  rewrite Hdf in Hdf0. inversion Hdf0; subst df0.
  destruct (outliers_effect_defined threshold k df l dates Hc Hdt)
    as (shown & Hsel & Heff).
  destruct (Hfr k a df Hin Hdf) as (df1 & ev & Hf & Hdf1).
  rewrite Heff in Hf. inversion Hf; subst df1 ev.
  destruct (outlier_rows_missing l j threshold Hj) as [Hz Hrows].
  destruct Hc as [_ Hlen].
  eexists _, shown. split; [exact Hdf1|].
  split; [rewrite <- Hlen, <- Hz; solve_assoc|].
  split; [exact Heff|].
  rewrite (df_select_index _ _ _ Hsel). simpl.
  by rewrite Hrows, keep_none.
Qed.

Lemma missing_close_hides_outliers_witness :
  exists st',
    detect_outliers 0 3
      (example_store (replicate 10 (Fin 100) ++ [Fin 1000; NaN]))
    = (Ok tt, st')
    /\ out st'
       = [Print "Outliers for TSLA:";
          PrintFrame {| index := [];
                        columns := [("Date", DateCol []); ("Close", NumCol []);
                                    ("Z-Score", StatCol [])] |}].
Proof.
  destruct (missing_close_hides_outliers
              (example_store (replicate 10 (Fin 100) ++ [Fin 1000; NaN])) 0
              [("TSLA", 0%nat)] 3)
    as (st' & Hrun & Hout & _).
  - reflexivity.
  - apply NoDup_singleton.
  - intros k a Hin. apply list_elem_of_singleton in Hin. inversion Hin; subst.
    eexists _, _, _. split; [reflexivity|]. split; [split; reflexivity|reflexivity].
  - exists st'. split; [exact Hrun|]. rewrite Hout. vm_compute. reflexivity.
Defined.

(** ** The decomposition plots everything or nothing *)

Lemma decompose_round_silent period (kv : string * addr) (comps : components) st :
  out ((let ticker := kv.1 in
        let* df := get_frame kv.2 in
        let* sorted := lift (sort_values df "Date") in
        let* data := new_frame sorted in
        (let* df := get_frame data in
         let* df' := lift (set_index df "Date") in
         put_frame data df') >>
        let* df := get_frame data in
        let* close := lift (df_getitem df "Close") in
        let* decomposition := lift (seasonal_decompose (index df) close period) in
        ret {| trends := assoc_set ticker decomposition (trends comps);
               seasonals := assoc_set ticker decomposition (seasonals comps);
               residuals := assoc_set ticker decomposition (residuals comps) |}) st).2
  = out st.
Proof.
  unfold bind, get_frame, lift, new_frame, put_frame, ret. simpl.
  destruct (frames st !! kv.2) as [df|]; simpl; [|done].
  destruct (sort_values df "Date") as [sorted|e]; simpl; [|done].
  rewrite lookup_last.
  destruct (set_index sorted "Date") as [df'|e]; simpl; [|done].
  rewrite insert_app_r_alt by done. rewrite Nat.sub_diag. simpl.
  rewrite lookup_last. simpl.
  destruct (df_getitem df' "Close") as [close|e]; simpl; [|done].
  by destruct (seasonal_decompose (index df') close period).
Qed.

Lemma fold_each_silent {A S} (l : list A) (acc : S) (body : A -> S -> M S) st :
  (forall x s st, out (body x s st).2 = out st) ->
  out (fold_each l acc body st).2 = out st.
Proof.
  intros Hb. revert acc st. induction l as [|x l IH]; intros acc st; simpl; [done|].
  unfold bind. specialize (Hb x acc st).
  destruct (body x acc st) as [[s|e] st1]; simpl in *; [|done].
  by rewrite IH.
Qed.

Lemma for_each_emit_ok {A} (l : list A) (e : A -> event) st :
  (for_each l (fun x => emit (e x)) st).1 = Ok tt.
Proof.
  revert st. induction l as [|x l IH]; intros st; simpl; [done|].
  unfold bind. simpl. apply IH.
Qed.

Lemma plot_components_ok c name results st :
  (plot_components c name results st).1 = Ok tt.
Proof.
  unfold plot_components, bind. simpl.
  pose proof (for_each_emit_ok results
                (fun kv => PltComponent c kv.2 (kv.1 ++ " " ++ name))
                {| frames := frames st; dicts := dicts st;
                   out := out st ++ [PltFigure] |}) as H.
  destruct (for_each results _ _) as [[[]|e] st1]; simpl in *; done.
Qed.

(** X20.  If [decompose_time_series_all_in_one] raises, it has plotted
    nothing: the three figures are drawn only after every ticker has been
    decomposed, so one table that cannot be decomposed leaves no figure for
    the others either. *)
Theorem decompose_plots_all_or_nothing
    (st : store) (d : addr) (period : Z) (e : exn) (st' : store) :
  decompose_time_series_all_in_one d period st = (Raise e, st') ->
  out st' = out st.
Proof.
  unfold decompose_time_series_all_in_one, bind at 1, get_dict.
  destruct (dicts st !! d) as [items|]; [|by intros [= _ <-]].
  unfold bind at 1.
  pose proof (fold_each_silent items
                {| trends := []; seasonals := []; residuals := [] |}
                _ st (fun kv comps st0 => decompose_round_silent period kv comps st0))
    as Hsilent.
  destruct (fold_each items _ _ st) as [[comps|e0] st1]; simpl in Hsilent.
  - intros H. exfalso. revert H. unfold bind.
    pose proof (plot_components_ok Trend "Trend" (trends comps) st1) as H1.
    destruct (plot_components Trend "Trend" (trends comps) st1) as [[[]|e1] st2];
      [|done].
    pose proof (plot_components_ok Seasonal "Seasonal" (seasonals comps) st2) as H2.
    destruct (plot_components Seasonal "Seasonal" (seasonals comps) st2)
      as [[[]|e2] st3]; [|done].
    pose proof (plot_components_ok Resid "Residual" (residuals comps) st3) as H3.
    destruct (plot_components Resid "Residual" (residuals comps) st3)
      as [[[]|e3] st4]; [|done].
    discriminate.
  - by intros [= _ <-].
Qed.

Lemma decompose_plots_all_or_nothing_witness :
  exists e st',
    decompose_time_series_all_in_one_default 0 (example_store [Fin 1; Fin 2; Fin 3])
    = (Raise e, st')
    /\ out st' = [].
Proof.
  eexists _, _. split; [vm_compute; reflexivity|].
  apply (decompose_plots_all_or_nothing
           (example_store [Fin 1; Fin 2; Fin 3]) 0 252
           (ValueError "x must have 2 complete cycles")).
  vm_compute. reflexivity.
Defined.

Lemma insert_key_length k i l : length (insert_key k i l) = S (length l).
Proof.
  induction l as [|[k' i'] l IH]; simpl; [done|].
  destruct (k <=? k')%Z; simpl; [done|]. by rewrite IH.
Qed.

Lemma argsort_length keys : length (argsort keys) = length keys.
Proof.
  unfold argsort. rewrite length_map.
  assert (H : forall l : list (Z * nat),
            length (fold_right (fun ki acc => insert_key ki.1 ki.2 acc) [] l)
            = length l).
  { induction l as [|[k i] l IH]; simpl; [done|].
    by rewrite insert_key_length, IH. }
  rewrite H, length_zip_with, length_seq. apply Nat.min_id.
Qed.

Lemma reorder_length {A} order (l : list A) :
  (length (reorder order l) <= length order)%nat.
Proof.
  unfold reorder. induction order as [|i order IH]; csimpl; [done|].
  destruct (l !! i); csimpl; lia.
Qed.

Lemma assoc_del_ne {A} c k (l : list (string * A)) :
  c <> k -> assoc c (assoc_del k l) = assoc c l.
Proof.
  intros Hne. induction l as [|[k' v] l IH]; simpl; [done|].
  destruct (decide (k = k')) as [<-|Hk].
  - by rewrite decide_False.
  - simpl. by rewrite IH.
Qed.

(** X21.  The decomposition needs two full periods.  If the first table of
    the dictionary has fewer than [2 * period] rows -- fewer than 504 with
    the default period 252 -- the call raises a [ValueError] and nothing is
    plotted. *)
Theorem decompose_needs_two_periods
    (st : store) (d : addr) (k : string) (a : addr) (items : dict)
    (df : DataFrame) (keys : list Z) (l : list float64) (period : Z) :
  dicts st !! d = Some ((k, a) :: items) ->
  frames st !! a = Some df ->
  assoc "Date" (columns df) = Some (DateCol keys) ->
  assoc "Close" (columns df) = Some (NumCol l) ->
  (Z.of_nat (length keys) < 2 * period)%Z ->
  exists msg st',
    decompose_time_series_all_in_one d period st = (Raise (ValueError msg), st')
    /\ out st' = out st.
Proof.
  intros Hd Hdf Hdate Hclose Hshort.
  unfold decompose_time_series_all_in_one, bind at 1, get_dict. rewrite Hd.
  cbn [fold_each fst snd].
  unfold bind, get_frame, lift, new_frame, put_frame, ret. simpl.
  rewrite Hdf. unfold sort_values, df_getitem. rewrite Hdate. simpl.
  rewrite lookup_last. unfold set_index, df_getitem. simpl.
  rewrite assoc_map, Hdate. simpl.
  rewrite insert_app_r_alt by done. rewrite Nat.sub_diag. simpl.
  rewrite lookup_last. simpl.
  rewrite assoc_del_ne by done. rewrite assoc_map, Hclose. simpl.
  unfold seasonal_decompose. simpl.
  destruct (all_finite (reorder (argsort keys) l)) as [qs|] eqn:E; simpl.
  - assert (Hlen : (length qs <= length keys)%nat).
    { apply all_finite_Some in E. apply (f_equal length) in E.
      rewrite length_map in E. rewrite <- E, <- argsort_length.
      apply reorder_length. }
    destruct (Z.ltb_spec (Z.of_nat (length qs)) (2 * period)) as [_|H]; [|lia].
    by eexists _, _.
  - by eexists _, _.
Qed.

Lemma decompose_needs_two_periods_witness :
  exists msg st',
    decompose_time_series_all_in_one_default 0
      (example_store [Fin 1; Fin 2; Fin 3])
    = (Raise (ValueError msg), st')
    /\ out st' = [].
Proof.
  apply (decompose_needs_two_periods
           (example_store [Fin 1; Fin 2; Fin 3]) 0 "TSLA" 0 []
           (example_frame [Fin 1; Fin 2; Fin 3]) [0; 1; 2]%Z
           [Fin 1; Fin 2; Fin 3] 252); reflexivity.
Defined.

(** ** Returns of normalised prices *)

Lemma normalize_data_run st d (items : dict) :
  dicts st !! d = Some items ->
  NoDup items.*1 ->
  NoDup items.*2 ->
  (forall k a, (k, a) ∈ items ->
     exists df, frames st !! a = Some df /\ normalizable df) ->
  exists st1,
    normalize_data d st = (Ok d, st1)
    /\ dicts st1 = dicts st
    /\ forall k a df l, (k, a) ∈ items -> frames st !! a = Some df ->
         has_floats df "Close" l ->
         exists df',
           frames st1 !! a = Some df'
           /\ has_floats df' "Close" (minmax_column l)
           /\ index df' = index df
           /\ assoc "Date" (columns df') = assoc "Date" (columns df).
Proof.
  intros Hd Hk Hnd Hok.
  destruct (for_items_inplace d items normalize_effect _ st Hd Hnd
              (normalize_data_acts d items (dicts st) Hd Hk))
    as (st1 & Hrun1 & Hd1 & Hfr1 & _).
  { intros k a Hin. destruct (Hok k a Hin) as (df & Hdf & Hn).
    destruct (normalizable_effect k df Hn)
      as (c & o & h & l & v & _ & _ & _ & _ & _ & E).
    by eexists _, _. }
  exists st1. split.
  { unfold normalize_data. erewrite bind_ok; [reflexivity|exact Hrun1]. }
  split; [exact Hd1|].
  intros k a df l0 Hin Hdf [Hc0 Hl0].
  destruct (Hok k a Hin) as (df0 & Hdf0 & Hn).
  rewrite Hdf in Hdf0. inversion Hdf0; subst df0.
  destruct (Hfr1 k a df Hin Hdf) as (df' & ev & Heff & Hdf').
  destruct (normalizable_effect k df Hn)
    as (c & o & h & l & v & [Hc Hlc] & _ & _ & _ & _ & E).
  rewrite E in Heff. inversion Heff; subst df' ev; clear Heff.
  rewrite Hc0 in Hc. inversion Hc; subst c.
  eexists. split; [exact Hdf'|].
  split; [split; [solve_assoc|]|].
  { simpl. by rewrite minmax_column_length. }
  split; [done|]. unfold with_column. simpl.
  by rewrite !assoc_set_ne by done.
Qed.

Lemma Qlist_min_In x r : In (Qlist_min x r) (x :: r).
Proof.
  induction r as [|y r IH]; [by left|].
  unfold Qlist_min in *. cbn [fold_right].
  unfold Qmin at 1, GenericMinMax.gmin.
  destruct (y ?= fold_right Qmin x r)%Q.
  - right. by left.
  - right. by left.
  - destruct IH as [IH|IH]; [by left|right; by right].
Qed.

Lemma finites_lookup l v : In v (finites l) -> exists j, l !! j = Some (Fin v).
Proof.
  unfold finites. induction l as [|x l IH]; csimpl; [done|].
  destruct x; csimpl.
  - intros [->|H]; [by exists 0%nat|]. destruct (IH H) as [j Hj]. by exists (S j).
  - intros H. destruct (IH H) as [j Hj]. by exists (S j).
  - intros H. destruct (IH H) as [j Hj]. by exists (S j).
  - intros H. destruct (IH H) as [j Hj]. by exists (S j).
Qed.

(** The lowest present close is scaled to 0. *)
Lemma minmax_column_lowest l i v :
  l !! i = Some (Fin v) ->
  (forall j w, l !! j = Some (Fin w) -> (v <= w)%Q) ->
  exists y, minmax_column l !! i = Some (Fin y) /\ (y == 0)%Q.
Proof.
  intros Hi Hlow.
  destruct (minmax_column_value l i v Hi) as (y & Hy & _ & _ & Hsmall & Hbig).
  exists y. split; [exact Hy|].
  destruct (col_min_max l i v Hi) as (_ & _ & Hmin & _).
  assert (Hv : (v == col_min l)%Q).
  { apply Qle_antisym; [|exact Hmin].
    pose proof (finites_In l i v Hi) as Hin. unfold col_min in *.
    destruct (finites l) as [|x r] eqn:Hf; [done|].
    destruct (finites_lookup l (Qlist_min x r)) as [j Hj].
    { rewrite Hf. apply Qlist_min_In. }
    by apply (Hlow j). }
  destruct (Qlt_le_dec (col_max l - col_min l) (10 * DBL_EPSILON)) as [E|E].
  - rewrite (Hsmall E), Hv. ring.
  - rewrite Hbig by (by apply Qle_not_lt). rewrite Hv.
    pose proof DBL_EPSILON_pos. field. lra.
Qed.

(** After a close of zero the return is never a number. *)
Lemma return_after_zero l i y :
  l !! i = Some (Fin y) -> (y == 0)%Q -> (S i < length l)%nat ->
  forall q, scale_by 100 (pct_change l) !! S i <> Some (Fin q).
Proof.
  intros Hi Hy Hlen q.
  destruct (lookup_lt_is_Some_2 l (S i) Hlen) as [x Hx].
  unfold scale_by. rewrite list_lookup_fmap, pct_change_lookup by done.
  rewrite (take_S_r _ _ _ Hx), (take_S_r _ _ _ Hi), !last_valid_app.
  cbn [isnan fmap option_fmap option_map].
  assert (Hz : (y ?= 0)%Q = Eq) by by apply Qeq_alt.
  destruct x as [c| | |]; cbn [isnan]; unfold fdiv; rewrite ?Hz.
  - by destruct (c ?= 0)%Q.
  - done.
  - done.
  - done.
Qed.

(** X22.  Returns computed after normalising are not returns of the
    prices.  [normalize_data] scales the lowest close of a table to 0, so
    when [calculate_daily_returns] runs next, the return on the row after
    the lowest close is never a number: it is infinite or undefined. *)
Theorem returns_after_normalising
    (st : store) (d : addr) (items : dict) :
  dicts st !! d = Some items ->
  NoDup items.*1 ->
  NoDup items.*2 ->
  (forall k a, (k, a) ∈ items ->
     exists df, frames st !! a = Some df /\ normalizable df
                /\ is_Some (assoc "Date" (columns df))) ->
  exists st1 st2,
    normalize_data d st = (Ok d, st1)
    /\ calculate_daily_returns d st1 = (Ok tt, st2)
    /\ forall k a df l, (k, a) ∈ items -> frames st !! a = Some df ->
         has_floats df "Close" l ->
         exists df2 r,
           frames st2 !! a = Some df2
           /\ assoc "Daily Return" (columns df2) = Some (NumCol r)
           /\ forall i v,
                l !! i = Some (Fin v) ->
                (forall j w, l !! j = Some (Fin w) -> (v <= w)%Q) ->
                (S i < nrows df)%nat ->
                forall q, r !! S i <> Some (Fin q).
Proof.
  intros Hd Hk Hnd Hok.
  destruct (normalize_data_run st d items Hd Hk Hnd) as (st1 & Hrun1 & Hd1 & Hfr1).
  { intros k a Hin. destruct (Hok k a Hin) as (df & Hdf & Hn & _). by exists df. }
  assert (Hd1' : dicts st1 !! d = Some items) by by rewrite Hd1.
  assert (Hclose : forall k a, (k, a) ∈ items ->
            exists df l, frames st !! a = Some df /\ has_floats df "Close" l
                         /\ is_Some (assoc "Date" (columns df))).
  { intros k a Hin. destruct (Hok k a Hin) as (df & Hdf & [_ Hcols] & Hdt).
    destruct (Hcols "Close") as (l & Hl & _); [unfold feature_columns; repeat constructor|].
    by exists df, l. }
  destruct (calculate_daily_returns_percent st1 d items Hd1' Hnd)
    as (st2 & Hrun2 & Hcol).
  { intros k a Hin. destruct (Hclose k a Hin) as (df & l & Hdf & Hl & [dates Hdt]).
    destruct (Hfr1 k a df l Hin Hdf Hl) as (df' & Hdf' & Hl' & _ & Hdt').
    exists df', (minmax_column l), dates. rewrite Hdt'. done. }
  exists st1, st2. split; [exact Hrun1|]. split; [exact Hrun2|].
  intros k a df l Hin Hdf Hl.
  destruct (Hfr1 k a df l Hin Hdf Hl) as (df' & Hdf' & Hl' & Hidx & _).
  rewrite (Hcol k a df' (minmax_column l) Hin Hdf' Hl').
  eexists _, _. split; [reflexivity|]. split; [solve_assoc|].
  intros i v Hi Hlow Hlen.
  destruct (minmax_column_lowest l i v Hi Hlow) as (y & Hy & Hy0).
  apply (return_after_zero _ i y Hy Hy0).
  rewrite minmax_column_length. destruct Hl as [_ Hll]. by rewrite Hll.
Qed.

Lemma returns_after_normalising_witness :
  exists st1 st2,
    normalize_data 0 (example_store [Fin 20; Fin 10; Fin 30]) = (Ok 0%nat, st1)
    /\ calculate_daily_returns 0 st1 = (Ok tt, st2)
    /\ (df ← frames st2 !! 0; assoc "Daily Return" (columns df))
       = Some (NumCol [NaN; Fin (-100); PInf]).
Proof.
  destruct (returns_after_normalising
              (example_store [Fin 20; Fin 10; Fin 30]) 0 [("TSLA", 0%nat)])
    as (st1 & st2 & Hrun1 & Hrun2 & _).
  - reflexivity.
  - apply NoDup_singleton.
  - apply NoDup_singleton.
  - intros k a Hin. apply list_elem_of_singleton in Hin. inversion Hin; subst.
    eexists. split; [reflexivity|]. split; [|by eexists].
    split; [vm_compute; lia|]. intros c Hc. unfold feature_columns in Hc.
    repeat (apply elem_of_cons in Hc as [->|Hc]); [..|by apply elem_of_nil in Hc];
      (eexists; split; [split; reflexivity|]; repeat constructor; done).
  - exists st1, st2. split; [exact Hrun1|].
    vm_compute in Hrun1. inversion Hrun1; subst st1. split; [exact Hrun2|].
    vm_compute in Hrun2. inversion Hrun2. reflexivity.
Defined.

(** ** A ticker that was not downloaded *)

Lemma for_each_app {A} (l1 l2 : list A) (body : A -> M unit) st :
  for_each (l1 ++ l2) body st
  = (for_each l1 body >> for_each l2 body) st.
Proof.
  revert st. induction l1 as [|x l1 IH]; intros st; simpl; [done|].
  unfold bind. destruct (body x st) as [[[]|e] st1]; [|done].
  rewrite IH. reflexivity.
Qed.

(** X23.  A ticker of the list that the download does not contain stops
    [separate_data] with [KeyError] of that ticker, after the tables of the
    tickers before it have been built; no dictionary is returned. *)
Theorem separate_data_unknown_ticker
    (historical_data : Historical) (before after : list string) (t : string)
    (per_ticker : list (string * list float64)) (st : store) :
  (forall t', t' ∈ before -> aligned historical_data t') ->
  assoc "Close" (h_fields historical_data) = Some per_ticker ->
  assoc t per_ticker = None ->
  exists st',
    separate_data historical_data (before ++ t :: after) st
    = (Raise (KeyError t), st')
    /\ (forall a df, frames st !! a = Some df -> frames st' !! a = Some df)
    /\ out st' = out st.
Proof.
  intros Hal Hclose Ht.
  set (d := length (dicts st)).
  set (st1 := {| frames := frames st; dicts := dicts st ++ [[]]; out := out st |}).
  destruct (create_loop d (table_of historical_data) _
              (separate_data_creates historical_data d) before st1 [])
    as (st2 & items & Hfor & _ & Hpre & Hout & _).
  - simpl. unfold d. by rewrite list_lookup_middle.
  - intros t' Hin. destruct (aligned_table_of _ _ (Hal t' Hin))
      as (c & o & hi & lo & v & _ & _ & _ & _ & _ & _ & E). by eexists.
  - apply NoDup_nil_2.
  - apply NoDup_nil_2.
  - by intros k a ?%elem_of_nil.
  - exists st2. split.
    { unfold separate_data. erewrite bind_ok; [|reflexivity].
      unfold bind at 1. fold d st1. rewrite for_each_app.
      unfold bind at 1. rewrite Hfor. cbn [for_each].
      unfold bind, lift, hist_get. by rewrite Hclose, Ht. }
    split; [|exact Hout].
    intros a df Hdf. by eapply prefix_lookup_Some.
Qed.

Lemma separate_data_unknown_ticker_witness :
  exists st',
    separate_data example_download ["TSLA"; "BND"]
                  {| frames := []; dicts := []; out := [] |}
    = (Raise (KeyError "BND"), st')
    /\ length (frames st') = 1%nat.
Proof.
  destruct (separate_data_unknown_ticker example_download ["TSLA"] [] "BND"
              [("TSLA", [Fin 10; Fin 20; Fin 30])]
              {| frames := []; dicts := []; out := [] |})
    as (st' & Hrun & _).
  - intros t Hin. apply list_elem_of_singleton in Hin. subst t.
    exact example_download_aligned.
  - reflexivity.
  - reflexivity.
  - exists st'. split; [exact Hrun|].
    vm_compute in Hrun. inversion Hrun. reflexivity.
Defined.

(** ** Forward fill, then backward fill *)

Lemma rebind_loop_dict d g body :
  rebinds d g body ->
  forall (items : dict) st (cur : dict) st',
    dicts st !! d = Some cur ->
    (forall k a, (k, a) ∈ items -> k ∈ cur.*1 /\ is_Some (frames st !! a)) ->
    (forall k a, (k, a) ∈ cur -> is_Some (frames st !! a)) ->
    for_each items (fun kv => body kv.1 kv.2) st = (Ok tt, st') ->
    exists cur' : dict,
      dicts st' !! d = Some cur'
      /\ cur'.*1 = cur.*1
      /\ forall k a, (k, a) ∈ cur' -> is_Some (frames st' !! a).
Proof.
  intros Hbody. induction items as [|[k a] items IH]; intros st cur st' Hd Hit Hcur.
  - simpl. intros [= <-]. by exists cur.
  - destruct (Hit k a) as [Hkin [df Hdf]]; [left|].
    cbn [for_each fst snd]. unfold bind at 1.
    rewrite (Hbody k a st df cur Hdf Hd). intros Hfor.
    set (st1 := {| frames := frames st ++ [g df];
                   dicts := <[d := assoc_set k (length (frames st)) cur]> (dicts st);
                   out := out st |}) in *.
    destruct (IH st1 (assoc_set k (length (frames st)) cur) st')
      as (cur' & Hd' & Hkeys & Hvalid); try done.
    + simpl. apply list_lookup_insert_eq. by eapply lookup_lt_Some.
    + intros k1 a1 Hin. destruct (Hit k1 a1) as [Hk1 [df1 Hdf1]]; [by right|].
      split; [by rewrite assoc_set_keys_known|].
      exists df1. simpl. rewrite lookup_app_l; [done|]. by eapply lookup_lt_Some.
    + intros k1 a1 Hin. simpl.
      apply assoc_set_elem_of in Hin as [[_ ->]|Hin].
      * exists (g df). apply lookup_last.
      * destruct (Hcur k1 a1 Hin) as [df1 Hdf1].
        exists df1. rewrite lookup_app_l; [done|]. by eapply lookup_lt_Some.
    + exists cur'. split; [done|]. split; [|done].
      by rewrite Hkeys, assoc_set_keys_known.
Qed.

Lemma assoc_Some_elem_of {A} k (v : A) l : assoc k l = Some v -> (k, v) ∈ l.
Proof.
  induction l as [|[k0 v0] l IH]; simpl; [done|].
  destruct (decide (k = k0)) as [->|Hne].
  - intros [= ->]. by left.
  - intros H. right. by apply IH.
Qed.

Lemma fill_run d method g st (items : dict) :
  method <> "drop" ->
  (forall df, fillna df method = Ok (g df)) ->
  dicts st !! d = Some items ->
  NoDup items.*1 ->
  (forall k a, (k, a) ∈ items -> is_Some (frames st !! a)) ->
  exists st' (items' : dict),
    handle_missing_values d method st = (Ok d, st')
    /\ dicts st' !! d = Some items'
    /\ items'.*1 = items.*1
    /\ (forall k a, (k, a) ∈ items' -> is_Some (frames st' !! a))
    /\ forall k a df, (k, a) ∈ items -> frames st !! a = Some df ->
         exists a', assoc k items' = Some a' /\ frames st' !! a' = Some (g df).
Proof.
  intros Hm Hg Hd Hnd Hfr.
  pose proof (handle_missing_values_fill_rebinds d method g Hm Hg) as Hreb.
  destruct (rebind_loop d g _ Hreb items st items Hd Hnd Hfr)
    as (st' & items' & Hfor & Hd' & _ & _ & Hnew & _).
  destruct (rebind_loop_dict d g _ Hreb items st items st' Hd)
    as (items'' & Hd'' & Hkeys & Hvalid); try done.
  { intros k a Hin. split; [by apply (list_elem_of_fmap_2 fst) in Hin|by eapply Hfr]. }
  rewrite Hd' in Hd''. inversion Hd''; subst items''.
  exists st', items'. split.
  { unfold handle_missing_values.
    erewrite bind_ok; [reflexivity|]. unfold for_items.
    erewrite bind_ok; [exact Hfor|]. unfold get_dict. by rewrite Hd. }
  repeat (split; [done|]).
  intros k a df Hin Hdf. destruct (Hnew k a df Hin Hdf) as (a' & Ha' & _ & Hfa').
  by exists a'.
Qed.

Lemma last_valid_present l :
  (exists x, In x l /\ isnan x = false) -> isnan (last_valid l) = false.
Proof.
  induction l as [|y l IH] using rev_ind; intros (x & Hin & Hx); [done|].
  rewrite last_valid_app. destruct (isnan y) eqn:Hy; [|done].
  apply IH. exists x. split; [|done].
  apply in_app_or in Hin as [Hin|[<-|[]]]; [done|congruence].
Qed.

Lemma next_valid_present l :
  (exists x, In x l /\ isnan x = false) -> isnan (next_valid l) = false.
Proof.
  induction l as [|y l IH]; intros (x & Hin & Hx); [done|].
  unfold next_valid in *. cbn [fold_right]. destruct (isnan y) eqn:Hy; [|done].
  apply IH. exists x. split; [|done].
  destruct Hin as [<-|Hin]; [congruence|done].
Qed.

(** A forward fill followed by a backward fill leaves no missing value in a
    series that has one present value. *)
Lemma bfill_ffill_complete l j x :
  l !! j = Some x -> isnan x = false ->
  Forall (fun y => isnan y = false) (bfill (ffill l)).
Proof.
  intros Hj Hx. apply Forall_lookup. intros i y Hy.
  assert (Hlen : length (ffill l) = length l) by apply fill_from_length.
  assert (Hi : (i < length l)%nat).
  { apply lookup_lt_Some in Hy. revert Hy. unfold bfill, ffill.
    by rewrite length_rev, fill_from_length, length_rev, fill_from_length. }
  rewrite bfill_next_valid in Hy by lia. inversion Hy; subst y.
  assert (Hjl : (j < length l)%nat) by by eapply lookup_lt_Some.
  set (m := (i `max` j)%nat).
  assert (Hm : isnan (last_valid (take (S m) l)) = false).
  { apply last_valid_present. exists x. split; [|done].
    apply list_elem_of_In, list_elem_of_lookup. exists j.
    rewrite lookup_take_lt by lia. done. }
  apply next_valid_present. exists (last_valid (take (S m) l)). split; [|done].
  apply list_elem_of_In, list_elem_of_lookup. exists (m - i)%nat.
  rewrite lookup_drop. replace (i + (m - i))%nat with m by lia.
  apply ffill_last_valid. lia.
Qed.

(** X24.  Filling forward and then backward leaves no missing value in any
    float column that has at least one present value: the ticker ends up
    bound to a table in which such a column is complete. *)
Theorem fill_forward_then_backward
    (st : store) (d : addr) (items : dict) (k : string) (a : addr)
    (df : DataFrame) :
  dicts st !! d = Some items ->
  NoDup items.*1 ->
  (forall k a, (k, a) ∈ items -> is_Some (frames st !! a)) ->
  (k, a) ∈ items ->
  frames st !! a = Some df ->
  exists st1 st2 (items2 : dict) a2 df2,
    handle_missing_values d "ffill" st = (Ok d, st1)
    /\ handle_missing_values d "bfill" st1 = (Ok d, st2)
    /\ dicts st2 !! d = Some items2
    /\ assoc k items2 = Some a2
    /\ frames st2 !! a2 = Some df2
    /\ index df2 = index df
    /\ forall c l j x, assoc c (columns df) = Some (NumCol l) ->
         l !! j = Some x -> x <> NaN ->
         exists l2, assoc c (columns df2) = Some (NumCol l2)
                    /\ length l2 = length l
                    /\ Forall (fun y => y <> NaN) l2.
Proof.
  intros Hd Hnd Hfr Hin Hdf.
  destruct (fill_run d "ffill" (df_map_columns col_ffill) st items)
    as (st1 & items1 & Hrun1 & Hd1 & Hkeys1 & Hvalid1 & Hnew1); try done.
  destruct (Hnew1 k a df Hin Hdf) as (a1 & Ha1 & Hfa1).
  destruct (fill_run d "bfill" (df_map_columns col_bfill) st1 items1)
    as (st2 & items2 & Hrun2 & Hd2 & _ & _ & Hnew2); try done.
  { by rewrite Hkeys1. }
  destruct (Hnew2 k a1 _ (assoc_Some_elem_of _ _ _ Ha1) Hfa1) as (a2 & Ha2 & Hfa2).
  exists st1, st2, items2, a2. eexists.
  do 6 (split; [done|]).
  intros c l j x Hc Hj Hx. exists (bfill (ffill l)). split.
  { unfold df_map_columns. simpl. by rewrite !assoc_map, Hc. }
  split.
  { unfold bfill, ffill.
    by rewrite length_rev, fill_from_length, length_rev, fill_from_length. }
  eapply Forall_impl; [apply (bfill_ffill_complete l j x Hj)|].
  - by destruct x.
  - intros y Hy ->. done.
Qed.

Lemma fill_forward_then_backward_witness :
  exists st1 st2 (items2 : dict) a2 df2,
    handle_missing_values 0 "ffill" (example_store [NaN; Fin 1; NaN; Fin 3; NaN])
    = (Ok 0%nat, st1)
    /\ handle_missing_values 0 "bfill" st1 = (Ok 0%nat, st2)
    /\ dicts st2 !! 0%nat = Some items2
    /\ assoc "TSLA" items2 = Some a2
    /\ frames st2 !! a2 = Some df2
    /\ assoc "Close" (columns df2) = Some (NumCol [Fin 1; Fin 1; Fin 1; Fin 3; Fin 3]).
Proof.
  destruct (fill_forward_then_backward
              (example_store [NaN; Fin 1; NaN; Fin 3; NaN]) 0
              [("TSLA", 0%nat)] "TSLA" 0 (example_frame [NaN; Fin 1; NaN; Fin 3; NaN]))
    as (st1 & st2 & items2 & a2 & df2 & Hrun1 & Hrun2 & Hd & Ha & Hdf & _).
  - reflexivity.
  - apply NoDup_singleton.
  - intros k a Hin. apply list_elem_of_singleton in Hin. inversion Hin; subst.
    by eexists.
  - by apply list_elem_of_singleton.
  - reflexivity.
  - exists st1, st2, items2, a2, df2. split; [exact Hrun1|].
    vm_compute in Hrun1. inversion Hrun1; subst st1. split; [exact Hrun2|].
    vm_compute in Hrun2. inversion Hrun2; subst st2.
    vm_compute in Hd. inversion Hd; subst items2.
    vm_compute in Ha. inversion Ha; subst a2.
    vm_compute in Hdf. inversion Hdf; subst df2.
    repeat split; reflexivity.
Defined.

(** ** What the combined figures leave behind *)

Lemma plot_close_acts items D :
  acts_inplace items D plot_close_effect
    (fun ticker data => plot data "Date" "Close" ticker).
Proof.
  intros k a st df df' ev _ HD Hdf Hf. unfold plot_close_effect in Hf.
  destruct (assoc "Date" (columns df)) as [dates|] eqn:Hdt; [|done].
  destruct (assoc "Close" (columns df)) as [close|] eqn:Hc; [|done].
  inversion Hf; subst df' ev; clear Hf.
  revert st HD Hdf. by apply step_plot.
Qed.

Lemma derive_plot_acts items D c f lbl :
  c <> "Date" ->
  acts_inplace items D (derive_plot_effect c f lbl)
    (fun ticker data => derive data c f >> plot data "Date" c (lbl ticker)).
Proof.
  intros Hne k a st df df' ev _ HD Hdf Hf. unfold derive_plot_effect in Hf.
  destruct (assoc "Close" (columns df)) as [[|l|]|] eqn:Hc; try done.
  destruct (assoc "Date" (columns df)) as [dates|] eqn:Hdt; try done.
  destruct (decide (length l = nrows df)) as [Hlen|]; [|done].
  destruct (f l) as [col|] eqn:Hfl; [|done].
  destruct (decide (col_length col = nrows df)) as [Hcol|]; [|done].
  inversion Hf; subst df' ev; clear Hf.
  revert st HD Hdf. eapply step_eq.
  - eapply step_bind.
    + by eapply (step_derive D a c f df l col).
    + eapply step_plot; simpl.
      * rewrite assoc_set_ne by done. exact Hdt.
      * apply assoc_set_eq.
  - reflexivity.
  - reflexivity.
Qed.

Lemma plot_close_loop d (items : dict) st :
  dicts st !! d = Some items ->
  NoDup items.*2 ->
  (forall k a, (k, a) ∈ items ->
     exists df l dates, frames st !! a = Some df /\ has_floats df "Close" l
                        /\ assoc "Date" (columns df) = Some dates) ->
  exists st',
    for_items d (fun ticker data => plot data "Date" "Close" ticker) st = (Ok tt, st')
    /\ dicts st' = dicts st
    /\ forall k a df, (k, a) ∈ items -> frames st !! a = Some df ->
         frames st' !! a = Some df.
Proof.
  intros Hd Hnd Hok.
  destruct (for_items_inplace d items plot_close_effect _ st Hd Hnd
              (plot_close_acts items (dicts st)))
    as (st' & Hrun & Hd' & Hfr & _).
  { intros k a Hin. destruct (Hok k a Hin) as (df & l & dates & Hdf & [Hc _] & Hdt).
    exists df. unfold plot_close_effect. rewrite Hdt, Hc. by eexists. }
  exists st'. split; [exact Hrun|]. split; [exact Hd'|].
  intros k a df Hin Hdf. destruct (Hfr k a df Hin Hdf) as (df' & ev & Hf & Hdf').
  destruct (Hok k a Hin) as (df0 & l & dates & Hdf0 & [Hc _] & Hdt).
  rewrite Hdf in Hdf0. inversion Hdf0; subst df0.
  unfold plot_close_effect in Hf. rewrite Hdt, Hc in Hf. by inversion Hf; subst.
Qed.

Lemma derive_plot_loop d (items : dict) c f lbl st :
  c <> "Date" ->
  dicts st !! d = Some items ->
  NoDup items.*2 ->
  (forall k a, (k, a) ∈ items ->
     exists df l dates col,
       frames st !! a = Some df /\ has_floats df "Close" l
       /\ assoc "Date" (columns df) = Some dates
       /\ f l = Ok col /\ col_length col = nrows df) ->
  exists st',
    for_items d (fun ticker data =>
                   derive data c f >> plot data "Date" c (lbl ticker)) st
    = (Ok tt, st')
    /\ dicts st' = dicts st
    /\ forall k a df l col, (k, a) ∈ items -> frames st !! a = Some df ->
         has_floats df "Close" l -> f l = Ok col ->
         frames st' !! a = Some (with_column df c col).
Proof.
  intros Hne Hd Hnd Hok.
  destruct (for_items_inplace d items (derive_plot_effect c f lbl) _ st Hd Hnd
              (derive_plot_acts items (dicts st) c f lbl Hne))
    as (st' & Hrun & Hd' & Hfr & _).
  { intros k a Hin.
    destruct (Hok k a Hin) as (df & l & dates & col & Hdf & [Hc Hl] & Hdt & Hf & Hcol).
    exists df. unfold derive_plot_effect.
    rewrite Hc, Hdt, decide_True, Hf, decide_True by done. by eexists. }
  exists st'. split; [exact Hrun|]. split; [exact Hd'|].
  intros k a df l col Hin Hdf [Hc Hl] Hf.
  destruct (Hfr k a df Hin Hdf) as (df' & ev & Heff & Hdf').
  destruct (Hok k a Hin) as (df0 & l0 & dates & col0 & Hdf0 & _ & Hdt & _ & Hcol).
  rewrite Hdf in Hdf0. inversion Hdf0; subst df0.
  unfold derive_plot_effect in Heff. rewrite Hc, Hdt, decide_True, Hf in Heff by done.
  destruct (decide (col_length col = nrows df)) as [_|Hbad].
  - by inversion Heff; subst.
  - done.
Qed.

(** X25.  [visualize_All_in_one] is not a pure display.  On every table it
    stores three columns: ['Daily Return'] as the plain fraction (no factor
    100), and ['Rolling Mean'] and ['Rolling Std'] over a window of 20 rows.
    Values that [calculate_daily_returns] or [analyze_volatility] had stored
    under these names are replaced; the other columns, the index and the
    dictionary stay as they were. *)
Theorem visualize_All_in_one_writes_columns
    (st : store) (d : addr) (items : dict) :
  dicts st !! d = Some items ->
  NoDup items.*2 ->
  (forall k a, (k, a) ∈ items ->
     exists df l dates, frames st !! a = Some df /\ has_floats df "Close" l
                        /\ assoc "Date" (columns df) = Some dates) ->
  exists st',
    visualize_All_in_one d st = (Ok tt, st')
    /\ dicts st' = dicts st
    /\ forall k a df l, (k, a) ∈ items -> frames st !! a = Some df ->
         has_floats df "Close" l ->
         exists m s,
           rolling_mean 20 l = Ok m /\ rolling_std 20 l = Ok s
           /\ frames st' !! a
              = Some (with_column
                        (with_column
                           (with_column df "Daily Return" (NumCol (pct_change l)))
                           "Rolling Mean" (NumCol m))
                        "Rolling Std" (StatCol s)).
Proof.
  intros Hd Hnd Hok.
  set (f2 := fun l => @Ok column (NumCol (pct_change l))).
  set (f3 := fun l => let? m := rolling_mean 20 l in Ok (NumCol m)).
  set (f4 := fun l => let? s := rolling_std 20 l in Ok (StatCol s)).
  assert (Hm : forall l, exists m, rolling_mean 20 l = Ok m /\ length m = length l).
  { intros l. unfold rolling_mean. rewrite rolling_ok by lia.
    eexists. split; [reflexivity|]. by rewrite length_map, length_seq. }
  assert (Hs : forall l, exists s, rolling_std 20 l = Ok s /\ length s = length l).
  { intros l. unfold rolling_std. rewrite rolling_ok by lia.
    eexists. split; [reflexivity|]. by rewrite length_map, length_seq. }
  (* first figure: the closing prices *)
  set (st0 := (emit PltFigure st).2).
  destruct (plot_close_loop d items st0 Hd Hnd Hok) as (st1 & Hrun1 & Hd1 & Hfr1).
  set (st1' := (emit PltFigure
                 (emit PltShow (emit PltLegend
                   (emit (PltYlabel "Closing Price") (emit (PltXlabel "Date")
                     (emit (PltTitle "Closing Price Over Time") st1).2).2).2).2).2).2).
  (* second figure: the returns *)
  destruct (derive_plot_loop d items "Daily Return" f2 (fun t => t) st1')
    as (st2 & Hrun2 & Hd2 & Hfr2);
    [done|unfold st1'; simpl; rewrite Hd1; exact Hd|done| |].
  { intros k a Hin. destruct (Hok k a Hin) as (df & l & dates & Hdf & Hl & Hdt).
    exists df, l, dates, (NumCol (pct_change l)).
    split; [by apply (Hfr1 k a)|]. repeat (split; [done|]).
    simpl. rewrite pct_change_length. by destruct Hl. }
  set (st2' := (emit PltFigure
                 (emit PltShow (emit PltLegend
                   (emit (PltYlabel "Daily Return") (emit (PltXlabel "Date")
                     (emit (PltTitle "Daily Percentage Change") st2).2).2).2).2).2).2).
  (* third figure: the rolling mean *)
  destruct (derive_plot_loop d items "Rolling Mean" f3
              (fun t => (t ++ " Rolling Mean")%string) st2')
    as (st3 & Hrun3 & Hd3 & Hfr3);
    [done
    |unfold st2'; simpl; rewrite Hd2; unfold st1'; simpl; rewrite Hd1; exact Hd
    |done| |].
  { intros k a Hin. destruct (Hok k a Hin) as (df & l & dates & Hdf & Hl & Hdt).
    destruct (Hm l) as (m & Hml & Hlen).
    exists (with_column df "Daily Return" (NumCol (pct_change l))), l, dates, (NumCol m).
    split; [apply (Hfr2 k a df l _ Hin (Hfr1 k a df Hin Hdf) Hl eq_refl)|].
    destruct Hl as [Hc Hl].
    split; [split; [solve_assoc|done]|]. split; [solve_assoc|].
    split; [unfold f3; by rewrite Hml|]. unfold nrows in *. simpl. congruence. }
  set (st3' := (emit PltFigure
                 (emit PltShow (emit PltLegend
                   (emit (PltYlabel "Rolling Mean") (emit (PltXlabel "Date")
                     (emit (PltTitle "Volatility Analysis (Rolling Mean)")
                        st3).2).2).2).2).2).2).
  (* fourth figure: the rolling deviation *)
  destruct (derive_plot_loop d items "Rolling Std" f4
              (fun t => (t ++ " Rolling Std")%string) st3')
    as (st4 & Hrun4 & Hd4 & Hfr4);
    [done
    |unfold st3'; simpl; rewrite Hd3; unfold st2'; simpl; rewrite Hd2;
     unfold st1'; simpl; rewrite Hd1; exact Hd
    |done| |].
  { intros k a Hin. destruct (Hok k a Hin) as (df & l & dates & Hdf & Hl & Hdt).
    destruct (Hm l) as (m & Hml & Hlen). destruct (Hs l) as (s & Hsl & Hlens).
    exists (with_column (with_column df "Daily Return" (NumCol (pct_change l)))
                        "Rolling Mean" (NumCol m)), l, dates, (StatCol s).
    split.
    { apply (Hfr3 k a _ l _ Hin).
      - apply (Hfr2 k a df l _ Hin (Hfr1 k a df Hin Hdf) Hl eq_refl).
      - destruct Hl as [Hc Hl]. split; [solve_assoc|done].
      - unfold f3. by rewrite Hml. }
    destruct Hl as [Hc Hl].
    split; [split; [solve_assoc|done]|]. split; [solve_assoc|].
    split; [unfold f4; by rewrite Hsl|]. unfold nrows in *. simpl. congruence. }
  eexists. split.
  { unfold visualize_All_in_one.
    erewrite bind_ok; [|reflexivity].
    erewrite bind_ok; [|exact Hrun1].
    do 6 (erewrite bind_ok; [|reflexivity]).
    erewrite bind_ok; [|exact Hrun2].
    do 6 (erewrite bind_ok; [|reflexivity]).
    erewrite bind_ok; [|exact Hrun3].
    do 6 (erewrite bind_ok; [|reflexivity]).
    erewrite bind_ok; [|exact Hrun4].
    do 4 (erewrite bind_ok; [|reflexivity]).
    reflexivity. }
  split.
  { simpl. rewrite Hd4. unfold st3'. simpl. rewrite Hd3. unfold st2'. simpl.
    rewrite Hd2. unfold st1'. simpl. by rewrite Hd1. }
  intros k a df l Hin Hdf Hl.
  destruct (Hm l) as (m & Hml & Hlen). destruct (Hs l) as (s & Hsl & Hlens).
  exists m, s. split; [done|]. split; [done|]. simpl.
  apply (Hfr4 k a _ l _ Hin).
  - apply (Hfr3 k a _ l _ Hin).
    + apply (Hfr2 k a df l _ Hin (Hfr1 k a df Hin Hdf) Hl eq_refl).
    + destruct Hl as [Hc Hl']. split; [solve_assoc|done].
    + unfold f3. by rewrite Hml.
  - destruct Hl as [Hc Hl']. split; [solve_assoc|done].
  - unfold f4. by rewrite Hsl.
Qed.

Lemma visualize_All_in_one_writes_columns_witness :
  exists st',
    visualize_All_in_one 0 (example_store [Fin 100; Fin 110; Fin 99]) = (Ok tt, st')
    /\ (df ← frames st' !! 0; assoc "Daily Return" (columns df))
       = Some (NumCol [NaN; Fin (1 # 10); Fin (- 1 # 10)])
    /\ (df ← frames st' !! 0; assoc "Rolling Mean" (columns df))
       = Some (NumCol [NaN; NaN; NaN]).
Proof.
  destruct (visualize_All_in_one_writes_columns
              (example_store [Fin 100; Fin 110; Fin 99]) 0 [("TSLA", 0%nat)])
    as (st' & Hrun & _).
  - reflexivity.
  - apply NoDup_singleton.
  - intros k a Hin. apply list_elem_of_singleton in Hin. inversion Hin; subst.
    eexists _, _, _. split; [reflexivity|]. split; [split; reflexivity|reflexivity].
  - exists st'. split; [exact Hrun|].
    vm_compute in Hrun. inversion Hrun. split; reflexivity.
Defined.

(** ** The decomposition works on rows in date order *)

Lemma insert_key_perm k i l : insert_key k i l ≡ₚ (k, i) :: l.
Proof.
  induction l as [|[k' i'] l IH]; simpl; [done|].
  destruct (k <=? k')%Z; [done|].
  rewrite IH. apply perm_swap.
Qed.

Lemma insert_key_ascending k i l :
  ascending (map fst l) -> ascending (map fst (insert_key k i l)).
Proof.
  induction l as [|[k' i'] l IH]; simpl.
  - intros _. split; [constructor|done].
  - intros [Hall Hasc]. destruct (Z.leb_spec k k') as [Hle|Hgt]; simpl.
    + split; [|done]. constructor; [done|].
      eapply Forall_impl; [exact Hall|]. intros x Hx. simpl in Hx. lia.
    + split; [|by apply IH].
      eapply Permutation_Forall;
        [symmetry; apply Permutation_map, insert_key_perm|].
      simpl. constructor; [lia|done].
Qed.

Lemma sort_pairs_perm (l : list (Z * nat)) :
  fold_right (fun ki acc => insert_key ki.1 ki.2 acc) [] l ≡ₚ l.
Proof.
  induction l as [|[k i] l IH]; simpl; [done|].
  rewrite insert_key_perm. by constructor.
Qed.

Lemma sort_pairs_ascending (l : list (Z * nat)) :
  ascending (map fst (fold_right (fun ki acc => insert_key ki.1 ki.2 acc) [] l)).
Proof.
  induction l as [|[k i] l IH]; simpl; [done|]. by apply insert_key_ascending.
Qed.

Lemma zip_seq_snd {A} (keys : list A) start :
  map snd (zip keys (seq start (length keys))) = seq start (length keys).
Proof.
  revert start. induction keys as [|k keys IH]; intros start; simpl; [done|].
  by rewrite IH.
Qed.

Lemma zip_seq_lookup {A} (keys : list A) :
  Forall (fun p => keys !! p.2 = Some p.1) (zip keys (seq 0 (length keys))).
Proof.
  apply Forall_forall. intros [k i] Hin.
  apply list_elem_of_lookup in Hin as [j Hj].
  apply lookup_zip_with_Some in Hj as (x & y & [= <- <-] & Hx & Hy).
  apply lookup_seq in Hy as [-> _]. done.
Qed.

Lemma reorder_pairs {A} (keys : list A) (sp : list (A * nat)) :
  Forall (fun p => keys !! p.2 = Some p.1) sp ->
  reorder (map snd sp) keys = map fst sp.
Proof.
  unfold reorder. induction 1 as [|[k i] sp Hp _ IH]; [done|].
  cbn [map snd fst]. simpl in Hp. csimpl. rewrite Hp. csimpl. by rewrite IH.
Qed.

(** The order that [sort_values] applies lists every row once and puts the
    dates in ascending order. *)
Lemma argsort_sorts keys :
  argsort keys ≡ₚ seq 0 (length keys)
  /\ ascending (reorder (argsort keys) keys).
Proof.
  unfold argsort.
  set (sp := fold_right _ [] _).
  assert (Hperm : sp ≡ₚ zip keys (seq 0 (length keys))) by apply sort_pairs_perm.
  split.
  - rewrite <- (zip_seq_snd keys 0). by apply Permutation_map.
  - rewrite reorder_pairs; [apply sort_pairs_ascending|].
    eapply Permutation_Forall; [symmetry; exact Hperm|]. apply zip_seq_lookup.
Qed.

Lemma decompose_tail_grows period (items : dict) (comps : components) :
  keeps grows
    (let* comps :=
       fold_each items comps
         (fun kv comps =>
            let ticker := kv.1 in
            let* df := get_frame kv.2 in
            let* sorted := lift (sort_values df "Date") in
            let* data := new_frame sorted in
            (let* df := get_frame data in
             let* df' := lift (set_index df "Date") in
             put_frame data df') >>
            let* df := get_frame data in
            let* close := lift (df_getitem df "Close") in
            let* decomposition :=
              lift (seasonal_decompose (index df) close period) in
            ret {| trends := assoc_set ticker decomposition (trends comps);
                   seasonals := assoc_set ticker decomposition (seasonals comps);
                   residuals := assoc_set ticker decomposition (residuals comps) |}) in
     plot_components Trend "Trend" (trends comps) >>
     plot_components Seasonal "Seasonal" (seasonals comps) >>
     plot_components Resid "Residual" (residuals comps)).
Proof.
  apply keeps_bind; [exact grows_trans| |].
  - apply keeps_fold_each; [exact grows_refl | exact grows_trans |].
    intros kv acc. apply decompose_round_grows.
  - intros acc.
    repeat (apply keeps_bind;
            [exact grows_trans | apply plot_components_grows | intros _]).
    apply plot_components_grows.
Qed.

(** X26.  The decomposition never sees the rows in table order: for each
    ticker it works on a copy whose rows are the rows of the table, each
    once, in ascending date order, and whose row labels are those dates.
    The copy of the first ticker is made whatever happens afterwards. *)
Theorem decompose_works_in_date_order
    (st : store) (d : addr) (k : string) (a : addr) (items : dict)
    (df : DataFrame) (keys : list Z) (l : list float64) (period : Z) :
  dicts st !! d = Some ((k, a) :: items) ->
  frames st !! a = Some df ->
  assoc "Date" (columns df) = Some (DateCol keys) ->
  assoc "Close" (columns df) = Some (NumCol l) ->
  let st' := (decompose_time_series_all_in_one d period st).2 in
  let order := argsort keys in
  order ≡ₚ seq 0 (length keys)
  /\ ascending (reorder order keys)
  /\ exists copy,
       frames st' !! length (frames st) = Some copy
       /\ index copy = map Day (reorder order keys)
       /\ assoc "Close" (columns copy) = Some (NumCol (reorder order l))
       /\ assoc "Date" (columns copy) = None.
Proof.
  intros Hd Hdf Hdate Hclose st' order.
  destruct (argsort_sorts keys) as [Hperm Hasc].
  split; [exact Hperm|]. split; [exact Hasc|].
  set (copy := {| index := map Day (reorder order keys);
                  columns := assoc_del "Date"
                    (map (fun kc => (kc.1, col_reorder order kc.2)) (columns df)) |}).
  exists copy. split; [|split; [done|split]].
  - subst st'. unfold decompose_time_series_all_in_one, bind at 1, get_dict.
    rewrite Hd. cbn [fold_each fst snd]. unfold bind at 1. unfold bind at 1.
    set (round := bind (get_frame a) _).
    assert (Hround : exists r,
              round st = (r, {| frames := frames st ++ [copy];
                                dicts := dicts st; out := out st |})).
    { subst round. unfold bind, get_frame, lift, new_frame, put_frame, ret. simpl.
      rewrite Hdf. unfold sort_values, df_getitem. rewrite Hdate. simpl.
      rewrite lookup_last. unfold set_index, df_getitem. simpl.
      rewrite assoc_map, Hdate. simpl.
      rewrite insert_app_r_alt by done. rewrite Nat.sub_diag. simpl.
      rewrite lookup_last. simpl.
      rewrite assoc_del_ne by done. rewrite assoc_map, Hclose. simpl.
      fold order. fold copy.
      destruct (seasonal_decompose _ _ _); simpl; by eexists. }
    destruct Hround as [r Hround]. rewrite Hround.
    destruct r as [comps|e]; [|simpl; apply lookup_last].
    cbv beta iota.
    destruct (decompose_tail_grows period items comps
                {| frames := frames st ++ [copy]; dicts := dicts st; out := out st |})
      as [_ Hpre].
    eapply prefix_lookup_Some; [|exact Hpre]. apply lookup_last.
  - simpl. rewrite assoc_del_ne by done. by rewrite assoc_map, Hclose.
  - simpl. clear. induction (map _ (columns df)) as [|[c col] cols IH]; simpl; [done|].
    destruct (decide ("Date" = c)) as [<-|Hne]; [done|].
    simpl. by rewrite decide_False.
Qed.

Lemma decompose_works_in_date_order_witness :
  let df := {| index := [Pos 0; Pos 1; Pos 2];
               columns := [("Date", DateCol [3; 1; 2]%Z);
                           ("Close", NumCol [Fin 30; Fin 10; Fin 20])] |} in
  let st := {| frames := [df]; dicts := [[("TSLA", 0%nat)]]; out := [] |} in
  exists copy,
    frames (decompose_time_series_all_in_one 0 1 st).2 !! 1%nat = Some copy
    /\ index copy = [Day 1; Day 2; Day 3]
    /\ assoc "Close" (columns copy) = Some (NumCol [Fin 10; Fin 20; Fin 30]).
Proof.
  intros df st.
  destruct (decompose_works_in_date_order st 0 "TSLA" 0 [] df [3; 1; 2]%Z
              [Fin 30; Fin 10; Fin 20] 1)
    as (_ & _ & copy & Hcopy & Hidx & Hclose & _); [reflexivity..|].
  exists copy. split; [exact Hcopy|]. split; [exact Hidx|exact Hclose].
Defined.

(** ** Running a stage again *)

(** X27.  The derived columns are recomputed from ['Close'], not
    accumulated: a second run of [calculate_daily_returns], or of
    [analyze_volatility] with the same window, leaves every table of the
    dictionary exactly as the first run left it. *)
Theorem derived_columns_are_recomputed
    (st : store) (d : addr) (items : dict) (window : Z) :
  dicts st !! d = Some items ->
  NoDup items.*2 ->
  (0 <= window)%Z ->
  (forall k a, (k, a) ∈ items ->
     exists df l dates, frames st !! a = Some df /\ has_floats df "Close" l
                        /\ assoc "Date" (columns df) = Some dates) ->
  (exists st1 st2,
     calculate_daily_returns d st = (Ok tt, st1)
     /\ calculate_daily_returns d st1 = (Ok tt, st2)
     /\ forall k a, (k, a) ∈ items -> frames st2 !! a = frames st1 !! a)
  /\ (exists st1 st2,
        analyze_volatility d window st = (Ok tt, st1)
        /\ analyze_volatility d window st1 = (Ok tt, st2)
        /\ forall k a, (k, a) ∈ items -> frames st2 !! a = frames st1 !! a).
Proof.
  intros Hd Hnd Hw Hok. split.
  - destruct (calculate_daily_returns_percent st d items Hd Hnd Hok)
      as (st1 & Hrun1 & Hcol1).
    assert (Hd1 : dicts st1 !! d = Some items).
    { pose proof (for_items_inplace d items daily_returns_effect _ st Hd Hnd
                    (calculate_daily_returns_acts items (dicts st))) as H.
      destruct H as (st1' & Hrun1' & Hd1' & _).
      { intros k a Hin.
        destruct (Hok k a Hin) as (df & l & dates & Hdf & [Hc Hl] & Hdt).
        exists df. unfold daily_returns_effect.
        rewrite Hc, Hdt, decide_True by done. by eexists. }
      unfold calculate_daily_returns in Hrun1. rewrite Hrun1' in Hrun1.
      inversion Hrun1; subst st1'. by rewrite Hd1'. }
    assert (Hok1 : forall k a, (k, a) ∈ items ->
              exists df l dates, frames st1 !! a = Some df /\ has_floats df "Close" l
                                 /\ assoc "Date" (columns df) = Some dates).
    { intros k a Hin. destruct (Hok k a Hin) as (df & l & dates & Hdf & Hl & Hdt).
      eexists _, l, dates. split; [exact (Hcol1 k a df l Hin Hdf Hl)|].
      destruct Hl as [Hc Hl]. split; [split; [solve_assoc|done]|solve_assoc]. }
    destruct (calculate_daily_returns_percent st1 d items Hd1 Hnd Hok1)
      as (st2 & Hrun2 & Hcol2).
    exists st1, st2. split; [exact Hrun1|]. split; [exact Hrun2|].
    intros k a Hin. destruct (Hok k a Hin) as (df & l & dates & Hdf & Hl & Hdt).
    pose proof (Hcol1 k a df l Hin Hdf Hl) as Hdf1.
    rewrite (Hcol2 k a _ l Hin Hdf1), Hdf1.
    + f_equal. apply with_column_same. solve_assoc.
    + destruct Hl as [Hc Hl]. split; [solve_assoc|done].
  - destruct (analyze_volatility_columns st d items window Hd Hnd Hw Hok)
      as (st1 & Hrun1 & Hcol1).
    assert (Hd1 : dicts st1 !! d = Some items).
    { pose proof (for_items_inplace d items (volatility_effect window) _ st Hd Hnd
                    (analyze_volatility_acts items (dicts st) window)) as H.
      destruct H as (st1' & Hrun1' & Hd1' & _).
      { intros k a Hin.
        destruct (Hok k a Hin) as (df & l & dates & Hdf & [Hc Hl] & Hdt).
        exists df. unfold volatility_effect.
        rewrite Hc, Hdt, decide_True by done.
        unfold rolling_mean, rolling_std. rewrite !rolling_ok by done. by eexists. }
      unfold analyze_volatility in Hrun1. rewrite Hrun1' in Hrun1.
      inversion Hrun1; subst st1'. by rewrite Hd1'. }
    assert (Hok1 : forall k a, (k, a) ∈ items ->
              exists df l dates, frames st1 !! a = Some df /\ has_floats df "Close" l
                                 /\ assoc "Date" (columns df) = Some dates).
    { intros k a Hin. destruct (Hok k a Hin) as (df & l & dates & Hdf & Hl & Hdt).
      destruct (Hcol1 k a df l Hin Hdf Hl) as (m & s & _ & _ & Hdf1).
      eexists _, l, dates. split; [exact Hdf1|].
      destruct Hl as [Hc Hl]. split; [split; [solve_assoc|done]|solve_assoc]. }
    destruct (analyze_volatility_columns st1 d items window Hd1 Hnd Hw Hok1)
      as (st2 & Hrun2 & Hcol2).
    exists st1, st2. split; [exact Hrun1|]. split; [exact Hrun2|].
    intros k a Hin. destruct (Hok k a Hin) as (df & l & dates & Hdf & Hl & Hdt).
    destruct (Hcol1 k a df l Hin Hdf Hl) as (m & s & Hm & Hs & Hdf1).
    destruct (Hcol2 k a _ l Hin Hdf1) as (m' & s' & Hm' & Hs' & Hdf2).
    { destruct Hl as [Hc Hl]. split; [solve_assoc|done]. }
    rewrite Hm in Hm'. rewrite Hs in Hs'. inversion Hm'; inversion Hs'; subst m' s'.
    rewrite Hdf2, Hdf1. f_equal.
    rewrite (with_column_same _ "Rolling Mean") by solve_assoc.
    apply with_column_same. solve_assoc.
Qed.

Lemma derived_columns_are_recomputed_witness :
  exists st1 st2,
    calculate_daily_returns 0 (example_store [Fin 100; Fin 110; Fin 99]) = (Ok tt, st1)
    /\ calculate_daily_returns 0 st1 = (Ok tt, st2)
    /\ frames st2 = frames st1.
Proof.
  destruct (derived_columns_are_recomputed
              (example_store [Fin 100; Fin 110; Fin 99]) 0 [("TSLA", 0%nat)] 2)
    as [(st1 & st2 & Hrun1 & Hrun2 & _) _].
  - reflexivity.
  - apply NoDup_singleton.
  - lia.
  - intros k a Hin. apply list_elem_of_singleton in Hin. inversion Hin; subst.
    eexists _, _, _. split; [reflexivity|]. split; [split; reflexivity|reflexivity].
  - exists st1, st2. split; [exact Hrun1|].
    vm_compute in Hrun1. inversion Hrun1; subst st1. split; [exact Hrun2|].
    vm_compute in Hrun2. inversion Hrun2. reflexivity.
Defined.
